(** * Healthcare management system: the registry, its entities and their
      state machines, embedded from [healthcare_management_system.py].

    Python objects are mutable and shared: the same [Appointment] sits in the
    registry's index, in the doctor's list and in the patient's list.  The
    embedding therefore keeps one object store per class (a finite map from
    locations to field records) and lets the indexes and lists hold locations.

    - [float] is IEEE binary64, modelled by the primitive floats;
    - a naive [datetime] is an integer number of microseconds, and adding a
      [timedelta] raises [OverflowError] when the sum leaves the range of the
      type;
    - [datetime.now()] and [uuid.uuid4()] are read from the environment, so the
      value drawn by a call is an explicit argument of that call;
    - [print] appends one line to [stdout]; an f-string is kept as the list of
      its literal and interpolated fragments;
    - a raised exception ends the call and leaves the store as it was at the
      [raise].

    Not embedded: the interactive menus, [generate_report] (it only reads the
    indexes and writes [reports]), [update_record], and the keywords of
    [update_profile] other than [name] and [email]. *)

From Stdlib Require Import Floats.
From stdpp Require Import gmap strings list fin_maps.

Local Open Scope string_scope.
Local Open Scope list_scope.

(** ** Values of the environment *)

Abbreviation loc := nat (only parsing).

(** A naive [datetime], in microseconds since 1970-01-01 00:00:00.  The
    values of the type run from [datetime.min], 0001-01-01 00:00:00, to
    [datetime.max], 9999-12-31 23:59:59.999999. *)
Abbreviation datetime := Z (only parsing).

Definition datetime_min : Z := (-62135596800000000)%Z.
Definition datetime_max : Z := 253402300799999999%Z.

Definition timedelta_days (days : Z) : Z := (days * 86400000000)%Z.

(** [hashlib.sha256(password.encode()).hexdigest()], left uninterpreted. *)
Inductive digest := sha256_hexdigest (plain : string).

Definition hash_password (password : string) : digest := sha256_hexdigest password.

(** The pieces of an f-string. *)
Inductive fragment :=
| Lit (s : string)
| Str (s : string)
| Time (t : datetime)
| Float (x : float).

Definition line := list fragment.

Definition nl : string := String (Ascii.ascii_of_nat 10) EmptyString.

Inductive exn :=
| AuthenticationError (msg : string)
| AuthorizationError (msg : string)
| SchedulingConflictError (msg : string)
| BillingError (msg : string)
| RecordNotFoundError (msg : string)
| KeyError (key : string)
| OverflowError (msg : string).

(** [t + delta] on a [datetime] and a [timedelta]: the sum, or
    [OverflowError] when it leaves the range of the type. *)
Definition datetime_add (t delta : Z) : exn + Z :=
  if decide (datetime_min ≤ t + delta ≤ datetime_max)%Z then inr (t + delta)%Z
  else inl (OverflowError "date value out of range").

(** [x if x else str(uuid.uuid4())]: [None] and the empty string are falsy. *)
Definition id_or_uuid (given : option string) (uuid4 : string) : string :=
  match given with
  | Some s => if decide (s = "") then uuid4 else s
  | None => uuid4
  end.

(** ** Entities *)

Module Medication.
Record t := mk
  { medication_id : string; name : string; dosage : string;
    frequency : string; duration : string }.

Definition init (name dosage frequency duration uuid4 : string) : t :=
  mk uuid4 name dosage frequency duration.
End Medication.

Module Prescription.
Record t := mk
  { prescription_id : string; patient_id : string; doctor_id : string;
    medications : list Medication.t; date_issued : datetime;
    instructions : string }.

Definition init (patient_id doctor_id instructions : string)
    (prescription_id : option string) (uuid4 : string) (now : datetime) : t :=
  mk (id_or_uuid prescription_id uuid4) patient_id doctor_id [] now instructions.

Definition add_medication (self : t) (medication : Medication.t) : t :=
  mk (prescription_id self) (patient_id self) (doctor_id self)
     (medications self ++ [medication]) (date_issued self) (instructions self).
End Prescription.

Module MedicalRecord.
Record t := mk
  { record_id : string; patient_id : string; doctor_id : string;
    date : datetime; diagnosis : string; treatment : string;
    prescriptions : list loc; notes : string }.

Definition init (patient_id doctor_id diagnosis treatment notes : string)
    (record_id : option string) (uuid4 : string) (now : datetime) : t :=
  mk (id_or_uuid record_id uuid4) patient_id doctor_id now diagnosis treatment
     [] notes.

Definition set_prescriptions (self : t) (ps : list loc) : t :=
  mk (record_id self) (patient_id self) (doctor_id self) (date self)
     (diagnosis self) (treatment self) ps (notes self).
End MedicalRecord.

Module Billing.
Record t := mk
  { billing_id : string; patient_id : string; amount_due : float;
    due_date : datetime; status : string; description : string }.

(** [__init__]: the fields, or the exception of
    [datetime.now() + timedelta(days=30)]. *)
Definition init (patient_id : string) (amount_due : float)
    (description : string) (billing_id : option string) (uuid4 : string)
    (now : datetime) : exn + t :=
  match datetime_add now (timedelta_days 30) with
  | inl e => inl e
  | inr due =>
      inr (mk (id_or_uuid billing_id uuid4) patient_id amount_due due "Unpaid"
             description)
  end.

Definition set_status (self : t) (new_status : string) : t :=
  mk (billing_id self) (patient_id self) (amount_due self) (due_date self)
     new_status (description self).

Definition set_amount_due (self : t) (x : float) : t :=
  mk (billing_id self) (patient_id self) x (due_date self) (status self)
     (description self).

(** The method body on the field record: the new fields, or the exception.
    [amount >= self.amount_due] on floats is [self.amount_due <= amount]. *)
Definition apply_payment (self : t) (amount : float) (now : datetime)
    : exn + t :=
  if PrimFloat.leb amount 0 then
    inl (BillingError "Payment amount must be positive.")
  else if PrimFloat.leb (amount_due self) amount then
    inr (set_amount_due (set_status self "Paid") 0)
  else if PrimFloat.ltb 0 amount && PrimFloat.ltb amount (amount_due self) then
    let self1 := set_amount_due self (PrimFloat.sub (amount_due self) amount) in
    inr (if bool_decide (due_date self1 < now)%Z
         then set_status self1 "Overdue" else self1)
  else
    inl (BillingError "Invalid payment amount.").
End Billing.

Module Appointment.
Record t := mk
  { appointment_id : string; patient_id : string; doctor_id : string;
    date_time : datetime; status : string; notes : string }.

Definition init (patient_id doctor_id : string) (date_time : datetime)
    (appointment_id : option string) (uuid4 : string) : t :=
  mk (id_or_uuid appointment_id uuid4) patient_id doctor_id date_time
     "Scheduled" "".

Definition update_status (self : t) (new_status : string) : t :=
  mk (appointment_id self) (patient_id self) (doctor_id self)
     (date_time self) new_status (notes self).

Definition set_date_time (self : t) (new_time : datetime) : t :=
  mk (appointment_id self) (patient_id self) (doctor_id self) new_time
     (status self) (notes self).

Definition add_notes (self : t) (more : string) : t :=
  mk (appointment_id self) (patient_id self) (doctor_id self)
     (date_time self) (status self) (notes self +:+ more +:+ nl).
End Appointment.

Module User.
Record t := mk
  { user_id : string; name : string; email : string; password : digest }.

Definition init (name email password : string) (user_id : option string)
    (uuid4 : string) : t :=
  mk (id_or_uuid user_id uuid4) name email (hash_password password).
End User.

Module Patient.
Record t := mk
  { base : User.t; medical_history : list loc; appointments : list loc;
    billing_info : list loc; insurance_details : gmap string string }.

Definition init (name email password : string)
    (insurance_details : gmap string string) (user_id : option string)
    (uuid4 : string) : t :=
  mk (User.init name email password user_id uuid4) [] [] [] insurance_details.

Definition set_medical_history (self : t) (l : list loc) : t :=
  mk (base self) l (appointments self) (billing_info self)
     (insurance_details self).

Definition set_appointments (self : t) (l : list loc) : t :=
  mk (base self) (medical_history self) l (billing_info self)
     (insurance_details self).

Definition set_billing_info (self : t) (l : list loc) : t :=
  mk (base self) (medical_history self) (appointments self) l
     (insurance_details self).
End Patient.

Module Doctor.
Record t := mk
  { base : User.t; specialization : string; appointments : list loc;
    patients : gset string; schedule : gset datetime }.

Definition init (name email password specialization : string)
    (user_id : option string) (uuid4 : string) : t :=
  mk (User.init name email password user_id uuid4) specialization [] ∅ ∅.

Definition set_appointments (self : t) (l : list loc) : t :=
  mk (base self) (specialization self) l (patients self) (schedule self).

Definition set_patients (self : t) (ps : gset string) : t :=
  mk (base self) (specialization self) (appointments self) ps (schedule self).
End Doctor.

Module Administrator.
Record t := mk { base : User.t }.

Definition init (name email password : string) (user_id : option string)
    (uuid4 : string) : t :=
  mk (User.init name email password user_id uuid4).
End Administrator.

(** The three subclasses of [User]. *)
Inductive user :=
| APatient (p : Patient.t)
| ADoctor (d : Doctor.t)
| AnAdministrator (a : Administrator.t).

Definition user_base (u : user) : User.t :=
  match u with
  | APatient p => Patient.base p
  | ADoctor d => Doctor.base d
  | AnAdministrator a => Administrator.base a
  end.

(** [role] is fixed by each subclass's constructor. *)
Definition role (u : user) : string :=
  match u with
  | APatient _ => "Patient"
  | ADoctor _ => "Doctor"
  | AnAdministrator _ => "Administrator"
  end.

(** ** The store: the registry's indexes and the objects they refer to *)

Record state := mkState
  { users : gmap string loc;
    users_by_email : gmap string loc;
    appointments : gmap string loc;
    medical_records : gmap string loc;
    prescriptions : gmap string loc;
    billings : gmap string loc;
    user_objs : gmap loc user;
    appointment_objs : gmap loc Appointment.t;
    record_objs : gmap loc MedicalRecord.t;
    prescription_objs : gmap loc Prescription.t;
    billing_objs : gmap loc Billing.t;
    stdout : list line }.

(** [HealthcareSystem()] in an empty store. *)
Definition init : state := mkState ∅ ∅ ∅ ∅ ∅ ∅ ∅ ∅ ∅ ∅ ∅ [].

Definition set_users (f : gmap string loc → gmap string loc) (s : state) :=
  mkState (f (users s)) (users_by_email s) (appointments s) (medical_records s)
    (prescriptions s) (billings s) (user_objs s) (appointment_objs s)
    (record_objs s) (prescription_objs s) (billing_objs s) (stdout s).

Definition set_users_by_email (f : gmap string loc → gmap string loc) (s : state) :=
  mkState (users s) (f (users_by_email s)) (appointments s) (medical_records s)
    (prescriptions s) (billings s) (user_objs s) (appointment_objs s)
    (record_objs s) (prescription_objs s) (billing_objs s) (stdout s).

Definition set_appointments (f : gmap string loc → gmap string loc) (s : state) :=
  mkState (users s) (users_by_email s) (f (appointments s)) (medical_records s)
    (prescriptions s) (billings s) (user_objs s) (appointment_objs s)
    (record_objs s) (prescription_objs s) (billing_objs s) (stdout s).

Definition set_medical_records (f : gmap string loc → gmap string loc) (s : state) :=
  mkState (users s) (users_by_email s) (appointments s) (f (medical_records s))
    (prescriptions s) (billings s) (user_objs s) (appointment_objs s)
    (record_objs s) (prescription_objs s) (billing_objs s) (stdout s).

Definition set_prescriptions (f : gmap string loc → gmap string loc) (s : state) :=
  mkState (users s) (users_by_email s) (appointments s) (medical_records s)
    (f (prescriptions s)) (billings s) (user_objs s) (appointment_objs s)
    (record_objs s) (prescription_objs s) (billing_objs s) (stdout s).

Definition set_billings (f : gmap string loc → gmap string loc) (s : state) :=
  mkState (users s) (users_by_email s) (appointments s) (medical_records s)
    (prescriptions s) (f (billings s)) (user_objs s) (appointment_objs s)
    (record_objs s) (prescription_objs s) (billing_objs s) (stdout s).

Definition set_user_objs (f : gmap loc user → gmap loc user) (s : state) :=
  mkState (users s) (users_by_email s) (appointments s) (medical_records s)
    (prescriptions s) (billings s) (f (user_objs s)) (appointment_objs s)
    (record_objs s) (prescription_objs s) (billing_objs s) (stdout s).

Definition set_appointment_objs
    (f : gmap loc Appointment.t → gmap loc Appointment.t) (s : state) :=
  mkState (users s) (users_by_email s) (appointments s) (medical_records s)
    (prescriptions s) (billings s) (user_objs s) (f (appointment_objs s))
    (record_objs s) (prescription_objs s) (billing_objs s) (stdout s).

Definition set_record_objs
    (f : gmap loc MedicalRecord.t → gmap loc MedicalRecord.t) (s : state) :=
  mkState (users s) (users_by_email s) (appointments s) (medical_records s)
    (prescriptions s) (billings s) (user_objs s) (appointment_objs s)
    (f (record_objs s)) (prescription_objs s) (billing_objs s) (stdout s).

Definition set_prescription_objs
    (f : gmap loc Prescription.t → gmap loc Prescription.t) (s : state) :=
  mkState (users s) (users_by_email s) (appointments s) (medical_records s)
    (prescriptions s) (billings s) (user_objs s) (appointment_objs s)
    (record_objs s) (f (prescription_objs s)) (billing_objs s) (stdout s).

Definition set_billing_objs
    (f : gmap loc Billing.t → gmap loc Billing.t) (s : state) :=
  mkState (users s) (users_by_email s) (appointments s) (medical_records s)
    (prescriptions s) (billings s) (user_objs s) (appointment_objs s)
    (record_objs s) (prescription_objs s) (f (billing_objs s)) (stdout s).

Definition set_stdout (f : list line → list line) (s : state) :=
  mkState (users s) (users_by_email s) (appointments s) (medical_records s)
    (prescriptions s) (billings s) (user_objs s) (appointment_objs s)
    (record_objs s) (prescription_objs s) (billing_objs s) (f (stdout s)).

(** ** Calls: a state monad with exceptions

    A call maps the store to the store it leaves and either a returned value
    or the raised exception.  [None] is no behaviour of the program: a
    reference that names no object, or a method run on an object of another
    class. *)

Inductive outcome (A : Type) :=
| Return (a : A)
| Raise (e : exn).
Arguments Return {A} a.
Arguments Raise {A} e.

Definition M (A : Type) : Type := state → option (state * outcome A).

#[export] Instance M_ret : MRet M := λ A a s, Some (s, Return a).

#[export] Instance M_bind : MBind M := λ A B f m s,
  match m s with
  | Some (s', Return a) => f a s'
  | Some (s', Raise e) => Some (s', Raise e)
  | None => None
  end.

Definition raise {A} (e : exn) : M A := λ s, Some (s, Raise e).

Definition stuck {A} : M A := λ _, None.

Definition gets {A} (f : state → A) : M A := λ s, Some (s, Return (f s)).

Definition modify (f : state → state) : M unit := λ s, Some (f s, Return tt).

Definition print (l : line) : M unit := modify (set_stdout (λ out, (out ++ [l]))).

(** Reading the fields of the object at a location. *)
Definition deref {A} (objs : state → gmap loc A) (l : loc) : M A := λ s,
  match objs s !! l with
  | Some a => Some (s, Return a)
  | None => None
  end.

(** A Python [for] loop whose body neither breaks nor returns. *)
Fixpoint for_each {A} (xs : list A) (body : A → M unit) : M unit :=
  match xs with
  | [] => mret tt
  | x :: rest => body x;; for_each rest body
  end.

(** Object creation: a location not in use yet. *)
Definition new_user (u : user) : M loc := λ s,
  let l := fresh (dom (user_objs s)) in
  Some (set_user_objs <[l:=u]> s, Return l).

Definition new_appointment (a : Appointment.t) : M loc := λ s,
  let l := fresh (dom (appointment_objs s)) in
  Some (set_appointment_objs <[l:=a]> s, Return l).

Definition new_record (r : MedicalRecord.t) : M loc := λ s,
  let l := fresh (dom (record_objs s)) in
  Some (set_record_objs <[l:=r]> s, Return l).

Definition new_prescription (p : Prescription.t) : M loc := λ s,
  let l := fresh (dom (prescription_objs s)) in
  Some (set_prescription_objs <[l:=p]> s, Return l).

Definition new_billing (b : Billing.t) : M loc := λ s,
  let l := fresh (dom (billing_objs s)) in
  Some (set_billing_objs <[l:=b]> s, Return l).

(** In-place mutation of an object. *)
Definition update_patient (l : loc) (f : Patient.t → Patient.t) : M unit :=
  u ← deref user_objs l;
  match u with
  | APatient p => modify (set_user_objs <[l:=APatient (f p)]>)
  | _ => stuck
  end.

Definition update_doctor (l : loc) (f : Doctor.t → Doctor.t) : M unit :=
  u ← deref user_objs l;
  match u with
  | ADoctor d => modify (set_user_objs <[l:=ADoctor (f d)]>)
  | _ => stuck
  end.

Definition update_appointment (l : loc) (f : Appointment.t → Appointment.t)
    : M unit :=
  a ← deref appointment_objs l;
  modify (set_appointment_objs <[l:=f a]>).

Definition update_record (l : loc) (f : MedicalRecord.t → MedicalRecord.t)
    : M unit :=
  r ← deref record_objs l;
  modify (set_record_objs <[l:=f r]>).

(** [isinstance(self.users.get(id), Patient)], with the object when it holds. *)
Definition get_patient (id : string) : M (option (loc * Patient.t)) :=
  o ← gets (λ s, users s !! id);
  match o with
  | None => mret None
  | Some l =>
      u ← deref user_objs l;
      mret (match u with APatient p => Some (l, p) | _ => None end)
  end.

Definition get_doctor (id : string) : M (option (loc * Doctor.t)) :=
  o ← gets (λ s, users s !! id);
  match o with
  | None => mret None
  | Some l =>
      u ← deref user_objs l;
      mret (match u with ADoctor d => Some (l, d) | _ => None end)
  end.

(** ** Creating the objects the callers pass in *)

Definition mk_Patient (name email password : string)
    (insurance_details : gmap string string) (user_id : option string)
    (uuid4 : string) : M loc :=
  new_user (APatient
    (Patient.init name email password insurance_details user_id uuid4)).

Definition mk_Doctor (name email password specialization : string)
    (user_id : option string) (uuid4 : string) : M loc :=
  new_user (ADoctor
    (Doctor.init name email password specialization user_id uuid4)).

Definition mk_Administrator (name email password : string)
    (user_id : option string) (uuid4 : string) : M loc :=
  new_user (AnAdministrator (Administrator.init name email password user_id uuid4)).

Definition mk_MedicalRecord (patient_id doctor_id diagnosis treatment notes : string)
    (record_id : option string) (uuid4 : string) (now : datetime) : M loc :=
  new_record (MedicalRecord.init patient_id doctor_id diagnosis treatment notes
                record_id uuid4 now).

Definition mk_Prescription (patient_id doctor_id instructions : string)
    (prescription_id : option string) (uuid4 : string) (now : datetime) : M loc :=
  new_prescription
    (Prescription.init patient_id doctor_id instructions prescription_id uuid4 now).

Definition add_medication (self : loc) (medication : Medication.t) : M unit :=
  p ← deref prescription_objs self;
  modify (set_prescription_objs <[self:=Prescription.add_medication p medication]>).

(** ** [Billing.apply_payment] on the object at [self] *)

Definition apply_payment (self : loc) (amount : float) (now : datetime) : M unit :=
  b ← deref billing_objs self;
  match Billing.apply_payment b amount now with
  | inl e => raise e
  | inr b' => modify (set_billing_objs <[self:=b']>)
  end.

(** ** [HealthcareSystem]: users *)

Definition register_user (user : loc) : M unit :=
  u ← deref user_objs user;
  by_email ← gets users_by_email;
  if decide (is_Some (by_email !! User.email (user_base u))) then
    raise (AuthenticationError "User already exists with this email.")
  else
    modify (set_users <[User.user_id (user_base u):=user]>);;
    modify (set_users_by_email <[User.email (user_base u):=user]>);;
    print [Str (role u); Lit " '"; Str (User.name (user_base u));
           Lit "' registered successfully with ID: ";
           Str (User.user_id (user_base u)); Lit nl].

Definition remove_user (user_id : string) : M unit :=
  o ← gets (λ s, users s !! user_id);
  match o with
  | None => raise (RecordNotFoundError "User not found.")
  | Some l =>
      u ← deref user_objs l;
      by_email ← gets users_by_email;
      if decide (is_Some (by_email !! User.email (user_base u))) then
        modify (set_users_by_email (delete (User.email (user_base u))));;
        modify (set_users (delete user_id));;
        print [Lit "User '"; Str (User.name (user_base u)); Lit "' with ID ";
               Str user_id; Lit " has been removed."; Lit nl]
      else raise (KeyError (User.email (user_base u)))
  end.

(** ** [HealthcareSystem]: appointments *)

(** The body of the availability loop of [schedule_appointment] and
    [reschedule_appointment]. *)
Definition conflict_check (t : datetime) (msg : string) (appt : loc) : M unit :=
  a ← deref appointment_objs appt;
  if decide (Appointment.date_time a = t ∧ Appointment.status a = "Scheduled")
  then raise (SchedulingConflictError msg)
  else mret tt.

Definition schedule_appointment (patient_id doctor_id : string)
    (appointment_time : datetime) (appointment_id : option string)
    (uuid4 : string) : M loc :=
  patient ← get_patient patient_id;
  doctor ← get_doctor doctor_id;
  match patient, doctor with
  | Some (pl, _), Some (dl, d) =>
      for_each (Doctor.appointments d)
        (conflict_check appointment_time "Doctor is not available at this time.");;
      appointment ← new_appointment
        (Appointment.init patient_id doctor_id appointment_time appointment_id uuid4);
      a ← deref appointment_objs appointment;
      modify (set_appointments <[Appointment.appointment_id a:=appointment]>);;
      update_doctor dl (λ d, Doctor.set_appointments d
                               (Doctor.appointments d ++ [appointment]));;
      update_patient pl (λ p, Patient.set_appointments p
                                (Patient.appointments p ++ [appointment]));;
      update_doctor dl (λ d, Doctor.set_patients d
                               ({[patient_id]} ∪ Doctor.patients d));;
      print [Lit "Appointment scheduled with ID: ";
             Str (Appointment.appointment_id a); Lit " on ";
             Time appointment_time; Lit nl];;
      mret appointment
  | _, _ => raise (RecordNotFoundError "Invalid patient or doctor ID.")
  end.

Definition cancel_appointment (appointment_id : string) : M unit :=
  o ← gets (λ s, appointments s !! appointment_id);
  match o with
  | None => raise (RecordNotFoundError "Appointment not found.")
  | Some appointment =>
      update_appointment appointment (λ a, Appointment.update_status a "Cancelled");;
      a ← deref appointment_objs appointment;
      print [Lit "Appointment '"; Str (Appointment.appointment_id a);
             Lit "' has been cancelled."; Lit nl]
  end.

Definition reschedule_appointment (appointment_id : string) (new_time : datetime)
    : M unit :=
  o ← gets (λ s, appointments s !! appointment_id);
  match o with
  | None => raise (RecordNotFoundError "Appointment not found.")
  | Some appointment =>
      a ← deref appointment_objs appointment;
      doctor ← get_doctor (Appointment.doctor_id a);
      match doctor with
      | None => raise (RecordNotFoundError "Doctor not found.")
      | Some (_, d) =>
          for_each (Doctor.appointments d)
            (conflict_check new_time "Doctor is not available at the new time.");;
          update_appointment appointment
            (λ a, Appointment.set_date_time a new_time);;
          print [Lit "Appointment '"; Str (Appointment.appointment_id a);
                 Lit "' has been rescheduled to "; Time new_time; Lit "."; Lit nl]
      end
  end.

(** ** [Doctor.confirm_appointment]

    The loop returns from the method at the first appointment of the doctor
    with the given id; the result says whether it did. *)
Fixpoint confirm_loop (appts : list loc) (appointment_id : string) : M bool :=
  match appts with
  | [] => mret false
  | appt :: rest =>
      a ← deref appointment_objs appt;
      if decide (Appointment.appointment_id a = appointment_id) then
        (if decide (Appointment.status a = "Scheduled") then
           update_appointment appt (λ a, Appointment.update_status a "Confirmed");;
           print [Lit "Appointment '"; Str appointment_id;
                  Lit "' has been confirmed."; Lit nl]
         else
           print [Lit "Appointment '"; Str appointment_id;
                  Lit "' cannot be confirmed as it is ";
                  Str (Appointment.status a); Lit "."; Lit nl]);;
        mret true
      else confirm_loop rest appointment_id
  end.

Definition confirm_appointment (self : loc) (appointment_id : string) : M unit :=
  u ← deref user_objs self;
  match u with
  | ADoctor d =>
      returned ← confirm_loop (Doctor.appointments d) appointment_id;
      if returned : bool then mret tt
      else print [Lit "Appointment '"; Str appointment_id; Lit "' not found.";
                  Lit nl]
  | _ => stuck
  end.

(** ** [HealthcareSystem]: medical records and prescriptions *)

Definition add_medical_record (patient_id : string) (record : loc) : M unit :=
  patient ← get_patient patient_id;
  match patient with
  | None => raise (RecordNotFoundError "Patient not found.")
  | Some (pl, p) =>
      r ← deref record_objs record;
      modify (set_medical_records <[MedicalRecord.record_id r:=record]>);;
      update_patient pl (λ p, Patient.set_medical_history p
                                (Patient.medical_history p ++ [record]));;
      print [Lit "Medical record '"; Str (MedicalRecord.record_id r);
             Lit "' added for patient '"; Str (User.name (Patient.base p));
             Lit "'."; Lit nl]
  end.

Definition get_medical_records (patient_id : string) : M (list loc) :=
  patient ← get_patient patient_id;
  match patient with
  | None => raise (RecordNotFoundError "Patient not found.")
  | Some (_, p) => mret (Patient.medical_history p)
  end.

Definition add_prescription (patient_id : string) (prescription : loc) : M unit :=
  patient ← get_patient patient_id;
  match patient with
  | None => raise (RecordNotFoundError "Patient not found.")
  | Some (_, p) =>
      pr ← deref prescription_objs prescription;
      modify (set_prescriptions <[Prescription.prescription_id pr:=prescription]>);;
      match last (Patient.medical_history p) with
      | Some latest_record =>
          update_record latest_record
            (λ r, MedicalRecord.set_prescriptions r
                    (MedicalRecord.prescriptions r ++ [prescription]))
      | None => mret tt
      end;;
      print [Lit "Prescription '"; Str (Prescription.prescription_id pr);
             Lit "' added for patient '"; Str (User.name (Patient.base p));
             Lit "'."; Lit nl]
  end.

(** [for record in history: prescriptions.extend(record.prescriptions)] *)
Fixpoint extend_all (history : list loc) (prescriptions : list loc)
    : M (list loc) :=
  match history with
  | [] => mret prescriptions
  | record :: rest =>
      r ← deref record_objs record;
      extend_all rest (prescriptions ++ MedicalRecord.prescriptions r)
  end.

Definition get_prescriptions (patient_id : string) : M (list loc) :=
  patient ← get_patient patient_id;
  match patient with
  | None => raise (RecordNotFoundError "Patient not found.")
  | Some (_, p) => extend_all (Patient.medical_history p) []
  end.

(** [Patient.view_prescriptions] *)
Definition view_prescriptions (self : loc) : M (list loc) :=
  u ← deref user_objs self;
  match u with
  | APatient p => extend_all (Patient.medical_history p) []
  | _ => stuck
  end.

(** ** [HealthcareSystem]: billing *)

Definition create_billing (patient_id : string) (amount_due : float)
    (description : string) (billing_id : option string) (uuid4 : string)
    (now : datetime) : M loc :=
  patient ← get_patient patient_id;
  match patient with
  | None => raise (RecordNotFoundError "Patient not found.")
  | Some (pl, p) =>
      match Billing.init patient_id amount_due description billing_id uuid4 now
      with
      | inl e => raise e
      | inr fields =>
          billing ← new_billing fields;
          b ← deref billing_objs billing;
          modify (set_billings <[Billing.billing_id b:=billing]>);;
          update_patient pl (λ p, Patient.set_billing_info p
                                    (Patient.billing_info p ++ [billing]));;
          print [Lit "Billing '"; Str (Billing.billing_id b);
                 Lit "' created for patient '"; Str (User.name (Patient.base p));
                 Lit "'. Amount Due: "; Float amount_due; Lit nl];;
          mret billing
      end
  end.

Definition process_payment (billing_id : string) (amount : float)
    (now : datetime) : M unit :=
  o ← gets (λ s, billings s !! billing_id);
  match o with
  | None => raise (BillingError "Billing record not found.")
  | Some billing =>
      apply_payment billing amount now;;
      b ← deref billing_objs billing;
      print [Lit "Payment of "; Float amount; Lit " applied to billing '";
             Str (Billing.billing_id b); Lit "'. New Status: ";
             Str (Billing.status b); Lit nl]
  end.

Definition get_billing_info (patient_id : string) : M (list loc) :=
  patient ← get_patient patient_id;
  match patient with
  | None => raise (RecordNotFoundError "Patient not found.")
  | Some (_, p) => mret (Patient.billing_info p)
  end.

(** ** [HealthcareSystem.access_medical_records]

    [requester.role == "Doctor"] holds of the [Doctor] objects and of no
    other, so the third test is a match on the class. *)

Definition access_medical_records (requester : loc) (patient_id : string)
    : M (list loc) :=
  u ← deref user_objs requester;
  if decide (role u ∉ ["Doctor"; "Patient"; "Administrator"]) then
    raise (AuthorizationError "Unauthorized access.")
  else if decide (role u = "Patient" ∧ User.user_id (user_base u) ≠ patient_id) then
    raise (AuthorizationError "Patients can only access their own medical records.")
  else
    match u with
    | ADoctor doctor =>
        _ ← gets (λ s, users s !! patient_id);
        if decide (patient_id ∉ Doctor.patients doctor) then
          raise (AuthorizationError "Doctor not assigned to this patient.")
        else mret tt
    | _ => mret tt
    end;;
    get_medical_records patient_id.

(** ** The operations as data, and the states they reach *)

Inductive op :=
| MkPatient (name email password : string) (insurance : gmap string string)
    (user_id : option string) (uuid4 : string)
| MkDoctor (name email password specialization : string)
    (user_id : option string) (uuid4 : string)
| MkAdministrator (name email password : string) (user_id : option string)
    (uuid4 : string)
| MkMedicalRecord (patient_id doctor_id diagnosis treatment notes : string)
    (record_id : option string) (uuid4 : string) (now : datetime)
| MkPrescription (patient_id doctor_id instructions : string)
    (prescription_id : option string) (uuid4 : string) (now : datetime)
| AddMedication (self : loc) (medication : Medication.t)
| RegisterUser (user : loc)
| RemoveUser (user_id : string)
| ScheduleAppointment (patient_id doctor_id : string) (t : datetime)
    (appointment_id : option string) (uuid4 : string)
| ConfirmAppointment (self : loc) (appointment_id : string)
| CancelAppointment (appointment_id : string)
| RescheduleAppointment (appointment_id : string) (new_time : datetime)
| AddMedicalRecord (patient_id : string) (record : loc)
| AddPrescription (patient_id : string) (prescription : loc)
| CreateBilling (patient_id : string) (amount_due : float) (description : string)
    (billing_id : option string) (uuid4 : string) (now : datetime)
| ProcessPayment (billing_id : string) (amount : float) (now : datetime).

(** What a call leaves behind: the store, and the exception if one escaped. *)
Definition discard {A} (m : M A) : state → option (state * option exn) := λ s,
  match m s with
  | Some (s', Return _) => Some (s', None)
  | Some (s', Raise e) => Some (s', Some e)
  | None => None
  end.

Definition exec (o : op) : state → option (state * option exn) :=
  match o with
  | MkPatient n e p i u g => discard (mk_Patient n e p i u g)
  | MkDoctor n e p sp u g => discard (mk_Doctor n e p sp u g)
  | MkAdministrator n e p u g => discard (mk_Administrator n e p u g)
  | MkMedicalRecord p d dg tr nt r g now =>
      discard (mk_MedicalRecord p d dg tr nt r g now)
  | MkPrescription p d ins pr g now => discard (mk_Prescription p d ins pr g now)
  | AddMedication self m => discard (add_medication self m)
  | RegisterUser u => discard (register_user u)
  | RemoveUser u => discard (remove_user u)
  | ScheduleAppointment p d t a g => discard (schedule_appointment p d t a g)
  | ConfirmAppointment self a => discard (confirm_appointment self a)
  | CancelAppointment a => discard (cancel_appointment a)
  | RescheduleAppointment a t => discard (reschedule_appointment a t)
  | AddMedicalRecord p r => discard (add_medical_record p r)
  | AddPrescription p pr => discard (add_prescription p pr)
  | CreateBilling p amt d b g now => discard (create_billing p amt d b g now)
  | ProcessPayment b amt now => discard (process_payment b amt now)
  end.

(** Running a script of operations; exceptions are caught by the caller, as the
    menus do, and the script goes on. *)
Fixpoint run (script : list op) (s : state) : option state :=
  match script with
  | [] => Some s
  | o :: rest =>
      match exec o s with
      | Some (s', _) => run rest s'
      | None => None
      end
  end.

Inductive reachable : state → Prop :=
| reachable_init : reachable init
| reachable_step o s s' e :
    reachable s → exec o s = Some (s', e) → reachable s'.

(** ** The vocabulary of the properties *)

(** An appointment is active while it is "Scheduled" or "Confirmed". *)
Definition active (a : Appointment.t) : Prop :=
  Appointment.status a = "Scheduled" ∨ Appointment.status a = "Confirmed".

(** No two appointment objects of one doctor at one timestamp are both
    active. *)
Definition no_double_booking (s : state) : Prop :=
  ∀ l1 l2 a1 a2,
    appointment_objs s !! l1 = Some a1 →
    appointment_objs s !! l2 = Some a2 →
    l1 ≠ l2 →
    Appointment.doctor_id a1 = Appointment.doctor_id a2 →
    Appointment.date_time a1 = Appointment.date_time a2 →
    ¬ (active a1 ∧ active a2).

(** An appointment that blocks time [t]: same timestamp, status "Scheduled". *)
Definition blocks (t : datetime) (a : Appointment.t) : Prop :=
  Appointment.date_time a = t ∧ Appointment.status a = "Scheduled".

(** The object at [l] exists and does not block [t]. *)
Definition free_at (s : state) (t : datetime) (l : loc) : Prop :=
  ∃ a, appointment_objs s !! l = Some a ∧ ¬ blocks t a.

(** No appointment in the list carries the id. *)
Definition none_with_id (s : state) (appts : list loc) (id : string) : Prop :=
  Forall (λ l, ∃ a, appointment_objs s !! l = Some a
                    ∧ Appointment.appointment_id a ≠ id) appts.

(** [l], holding [a], is the first appointment of the list that carries the id. *)
Definition first_with_id (s : state) (appts : list loc) (id : string)
    (l : loc) (a : Appointment.t) : Prop :=
  ∃ pre post, appts = pre ++ l :: post
    ∧ none_with_id s pre id
    ∧ appointment_objs s !! l = Some a
    ∧ Appointment.appointment_id a = id.

(** The three lines [confirm_appointment] can print. *)
Definition confirmed_line (id : string) : line :=
  [Lit "Appointment '"; Str id; Lit "' has been confirmed."; Lit nl].

Definition cannot_confirm_line (id status : string) : line :=
  [Lit "Appointment '"; Str id; Lit "' cannot be confirmed as it is ";
   Str status; Lit "."; Lit nl].


(** The facts about the store left by a call that returned appointment [a]. *)
Definition scheduled (patient_id doctor_id : string) (t : datetime)
    (aid : option string) (uuid4 : string) (s s' : state) (a : loc) : Prop :=
  ∃ pl p dl d,
    users s !! patient_id = Some pl ∧ user_objs s !! pl = Some (APatient p)
    ∧ users s !! doctor_id = Some dl ∧ user_objs s !! dl = Some (ADoctor d)
    ∧ Forall (free_at s t) (Doctor.appointments d)
    ∧ a = fresh (dom (appointment_objs s))
    ∧ users s' = users s
    ∧ appointments s'
      = <[id_or_uuid aid uuid4:=a]> (appointments s)
    ∧ appointment_objs s'
      = <[a:=Appointment.init patient_id doctor_id t aid uuid4]>
          (appointment_objs s)
    ∧ user_objs s'
      = <[dl:=ADoctor (Doctor.mk (Doctor.base d) (Doctor.specialization d)
                         (Doctor.appointments d ++ [a])
                         ({[patient_id]} ∪ Doctor.patients d)
                         (Doctor.schedule d))]>
          (<[pl:=APatient (Patient.set_appointments p
                             (Patient.appointments p ++ [a]))]>
             (<[dl:=ADoctor (Doctor.set_appointments d
                               (Doctor.appointments d ++ [a]))]>
                (user_objs s)))
    ∧ record_objs s' = record_objs s
    ∧ billing_objs s' = billing_objs s.

(** One operation changes the status of an appointment by at most one of the
    arrows "Scheduled" to "Confirmed" and anything to "Cancelled". *)
Definition status_step (old new : string) : Prop :=
  new = old ∨ (old = "Scheduled" ∧ new = "Confirmed") ∨ new = "Cancelled".

(** From one store of appointment objects to the next: every object stays,
    with its doctor and its status moved by one step, and new objects are
    "Scheduled". *)
Definition appointments_evolve (m m' : gmap loc Appointment.t) : Prop :=
  (∀ l a, m !! l = Some a →
     ∃ a', m' !! l = Some a'
           ∧ status_step (Appointment.status a) (Appointment.status a')
           ∧ Appointment.doctor_id a' = Appointment.doctor_id a)
  ∧ (∀ l a', m' !! l = Some a' → m !! l = None →
       Appointment.status a' = "Scheduled").

(** The appointment lists of the doctor objects in [us] name objects of
    [objs]. *)
Definition closed_in (objs : gmap loc Appointment.t) (us : gmap loc user)
    : Prop :=
  ∀ l d, us !! l = Some (ADoctor d) →
    Forall (λ a, is_Some (objs !! a)) (Doctor.appointments d).

(** Every appointment list of a doctor object names appointment objects. *)
Definition doctors_closed (s : state) : Prop :=
  closed_in (appointment_objs s) (user_objs s).

(** The user index, the appointment index and the user objects are as they
    were. *)
Definition registry_kept (s s' : state) : Prop :=
  users s' = users s ∧ appointments s' = appointments s
  ∧ user_objs s' = user_objs s.

(** Every doctor object stays a doctor object and keeps the appointments it
    had in its list. *)
Definition doctors_grow (us us' : gmap loc user) : Prop :=
  ∀ dl d, us !! dl = Some (ADoctor d) →
    ∃ d', us' !! dl = Some (ADoctor d')
          ∧ ∀ l, l ∈ Doctor.appointments d → l ∈ Doctor.appointments d'.

(** Every indexed appointment is an object, and when its [doctor_id] resolves,
    it resolves to a doctor object that has the appointment in its list. *)
Definition listed (s : state) : Prop :=
  ∀ id l, appointments s !! id = Some l →
    ∃ a, appointment_objs s !! l = Some a
         ∧ ∀ dl, users s !! Appointment.doctor_id a = Some dl →
             ∃ d, user_objs s !! dl = Some (ADoctor d)
                  ∧ l ∈ Doctor.appointments d.

(** ** A small registry to run the operations on *)

(** 2025-01-01 10:00, in microseconds. *)
Definition t_10h : datetime := 1735725600000000.

(** One patient and one doctor, created and registered; the patient is the
    object at location 0 and the doctor the object at location 1. *)
Definition demo_setup : list op :=
  [ MkPatient "P1" "p1@example.org" "secret" ∅ (Some "p1") "uuid-0";
    MkDoctor "D1" "d1@example.org" "secret" "Cardiology" (Some "d1") "uuid-1";
    RegisterUser 0;
    RegisterUser 1 ].

Definition demo : state := default init (run demo_setup init).

(** The patient has booked the doctor at 10:00: appointment object 0. *)
Definition demo_booked : state :=
  default init (run [ScheduleAppointment "p1" "d1" t_10h None "uuid-a1"] demo).

(** The appointment has been cancelled instead. *)
Definition demo_cancelled : state :=
  default init (run [CancelAppointment "uuid-a1"] demo_booked).

(** The script that books the doctor twice at 10:00. *)
Definition double_booking : list op :=
  demo_setup ++
  [ ScheduleAppointment "p1" "d1" t_10h None "uuid-a1";
    ConfirmAppointment 1 "uuid-a1";
    ScheduleAppointment "p1" "d1" t_10h None "uuid-a2" ].

(** A billing of 100.0 for the patient, created at time 0: billing object 0. *)
Definition demo_billed : state :=
  default init (run [CreateBilling "p1" 100 "visit" (Some "b1") "uuid-b" 0] demo).

(** A prescription object for the patient, not yet added: prescription
    object 0. *)
Definition demo_prescribed : state :=
  default init
    (run [MkPrescription "p1" "d1" "twice a day" (Some "rx1") "uuid-rx" 0] demo).

(** The patient has a medical record (record object 0) before booking. *)
Definition demo_treated : state :=
  default init
    (run [ MkMedicalRecord "p1" "d1" "flu" "rest" "" (Some "r1") "uuid-r" 0;
           AddMedicalRecord "p1" 0 ] demo).

Definition demo_treated_booked : state :=
  default init
    (run [ScheduleAppointment "p1" "d1" t_10h None "uuid-a1"] demo_treated).

(** A billing of 1e16 for the patient, created at time 0: billing object 0. *)
Definition demo_large_bill : state :=
  default init
    (run [CreateBilling "p1" 1e16 "surgery" (Some "b1") "uuid-b" 0] demo).

(** The value of a float that is a number, as a mantissa and an exponent:
    the float is mantissa times two to the exponent. *)
Definition dyadic (x : float) : option (Z * Z) :=
  match Prim2SF x with
  | S754_zero _ => Some (0, 0)%Z
  | S754_finite sign m e => Some (if sign then Z.neg m else Z.pos m, e)
  | _ => None
  end.

(** [new] is less than [old] by exactly [amount]: the three floats are
    numbers, and the value of [new] is the value of [old] minus the value of
    [amount].  The values are compared at the least of the exponents. *)
Definition exactly_less_by (old amount new : float) : Prop :=
  match dyadic old, dyadic amount, dyadic new with
  | Some (mo, eo), Some (ma, ea), Some (mn, en) =>
      let e := Z.min eo (Z.min ea en) in
      (mn * 2 ^ (en - e) = mo * 2 ^ (eo - e) - ma * 2 ^ (ea - e))%Z
  | _, _, _ => False
  end.

(** After the booking of [demo_booked], a second doctor object that carries
    the id of the first is registered under an address of its own: user
    object 2. *)
Definition id_reused : list op :=
  demo_setup ++
  [ ScheduleAppointment "p1" "d1" t_10h None "uuid-a1";
    MkDoctor "D2" "d2@example.org" "other" "Surgery" (Some "d1") "uuid-2";
    RegisterUser 2 ].

Definition demo_id_reused : state := default init (run id_reused init).

(** ** More of the program *)

#[export] Instance digest_eq_dec : EqDecision digest.
Proof. solve_decision. Defined.

(** [User.verify_password]: the stored digest against the digest of the
    password offered. *)
Definition verify_password (u : user) (password : string) : bool :=
  bool_decide (User.password (user_base u) = hash_password password).

Definition authenticate_user (email password : string) : M loc :=
  o ← gets (λ s, users_by_email s !! email);
  match o with
  | None => raise (AuthenticationError "Invalid email or password.")
  | Some user =>
      u ← deref user_objs user;
      if verify_password u password then
        print [Lit "User '"; Str (User.name (user_base u));
               Lit "' logged in successfully as "; Str (role u); Lit ".";
               Lit nl];;
        mret user
      else raise (AuthenticationError "Invalid email or password.")
  end.

(** [[appt for appt in appts if appt.status == "Scheduled"]] *)
Fixpoint scheduled_of (appts : list loc) : M (list loc) :=
  match appts with
  | [] => mret []
  | appt :: rest =>
      a ← deref appointment_objs appt;
      kept ← scheduled_of rest;
      mret (if decide (Appointment.status a = "Scheduled")
            then appt :: kept else kept)
  end.

(** [Doctor.view_appointment_requests] *)
Definition view_appointment_requests (self : loc) : M (list loc) :=
  u ← deref user_objs self;
  match u with
  | ADoctor d => scheduled_of (Doctor.appointments d)
  | _ => stuck
  end.

(** ** The vocabulary of the further properties *)

(** A billing as the operations leave it: one of the three statuses, and
    nothing due once it is "Paid". *)
Definition billing_ok (b : Billing.t) : Prop :=
  (Billing.status b = "Unpaid" ∨ Billing.status b = "Paid"
   ∨ Billing.status b = "Overdue")
  ∧ (Billing.status b = "Paid" → Billing.amount_due b = 0%float).

(** Nothing but the appointment objects and [stdout] differs between the two
    stores. *)
Definition only_appointments_written (s s' : state) : Prop :=
  s' = set_stdout (λ _, stdout s')
         (set_appointment_objs (λ _, appointment_objs s') s).

(** From one store of billing objects to the next: every billing stays, as it
    was or as one [apply_payment] left it, and new billings are "Unpaid". *)
Definition billings_evolve (m m' : gmap loc Billing.t) : Prop :=
  (∀ l b, m !! l = Some b →
     ∃ b', m' !! l = Some b'
           ∧ (b' = b ∨ ∃ amount now, Billing.apply_payment b amount now = inr b'))
  ∧ (∀ l b', m' !! l = Some b' → m !! l = None →
       Billing.status b' = "Unpaid").

(** ** More stores to run the operations on *)

(** The billing of 100.0 has been paid in full at time 1. *)
Definition demo_paid : state :=
  default init (run [ProcessPayment "b1" 100 1] demo_billed).

(** What [register_user] and [remove_user] print. *)
Definition registered_line (u : user) : line :=
  [Str (role u); Lit " '"; Str (User.name (user_base u));
   Lit "' registered successfully with ID: ";
   Str (User.user_id (user_base u)); Lit nl].

Definition removed_line (u : user) (user_id : string) : line :=
  [Lit "User '"; Str (User.name (user_base u)); Lit "' with ID ";
   Str user_id; Lit " has been removed."; Lit nl].

(** A second doctor object with the e-mail address of the registered doctor,
    not registered: user object 2. *)
Definition demo_rival : state :=
  default init
    (run [MkDoctor "D2" "d1@example.org" "other" "Surgery" (Some "d2") "uuid-2"]
       demo).

(** A third user, created but not registered yet: user object 2. *)
Definition demo_newcomer : state :=
  default init
    (run [MkPatient "P2" "p2@example.org" "secret2" ∅ None "uuid-p2"] demo).


(** A user object as a later store may hold it: the same identity, name,
    e-mail address and digest, and lists and sets that have only grown. *)
Definition grows (u u' : user) : Prop :=
  user_base u' = user_base u
  ∧ match u, u' with
    | APatient p, APatient p' =>
        Patient.medical_history p `prefix_of` Patient.medical_history p'
        ∧ Patient.appointments p `prefix_of` Patient.appointments p'
        ∧ Patient.billing_info p `prefix_of` Patient.billing_info p'
        ∧ Patient.insurance_details p' = Patient.insurance_details p
    | ADoctor d, ADoctor d' =>
        Doctor.specialization d' = Doctor.specialization d
        ∧ Doctor.appointments d `prefix_of` Doctor.appointments d'
        ∧ Doctor.patients d ⊆ Doctor.patients d'
        ∧ Doctor.schedule d' = Doctor.schedule d
    | AnAdministrator _, AnAdministrator _ => True
    | _, _ => False
    end.

Definition users_evolve (us us' : gmap loc user) : Prop :=
  ∀ l u, us !! l = Some u → ∃ u', us' !! l = Some u' ∧ grows u u'.

(** The two user indexes agree with the objects they point to. *)
Definition index_consistent (s : state) : Prop :=
  (∀ id l, users s !! id = Some l →
     ∃ u, user_objs s !! l = Some u ∧ User.user_id (user_base u) = id)
  ∧ (∀ email l, users_by_email s !! email = Some l →
       ∃ u, user_objs s !! l = Some u ∧ User.email (user_base u) = email).

(** The store a successful [schedule_appointment] leaves: a new appointment
    object under the next free location, indexed under its id, appended to
    the lists of the doctor and of the patient, the patient's id added to
    the doctor's set, and one line printed. *)
Definition scheduled_line (appointment_id : string) (t : datetime) : line :=
  [Lit "Appointment scheduled with ID: "; Str appointment_id; Lit " on ";
   Time t; Lit nl].

Definition booked (patient_id doctor_id : string) (t : datetime)
    (aid : option string) (uuid4 : string) (pl : loc) (p : Patient.t)
    (dl : loc) (d : Doctor.t) (s : state) : state :=
  let a := fresh (dom (appointment_objs s)) in
  set_stdout (λ out, out ++ [scheduled_line (id_or_uuid aid uuid4) t])
    (set_user_objs
       (λ us,
          <[dl:=ADoctor (Doctor.mk (Doctor.base d) (Doctor.specialization d)
                           (Doctor.appointments d ++ [a])
                           ({[patient_id]} ∪ Doctor.patients d)
                           (Doctor.schedule d))]>
            (<[pl:=APatient (Patient.set_appointments p
                               (Patient.appointments p ++ [a]))]>
               (<[dl:=ADoctor (Doctor.set_appointments d
                                 (Doctor.appointments d ++ [a]))]> us)))
       (set_appointments <[id_or_uuid aid uuid4:=a]>
          (set_appointment_objs
             <[a:=Appointment.init patient_id doctor_id t aid uuid4]> s))).

(** After the booking: the appointment is cancelled, the patient gets a
    second record (record object 1) and the doctor is removed. *)
Definition afterwards : list op :=
  [ CancelAppointment "uuid-a1";
    MkMedicalRecord "p1" "d1" "cold" "tea" "" (Some "r2") "uuid-r2" 1;
    AddMedicalRecord "p1" 1;
    RemoveUser "d1" ].

Definition demo_later : state :=
  default init (run afterwards demo_treated_booked).

(** The id resolves to a patient object, to a doctor object. *)
Definition is_patient (s : state) (id : string) : Prop :=
  ∃ l p, users s !! id = Some l ∧ user_objs s !! l = Some (APatient p).

Definition is_doctor (s : state) (id : string) : Prop :=
  ∃ l d, users s !! id = Some l ∧ user_objs s !! l = Some (ADoctor d).

(** The doctor under the id has an appointment in the list that blocks [t]. *)
Definition busy_at (s : state) (doctor_id : string) (t : datetime) : Prop :=
  ∃ dl d l a,
    users s !! doctor_id = Some dl ∧ user_objs s !! dl = Some (ADoctor d)
    ∧ l ∈ Doctor.appointments d ∧ appointment_objs s !! l = Some a
    ∧ blocks t a.

(** What [cancel_appointment] and [reschedule_appointment] print. *)
Definition cancelled_line (appointment_id : string) : line :=
  [Lit "Appointment '"; Str appointment_id; Lit "' has been cancelled.";
   Lit nl].

Definition rescheduled_line (appointment_id : string) (t : datetime) : line :=
  [Lit "Appointment '"; Str appointment_id; Lit "' has been rescheduled to ";
   Time t; Lit "."; Lit nl].

(** A record of another patient, not yet added: record object 0. *)
Definition demo_misfiled : state :=
  default init
    (run [MkMedicalRecord "someone-else" "d1" "flu" "rest" "" (Some "r1")
            "uuid-r" 0] demo).

(** The patient has a medical record, and a prescription object not yet
    added: prescription object 0. *)
Definition demo_treated_prescribed : state :=
  default init
    (run [MkPrescription "p1" "d1" "twice a day" (Some "rx1") "uuid-rx" 0]
       demo_treated).

(** An administrator joins the registry of [demo_treated]: user object 2. *)
Definition demo_administered : state :=
  default init
    (run [ MkAdministrator "A1" "a1@example.org" "root" (Some "a1") "uuid-3";
           RegisterUser 2 ] demo_treated).

(** What [authenticate_user] prints. *)
Definition logged_in_line (u : user) : line :=
  [Lit "User '"; Str (User.name (user_base u));
   Lit "' logged in successfully as "; Str (role u); Lit "."; Lit nl].

(** ** [update_profile]

    [self.update_profile(name=name, email=email)]: every user object has the
    two attributes, so both are assigned.  This is the call of the
    administrator menu, and what the calls of the other two menus do to the
    fields the classes share; other keywords are not modelled. *)
Definition set_base (u : user) (b : User.t) : user :=
  match u with
  | APatient p =>
      APatient (Patient.mk b (Patient.medical_history p)
                  (Patient.appointments p) (Patient.billing_info p)
                  (Patient.insurance_details p))
  | ADoctor d =>
      ADoctor (Doctor.mk b (Doctor.specialization d) (Doctor.appointments d)
                 (Doctor.patients d) (Doctor.schedule d))
  | AnAdministrator _ => AnAdministrator (Administrator.mk b)
  end.

Definition update_profile (self : loc) (name email : string) : M unit :=
  u ← deref user_objs self;
  modify (set_user_objs
            <[self:=set_base u (User.mk (User.user_id (user_base u)) name email
                                  (User.password (user_base u)))]>).

(** The second doctor of [demo_rival] gets an address of its own and is
    registered. *)
Definition demo_two_doctors : state :=
  default init
    (run [ MkDoctor "D2" "d2@example.org" "other" "Surgery" (Some "d2") "uuid-2";
           RegisterUser 2 ] demo).

(** A second patient object with the id of the first and an address of its
    own, not registered yet: user object 2. *)
Definition demo_namesake : state :=
  default init
    (run [MkPatient "P2" "p2@example.org" "secret2" ∅ (Some "p1") "uuid-p2"]
       demo).

(** * Properties *)

(** ** Comparisons of binary64 floats *)

Lemma SFcompare_Lt_Gt x y :
  SFcompare x y = Some Lt → SFcompare y x = Some Gt.
Proof.
  destruct x as [sx|sx| |sx mx ex], y as [sy|sy| |sy my ey]; simpl;
    try destruct sx; try destruct sy; simpl; try congruence.
  all: rewrite (Z.compare_antisym ey ex); destruct (ey ?= ex)%Z; simpl;
    try congruence.
  all: change (PosDef.Pos.compare_cont Eq mx my) with (Pos.compare mx my);
    change (PosDef.Pos.compare_cont Eq my mx) with (Pos.compare my mx);
    rewrite (Pos.compare_antisym mx my);
    destruct (mx ?= my)%positive; simpl; congruence.
Qed.

(** [x < y] excludes [y <= x], also in the presence of NaN. *)
Lemma ltb_leb_false (x y : float) :
  PrimFloat.ltb x y = true → PrimFloat.leb y x = false.
Proof.
  rewrite ltb_spec, leb_spec. unfold SFltb, SFleb.
  destruct (SFcompare (Prim2SF x) (Prim2SF y)) as [[]|] eqn:E; try discriminate.
  intros _. by rewrite (SFcompare_Lt_Gt _ _ E).
Qed.

(** ** Unfolding calls *)

Lemma bind_Some {A B} (m : M A) (f : A → M B) s s1 a :
  m s = Some (s1, Return a) → (m ≫= f) s = f a s1.
Proof. intros H. unfold mbind, M_bind. by rewrite H. Qed.

Lemma bind_Raise {A B} (m : M A) (f : A → M B) s s1 e :
  m s = Some (s1, Raise e) → (m ≫= f) s = Some (s1, Raise e).
Proof. intros H. unfold mbind, M_bind. by rewrite H. Qed.

Lemma deref_Some {A} (objs : state → gmap loc A) l a s :
  objs s !! l = Some a → deref objs l s = Some (s, Return a).
Proof. intros H. unfold deref. by rewrite H. Qed.

Lemma get_patient_eq id s :
  get_patient id s =
  match users s !! id with
  | None => Some (s, Return None)
  | Some l =>
      match user_objs s !! l with
      | Some (APatient p) => Some (s, Return (Some (l, p)))
      | Some _ => Some (s, Return None)
      | None => None
      end
  end.
Proof.
  unfold get_patient, mbind, M_bind, gets, deref, mret, M_ret.
  destruct (users s !! id) as [l|]; [|done].
  by destruct (user_objs s !! l) as [[]|].
Qed.

Lemma get_doctor_eq id s :
  get_doctor id s =
  match users s !! id with
  | None => Some (s, Return None)
  | Some l =>
      match user_objs s !! l with
      | Some (ADoctor d) => Some (s, Return (Some (l, d)))
      | Some _ => Some (s, Return None)
      | None => None
      end
  end.
Proof.
  unfold get_doctor, mbind, M_bind, gets, deref, mret, M_ret.
  destruct (users s !! id) as [l|]; [|done].
  by destruct (user_objs s !! l) as [[]|].
Qed.

Lemma bind_eq {A B} (m : M A) (f : A → M B) s :
  (m ≫= f) s =
  match m s with
  | Some (s', Return a) => f a s'
  | Some (s', Raise e) => Some (s', Raise e)
  | None => None
  end.
Proof. reflexivity. Qed.

Lemma for_each_cons {A} (x : A) xs body s :
  for_each (x :: xs) body s =
  match body x s with
  | Some (s', Return _) => for_each xs body s'
  | Some (s', Raise e) => Some (s', Raise e)
  | None => None
  end.
Proof. reflexivity. Qed.

Ltac unfold_calls :=
  unfold update_doctor, update_patient, update_appointment, update_record,
    new_user, new_appointment, new_record, new_prescription, new_billing,
    print, modify, gets, deref, raise, stuck, mret, M_ret, mbind, M_bind in *.

Create HintDb calls discriminated.

#[local] Hint Unfold mk_Patient mk_Doctor mk_Administrator mk_MedicalRecord
  mk_Prescription add_medication register_user remove_user cancel_appointment
  add_medical_record add_prescription create_billing process_payment
  apply_payment get_patient get_doctor discard
  update_doctor update_patient update_appointment update_record
  new_user new_appointment new_record new_prescription new_billing
  print modify gets deref raise stuck mret M_ret mbind M_bind : calls.

(** Case analysis on every test a call makes on the way to its result. *)
Ltac frame_case :=
  repeat match goal with
    | H : context [match ?x with _ => _ end] |- _ =>
        destruct x eqn:?; simplify_eq; simpl in *
    end.

(** ** Billing *)

Lemma Billing_partial_branch b amount now :
  PrimFloat.ltb 0 amount = true →
  PrimFloat.ltb amount (Billing.amount_due b) = true →
  Billing.apply_payment b amount now =
  inr (let b1 := Billing.set_amount_due b
                   (PrimFloat.sub (Billing.amount_due b) amount) in
       if bool_decide (Billing.due_date b < now)%Z
       then Billing.set_status b1 "Overdue" else b1).
Proof.
  intros H0 H1. unfold Billing.apply_payment.
  by rewrite (ltb_leb_false _ _ H0), (ltb_leb_false _ _ H1), H0, H1.
Qed.

(** C3, amended: a payment strictly between zero and the amount due succeeds
    and sets the amount due to the binary64 difference of the amount due and
    the payment, as [-=] computes it: the double nearest to the exact
    difference, which need not be the exact difference.  It keeps every other
    field but the status, sets the status to "Overdue" when the clock is past
    the due date and leaves it as it was otherwise, so an "Unpaid" billing
    stays "Unpaid" and no billing becomes "Paid". *)
Theorem apply_payment_partial s self b amount now :
  billing_objs s !! self = Some b →
  PrimFloat.ltb 0 amount = true →
  PrimFloat.ltb amount (Billing.amount_due b) = true →
  ∃ b',
    apply_payment self amount now s
      = Some (set_billing_objs <[self:=b']> s, Return tt)
    ∧ Billing.amount_due b' = PrimFloat.sub (Billing.amount_due b) amount
    ∧ Billing.due_date b' = Billing.due_date b
    ∧ Billing.billing_id b' = Billing.billing_id b
    ∧ Billing.patient_id b' = Billing.patient_id b
    ∧ Billing.description b' = Billing.description b
    ∧ ((Billing.due_date b < now)%Z → Billing.status b' = "Overdue")
    ∧ (¬ (Billing.due_date b < now)%Z → Billing.status b' = Billing.status b)
    ∧ (Billing.status b = "Unpaid" → ¬ (Billing.due_date b < now)%Z →
       Billing.status b' = "Unpaid")
    ∧ (Billing.status b ≠ "Paid" → Billing.status b' ≠ "Paid")
    ∧ (∀ billing_id, billings s !! billing_id = Some self →
       process_payment billing_id amount now s
       = Some (set_stdout
                 (λ out, out ++ [[Lit "Payment of "; Float amount;
                                  Lit " applied to billing '";
                                  Str (Billing.billing_id b');
                                  Lit "'. New Status: ";
                                  Str (Billing.status b'); Lit nl]])
                 (set_billing_objs <[self:=b']> s), Return tt)).
Proof.
  intros Hb H0 H1.
  pose (b1 := Billing.set_amount_due b
                (PrimFloat.sub (Billing.amount_due b) amount)).
  pose (b' := if bool_decide (Billing.due_date b < now)%Z
              then Billing.set_status b1 "Overdue" else b1).
  assert (apply_payment self amount now s
          = Some (set_billing_objs <[self:=b']> s, Return tt)) as Hrun.
  { unfold apply_payment. rewrite (bind_Some _ _ _ _ _ (deref_Some _ _ _ _ Hb)).
    by rewrite (Billing_partial_branch _ _ now H0 H1). }
  exists b'. split; [exact Hrun|].
  split_and!; try (subst b' b1; by case_bool_decide).
  intros billing_id Hidx. unfold process_payment.
  erewrite bind_Some by (unfold gets; reflexivity). simpl. rewrite Hidx.
  rewrite (bind_Some _ _ _ _ _ Hrun).
  erewrite bind_Some; [reflexivity|].
  apply deref_Some. simpl. apply lookup_insert_eq.
Qed.

(** 40.0 paid on 100.0 before the due date leaves 60.0 "Unpaid"; paid after
    the due date it leaves 60.0 "Overdue". *)
Lemma apply_payment_partial_witness :
  (∃ b', apply_payment 0 40 1 demo_billed
         = Some (set_billing_objs <[0:=b']> demo_billed, Return tt)
         ∧ Billing.amount_due b' = 60%float ∧ Billing.status b' = "Unpaid")
  ∧ (∃ b', apply_payment 0 40 2592000000001 demo_billed
           = Some (set_billing_objs <[0:=b']> demo_billed, Return tt)
           ∧ Billing.amount_due b' = 60%float ∧ Billing.status b' = "Overdue").
Proof.
  split.
  - destruct (apply_payment_partial demo_billed 0
                (Billing.mk "b1" "p1" 100 2592000000000 "Unpaid" "visit") 40 1)
      as (b' & Hrun & Hdue & _ & _ & _ & _ & _ & _ & Hunpaid & _ & _).
    + vm_compute. reflexivity.
    + vm_compute. reflexivity.
    + vm_compute. reflexivity.
    + exists b'. split; [exact Hrun|]. split; [exact Hdue|].
      apply Hunpaid; [reflexivity|]. simpl. lia.
  - destruct (apply_payment_partial demo_billed 0
                (Billing.mk "b1" "p1" 100 2592000000000 "Unpaid" "visit") 40
                2592000000001)
      as (b' & Hrun & Hdue & _ & _ & _ & _ & Hover & _).
    + vm_compute. reflexivity.
    + vm_compute. reflexivity.
    + vm_compute. reflexivity.
    + exists b'. split; [exact Hrun|]. split; [exact Hdue|].
      apply Hover. simpl. lia.
Defined.

(** 40.0 off 100.0 is exactly 60.0. *)
Lemma exactly_less_by_sample : exactly_less_by 100 40 60.
Proof. vm_compute. reflexivity. Qed.

(** C3 as stated fails on the code: 0.5 paid on 1e16 satisfies
    0 < amount < amount due, and the payment is accepted, but the double
    nearest to 1e16 - 0.5 is 1e16 itself, so the billing, and the whole
    store, is left as it was: the amount due has not gone down by the
    payment. *)
Lemma apply_payment_partial_counterexample :
  billing_objs demo_large_bill !! 0
  = Some (Billing.mk "b1" "p1" 1e16 2592000000000 "Unpaid" "surgery")
  ∧ PrimFloat.ltb 0 0.5 = true
  ∧ PrimFloat.ltb 0.5 1e16 = true
  ∧ apply_payment 0 0.5 1 demo_large_bill
    = Some (demo_large_bill, Return tt)
  ∧ PrimFloat.sub 1e16 0.5 = 1e16%float
  ∧ ¬ exactly_less_by 1e16 0.5 1e16.
Proof.
  split_and!; try (vm_compute; reflexivity).
  vm_compute. intros H. discriminate H.
Qed.

(** C4: a payment that is zero or negative is refused with the billing error
    "Payment amount must be positive." before anything is written: the store
    returned with the exception is the store of the call, so the billing keeps
    its amount due, status and due date.  The same holds through
    [process_payment]. *)
Theorem apply_payment_nonpositive s self b amount now :
  billing_objs s !! self = Some b →
  PrimFloat.leb amount 0 = true →
  apply_payment self amount now s
    = Some (s, Raise (BillingError "Payment amount must be positive."))
  ∧ ∀ billing_id, billings s !! billing_id = Some self →
      process_payment billing_id amount now s
      = Some (s, Raise (BillingError "Payment amount must be positive.")).
Proof.
  intros Hb Hle.
  assert (apply_payment self amount now s
    = Some (s, Raise (BillingError "Payment amount must be positive."))) as Ha.
  { unfold apply_payment. rewrite (bind_Some _ _ _ _ _ (deref_Some _ _ _ _ Hb)).
    unfold Billing.apply_payment. by rewrite Hle. }
  split; [done|]. intros id Hid.
  unfold process_payment. erewrite bind_Some by (unfold gets; reflexivity).
  simpl. rewrite Hid. by erewrite bind_Raise by exact Ha.
Qed.

Lemma apply_payment_nonpositive_witness :
  process_payment "b1" 0 1 demo_billed
    = Some (demo_billed, Raise (BillingError "Payment amount must be positive."))
  ∧ process_payment "b1" (-5) 1 demo_billed
    = Some (demo_billed, Raise (BillingError "Payment amount must be positive.")).
Proof.
  split.
  - apply (apply_payment_nonpositive demo_billed 0
             (Billing.mk "b1" "p1" 100 2592000000000 "Unpaid" "visit") 0 1).
    + vm_compute. reflexivity.
    + vm_compute. reflexivity.
    + vm_compute. reflexivity.
  - apply (apply_payment_nonpositive demo_billed 0
             (Billing.mk "b1" "p1" 100 2592000000000 "Unpaid" "visit") (-5) 1).
    + vm_compute. reflexivity.
    + vm_compute. reflexivity.
    + vm_compute. reflexivity.
Defined.

(** C10: paying a billing id that is not in the index raises [BillingError]
    ("Billing record not found.") and leaves the store as it was, whereas a
    missing user, appointment or patient raises [RecordNotFoundError]. *)
Theorem process_payment_missing s billing_id amount now :
  billings s !! billing_id = None →
  process_payment billing_id amount now s
    = Some (s, Raise (BillingError "Billing record not found."))
  ∧ (∀ msg, BillingError "Billing record not found." ≠ RecordNotFoundError msg)
  ∧ (∀ user_id, users s !! user_id = None →
       remove_user user_id s
       = Some (s, Raise (RecordNotFoundError "User not found.")))
  ∧ (∀ appointment_id, appointments s !! appointment_id = None →
       cancel_appointment appointment_id s
       = Some (s, Raise (RecordNotFoundError "Appointment not found."))
       ∧ ∀ t, reschedule_appointment appointment_id t s
         = Some (s, Raise (RecordNotFoundError "Appointment not found.")))
  ∧ (∀ patient_id, users s !! patient_id = None →
       get_medical_records patient_id s
       = Some (s, Raise (RecordNotFoundError "Patient not found."))).
Proof.
  intros Hb. split_and!.
  - unfold process_payment, mbind, M_bind, gets. by rewrite Hb.
  - done.
  - intros id H. unfold remove_user, mbind, M_bind, gets. by rewrite H.
  - intros id H. split; [|intros t].
    + unfold cancel_appointment, mbind, M_bind, gets. by rewrite H.
    + unfold reschedule_appointment, mbind, M_bind, gets. by rewrite H.
  - intros id H. unfold get_medical_records.
    unfold mbind, M_bind. rewrite get_patient_eq, H. done.
Qed.

Lemma process_payment_missing_witness :
  process_payment "b2" 10 1 demo_billed
  = Some (demo_billed, Raise (BillingError "Billing record not found.")).
Proof.
  apply (process_payment_missing demo_billed "b2" 10 1).
  vm_compute. reflexivity.
Defined.

(** ** The availability loop *)

Lemma conflict_check_eq t msg l s :
  conflict_check t msg l s =
  match appointment_objs s !! l with
  | None => None
  | Some a =>
      if decide (Appointment.date_time a = t ∧ Appointment.status a = "Scheduled")
      then Some (s, Raise (SchedulingConflictError msg))
      else Some (s, Return tt)
  end.
Proof.
  unfold conflict_check, mbind, M_bind, deref.
  destruct (appointment_objs s !! l); [|done]. by case_decide.
Qed.

(** The loop reads the store and never writes it. *)
Lemma for_each_conflict_check_cases appts t msg s :
  for_each appts (conflict_check t msg) s = None
  ∨ for_each appts (conflict_check t msg) s = Some (s, Return tt)
  ∨ for_each appts (conflict_check t msg) s
    = Some (s, Raise (SchedulingConflictError msg)).
Proof.
  induction appts as [|l appts IH]; [by right; left|].
  rewrite for_each_cons, conflict_check_eq.
  destruct (appointment_objs s !! l) as [a|]; [|by left].
  case_decide; [by right; right|]. exact IH.
Qed.

Lemma scan_Return appts t msg s :
  for_each appts (conflict_check t msg) s = Some (s, Return tt)
  ↔ Forall (free_at s t) appts.
Proof.
  induction appts as [|l appts IH]; [by split; [constructor|]|].
  rewrite for_each_cons, conflict_check_eq, Forall_cons, <- IH.
  unfold free_at, blocks.
  destruct (appointment_objs s !! l) as [a|] eqn:E.
  - case_decide.
    + split; [done|]. intros [(a' & ? & ?) _]. by simplify_eq.
    + split; [|by intros [_ ?]]. intros ?; split; [|done]. by exists a.
  - split; [done|]. by intros [(a' & ? & ?) _].
Qed.

Lemma scan_Raise appts t msg s :
  Forall (λ l, is_Some (appointment_objs s !! l)) appts →
  (∃ l a, l ∈ appts ∧ appointment_objs s !! l = Some a ∧ blocks t a) →
  for_each appts (conflict_check t msg) s
  = Some (s, Raise (SchedulingConflictError msg)).
Proof.
  induction appts as [|l appts IH]; intros Hall (l0 & a0 & Hin & Hl0 & Hb).
  { by apply elem_of_nil in Hin. }
  apply Forall_cons in Hall as [[a Ha] Hall].
  rewrite for_each_cons, conflict_check_eq, Ha.
  unfold blocks in *. case_decide; [done|].
  apply IH; [done|]. apply elem_of_cons in Hin as [->|Hin].
  - by simplify_eq.
  - by exists l0, a0.
Qed.

(** ** What a successful [schedule_appointment] did *)

(** A call that raises leaves the store alone; a call that returns has found
    a patient, a doctor and a free slot, and has written what [scheduled]
    says. *)
Lemma schedule_appointment_cases patient_id doctor_id t aid uuid4 s :
  match schedule_appointment patient_id doctor_id t aid uuid4 s with
  | Some (s', Return a) => scheduled patient_id doctor_id t aid uuid4 s s' a
  | Some (s', Raise _) => s' = s
  | None => True
  end.
Proof.
  unfold schedule_appointment. rewrite bind_eq, get_patient_eq.
  destruct (users s !! patient_id) as [pl|] eqn:Hpl;
    [destruct (user_objs s !! pl) as [[p|d0|a0]|] eqn:Hp|]; try done;
    rewrite bind_eq, get_doctor_eq;
    (destruct (users s !! doctor_id) as [dl|] eqn:Hdl;
     [destruct (user_objs s !! dl) as [[p'|d|a']|] eqn:Hd|]); try done.
  rewrite bind_eq.
  destruct (for_each_conflict_check_cases (Doctor.appointments d) t
              "Doctor is not available at this time." s) as [E|[E|E]];
    rewrite E; try done.
  apply scan_Return in E.
  assert (pl ≠ dl) by congruence.
  unfold_calls. simplify_map_eq.
  exists pl, p, dl, d. by split_and!.
Qed.

Lemma schedule_appointment_Return patient_id doctor_id t aid uuid4 s s' a :
  schedule_appointment patient_id doctor_id t aid uuid4 s = Some (s', Return a) →
  scheduled patient_id doctor_id t aid uuid4 s s' a.
Proof.
  intros H.
  pose proof (schedule_appointment_cases patient_id doctor_id t aid uuid4 s)
    as Hcases.
  by rewrite H in Hcases.
Qed.

Lemma schedule_appointment_Raise patient_id doctor_id t aid uuid4 s s' e :
  schedule_appointment patient_id doctor_id t aid uuid4 s = Some (s', Raise e) →
  s' = s.
Proof.
  intros H.
  pose proof (schedule_appointment_cases patient_id doctor_id t aid uuid4 s)
    as Hcases.
  by rewrite H in Hcases.
Qed.

(** C2: once [schedule_appointment] has returned an appointment for doctor
    [doctor_id] at time [t], an immediately following call for the same doctor
    and time, with any registered patient, raises [SchedulingConflictError];
    the store is left as it was, and the first appointment is still
    "Scheduled" at [t]. *)
Theorem schedule_twice_conflicts
    s s' a patient_id doctor_id t aid uuid4 patient_id' pl' p' aid' uuid4' :
  schedule_appointment patient_id doctor_id t aid uuid4 s = Some (s', Return a) →
  users s' !! patient_id' = Some pl' →
  user_objs s' !! pl' = Some (APatient p') →
  schedule_appointment patient_id' doctor_id t aid' uuid4' s'
    = Some (s', Raise (SchedulingConflictError
                         "Doctor is not available at this time."))
  ∧ ∃ first,
      appointment_objs s' !! a = Some first
      ∧ Appointment.status first = "Scheduled"
      ∧ Appointment.date_time first = t
      ∧ Appointment.doctor_id first = doctor_id.
Proof.
  intros H Hpl' Hp'.
  apply schedule_appointment_Return in H
    as (pl & p & dl & d & Hpl & Hp & Hdl & Hd & Hfree & Ha & Hus & _ & Hao & Huo & _).
  split.
  - unfold schedule_appointment.
    rewrite bind_eq, get_patient_eq, Hpl', Hp'.
    rewrite bind_eq, get_doctor_eq, Hus, Hdl, Huo, lookup_insert_eq.
    rewrite bind_eq. cbn [Doctor.appointments].
    rewrite scan_Raise; [done| |].
    + rewrite Hao. apply Forall_app. split.
      * eapply Forall_impl; [exact Hfree|]. intros l (ao & Hl & _).
        apply lookup_insert_is_Some'. right. by exists ao.
      * apply Forall_singleton. rewrite lookup_insert_eq. by eexists.
    + exists a, (Appointment.init patient_id doctor_id t aid uuid4).
      split; [set_solver|]. split; [by rewrite Hao, lookup_insert_eq|done].
  - exists (Appointment.init patient_id doctor_id t aid uuid4).
    by rewrite Hao, lookup_insert_eq.
Qed.

Lemma schedule_twice_conflicts_witness :
  schedule_appointment "p1" "d1" t_10h None "uuid-a2" demo_booked
    = Some (demo_booked, Raise (SchedulingConflictError
                                  "Doctor is not available at this time."))
  ∧ ∃ first,
      appointment_objs demo_booked !! 0 = Some first
      ∧ Appointment.status first = "Scheduled"
      ∧ Appointment.date_time first = t_10h
      ∧ Appointment.doctor_id first = "d1".
Proof.
  eapply (schedule_twice_conflicts demo demo_booked 0 "p1" "d1" t_10h None
            "uuid-a1" "p1" 0).
  - vm_compute. reflexivity.
  - vm_compute. reflexivity.
  - vm_compute. reflexivity.
Defined.

(** C5: a doctor whose treated-patient set lacks a patient id is refused that
    patient's records with [AuthorizationError]; once [schedule_appointment]
    has succeeded for that patient and the id under which the doctor is
    registered, the same request returns the patient's medical history. *)
Theorem doctor_access_follows_assignment :
  (∀ s requester d patient_id,
      user_objs s !! requester = Some (ADoctor d) →
      patient_id ∉ Doctor.patients d →
      access_medical_records requester patient_id s
      = Some (s, Raise (AuthorizationError
                          "Doctor not assigned to this patient.")))
  ∧ (∀ s s' requester patient_id doctor_id t aid uuid4 a,
      users s !! doctor_id = Some requester →
      schedule_appointment patient_id doctor_id t aid uuid4 s
      = Some (s', Return a) →
      ∃ pl p,
        users s' !! patient_id = Some pl
        ∧ user_objs s !! pl = Some (APatient p)
        ∧ access_medical_records requester patient_id s'
          = Some (s', Return (Patient.medical_history p))
        ∧ get_medical_records patient_id s'
          = Some (s', Return (Patient.medical_history p))).
Proof.
  split.
  - intros s requester d patient_id Hd Hnot.
    unfold access_medical_records.
    rewrite (bind_Some _ _ _ _ _ (deref_Some _ _ _ _ Hd)). simpl.
    unfold_calls. by case_decide.
  - intros s s' requester patient_id doctor_id t aid uuid4 a Hreq H.
    apply schedule_appointment_Return in H
      as (pl & p & dl & d & Hpl & Hp & Hdl & Hd & _ & _ & Hus & _ & _ & Huo & _).
    assert (requester = dl) as -> by congruence.
    assert (pl ≠ dl) by congruence.
    assert (get_medical_records patient_id s'
            = Some (s', Return (Patient.medical_history p))) as Hget.
    { unfold get_medical_records.
      rewrite bind_eq, get_patient_eq, Hus, Hpl, Huo.
      rewrite lookup_insert_ne, lookup_insert_eq by done. done. }
    exists pl, p. split_and!; [by rewrite Hus|done| |done].
    unfold access_medical_records.
    erewrite bind_Some; last first.
    { apply deref_Some. rewrite Huo. apply lookup_insert_eq. }
    simpl.
    rewrite bind_eq.
    assert ((gets (λ s0 : state, users s0 !! patient_id)
             ≫= λ _ : option nat,
               if decide (patient_id ∉ {[patient_id]} ∪ Doctor.patients d)
               then raise (AuthorizationError
                             "Doctor not assigned to this patient.")
               else mret ()) s' = Some (s', Return tt)) as ->.
    { unfold_calls. case_decide as H3; [exfalso; apply H3; set_solver|done]. }
    exact Hget.
Qed.

Lemma doctor_access_follows_assignment_witness :
  access_medical_records 1 "p1" demo_treated
    = Some (demo_treated,
            Raise (AuthorizationError "Doctor not assigned to this patient."))
  ∧ ∃ pl p,
      users demo_treated_booked !! "p1" = Some pl
      ∧ user_objs demo_treated !! pl = Some (APatient p)
      ∧ access_medical_records 1 "p1" demo_treated_booked
        = Some (demo_treated_booked, Return (Patient.medical_history p))
      ∧ get_medical_records "p1" demo_treated_booked
        = Some (demo_treated_booked, Return (Patient.medical_history p)).
Proof.
  destruct doctor_access_follows_assignment as [Hbefore Hafter]. split.
  - apply (Hbefore demo_treated 1
             (Doctor.mk (User.mk "d1" "D1" "d1@example.org"
                           (sha256_hexdigest "secret")) "Cardiology" [] ∅ ∅)).
    + vm_compute. reflexivity.
    + simpl. set_solver.
  - apply (Hafter demo_treated demo_treated_booked 1 "p1" "d1" t_10h None
             "uuid-a1" 0).
    + vm_compute. reflexivity.
    + vm_compute. reflexivity.
Defined.

(** C8, amended: moving a "Scheduled" appointment to the time it already has
    raises [SchedulingConflictError] when the appointment is in the list of
    the doctor object its [doctor_id] resolves to: the loop over that list
    then meets the appointment itself.  The store, and so the timestamp, is
    left as it was. *)
Theorem reschedule_same_time_conflicts s appointment_id appointment a dl d :
  appointments s !! appointment_id = Some appointment →
  appointment_objs s !! appointment = Some a →
  Appointment.status a = "Scheduled" →
  users s !! Appointment.doctor_id a = Some dl →
  user_objs s !! dl = Some (ADoctor d) →
  appointment ∈ Doctor.appointments d →
  Forall (λ l, is_Some (appointment_objs s !! l)) (Doctor.appointments d) →
  reschedule_appointment appointment_id (Appointment.date_time a) s
  = Some (s, Raise (SchedulingConflictError
                      "Doctor is not available at the new time.")).
Proof.
  intros Hidx Ha Hst Hdl Hd Hin Hall.
  unfold reschedule_appointment.
  erewrite bind_Some by (unfold gets; reflexivity). simpl. rewrite Hidx.
  rewrite (bind_Some _ _ _ _ _ (deref_Some _ _ _ _ Ha)).
  rewrite bind_eq, get_doctor_eq, Hdl, Hd.
  rewrite bind_eq, scan_Raise; [done|done|].
  by exists appointment, a.
Qed.

Lemma reschedule_same_time_conflicts_witness :
  reschedule_appointment "uuid-a1" t_10h demo_booked
  = Some (demo_booked, Raise (SchedulingConflictError
                                "Doctor is not available at the new time.")).
Proof.
  apply (reschedule_same_time_conflicts demo_booked "uuid-a1" 0
           (Appointment.mk "uuid-a1" "p1" "d1" t_10h "Scheduled" "") 1
           (Doctor.mk (User.mk "d1" "D1" "d1@example.org"
                         (sha256_hexdigest "secret"))
              "Cardiology" [0] ({["p1"]} ∪ ∅) ∅)).
  - vm_compute. reflexivity.
  - vm_compute. reflexivity.
  - reflexivity.
  - vm_compute. reflexivity.
  - vm_compute. reflexivity.
  - simpl. set_solver.
  - apply Forall_singleton. vm_compute. eexists. reflexivity.
Defined.

(** ** [confirm_appointment] *)



Lemma confirm_loop_first s appts id l a :
  first_with_id s appts id l a →
  confirm_loop appts id s =
  if decide (Appointment.status a = "Scheduled") then
    Some (set_stdout (λ out, out ++ [confirmed_line id])
            (set_appointment_objs
               <[l:=Appointment.update_status a "Confirmed"]> s), Return true)
  else
    Some (set_stdout
            (λ out, out ++ [cannot_confirm_line id (Appointment.status a)])
            s, Return true).
Proof.
  intros (pre & post & -> & Hpre & Ha & Hid).
  induction Hpre as [|l0 pre (a0 & Ha0 & Hid0) _ IH].
  - simpl. rewrite (bind_Some _ _ _ _ _ (deref_Some _ _ _ _ Ha)).
    destruct (decide (Appointment.appointment_id a = id)); [|done].
    destruct (decide (Appointment.status a = "Scheduled")).
    + unfold_calls. by rewrite Ha.
    + by unfold_calls.
  - simpl. rewrite (bind_Some _ _ _ _ _ (deref_Some _ _ _ _ Ha0)).
    by destruct (decide (Appointment.appointment_id a0 = id)).
Qed.



(** ** Prescriptions *)

(** C9: for a registered patient with an empty medical history,
    [add_prescription] returns normally; it enters the prescription in the
    index and prints a line, and that is all it does: no medical record is
    written.  [get_prescriptions] and the patient's [view_prescriptions] then
    return the empty list, which does not contain the prescription. *)
Theorem add_prescription_without_history s patient_id pl p prescription pr :
  users s !! patient_id = Some pl →
  user_objs s !! pl = Some (APatient p) →
  Patient.medical_history p = [] →
  prescription_objs s !! prescription = Some pr →
  let s' :=
    set_stdout
      (λ out, out ++ [[Lit "Prescription '"; Str (Prescription.prescription_id pr);
                       Lit "' added for patient '";
                       Str (User.name (Patient.base p)); Lit "'."; Lit nl]])
      (set_prescriptions <[Prescription.prescription_id pr:=prescription]> s) in
  add_prescription patient_id prescription s = Some (s', Return tt)
  ∧ prescriptions s' !! Prescription.prescription_id pr = Some prescription
  ∧ record_objs s' = record_objs s
  ∧ get_prescriptions patient_id s' = Some (s', Return [])
  ∧ view_prescriptions pl s' = Some (s', Return [])
  ∧ (∀ s'' found,
       get_prescriptions patient_id s' = Some (s'', Return found)
       ∨ view_prescriptions pl s' = Some (s'', Return found) →
       prescription ∉ found).
Proof.
  intros Hpl Hp Hh Hpr s'.
  assert (get_prescriptions patient_id s' = Some (s', Return [])) as Hget.
  { unfold get_prescriptions. rewrite bind_eq, get_patient_eq. subst s'. simpl.
    by rewrite Hpl, Hp, Hh. }
  assert (view_prescriptions pl s' = Some (s', Return [])) as Hview.
  { unfold view_prescriptions. subst s'.
    erewrite bind_Some by (apply deref_Some; simpl; exact Hp).
    simpl. by rewrite Hh. }
  split_and!; try done.
  - unfold add_prescription. rewrite bind_eq, get_patient_eq, Hpl, Hp.
    rewrite (bind_Some _ _ _ _ _ (deref_Some _ _ _ _ Hpr)).
    rewrite Hh. simpl. by unfold_calls.
  - simpl. apply lookup_insert_eq.
  - intros s'' found [H|H]; rewrite ?Hget, ?Hview in H; simplify_eq;
      apply not_elem_of_nil.
Qed.

Lemma add_prescription_without_history_witness :
  ∃ s', add_prescription "p1" 0 demo_prescribed = Some (s', Return tt)
        ∧ prescriptions s' !! "rx1" = Some 0
        ∧ record_objs s' = record_objs demo_prescribed
        ∧ get_prescriptions "p1" s' = Some (s', Return [])
        ∧ view_prescriptions 0 s' = Some (s', Return []).
Proof.
  destruct (add_prescription_without_history demo_prescribed "p1" 0
              (Patient.mk (User.mk "p1" "P1" "p1@example.org"
                             (sha256_hexdigest "secret")) [] [] [] ∅)
              0 (Prescription.mk "rx1" "p1" "d1" [] 0 "twice a day"))
    as (Hrun & Hidx & Hrec & Hget & Hview & _).
  - vm_compute. reflexivity.
  - vm_compute. reflexivity.
  - reflexivity.
  - vm_compute. reflexivity.
  - eexists. split; [exact Hrun|]. split; [exact Hidx|].
    split; [exact Hrec|]. split; [exact Hget|exact Hview].
Defined.

(** ** How the operations move the appointments *)

Lemma appointments_evolve_refl m : appointments_evolve m m.
Proof.
  split; [|intros l a' H1 H2; congruence].
  intros l a H. exists a. split_and!; [done|by left|done].
Qed.

Lemma appointments_evolve_update m l a a' :
  m !! l = Some a →
  status_step (Appointment.status a) (Appointment.status a') →
  Appointment.doctor_id a' = Appointment.doctor_id a →
  appointments_evolve m (<[l:=a']> m).
Proof.
  intros Hl Hst Hdoc. split.
  - intros l0 a0 H0. destruct (decide (l = l0)) as [->|Hne].
    + exists a'. rewrite lookup_insert_eq. split_and!; [done| |]; congruence.
    + exists a0. rewrite lookup_insert_ne by done.
      split_and!; [done|by left|done].
  - intros l0 a0 H0 Hnone. destruct (decide (l = l0)) as [->|Hne]; [congruence|].
    rewrite lookup_insert_ne in H0 by done. congruence.
Qed.

Lemma appointments_evolve_fresh m l a' :
  m !! l = None → Appointment.status a' = "Scheduled" →
  appointments_evolve m (<[l:=a']> m).
Proof.
  intros Hl Hst. split.
  - intros l0 a0 H0. exists a0. split_and!; [|by left|done].
    rewrite lookup_insert_ne; [done|]. intros ->. by rewrite Hl in H0.
  - intros l0 a0 H0 Hnone. destruct (decide (l = l0)) as [->|Hne].
    + rewrite lookup_insert_eq in H0. congruence.
    + rewrite lookup_insert_ne in H0 by done. congruence.
Qed.

Lemma fresh_lookup_None {A} (m : gmap loc A) : m !! fresh (dom m) = None.
Proof. apply not_elem_of_dom, is_fresh. Qed.

Lemma confirm_loop_evolve appts id s s' r :
  confirm_loop appts id s = Some (s', r) →
  appointments_evolve (appointment_objs s) (appointment_objs s').
Proof.
  induction appts as [|l appts IH]; simpl.
  { intros [= <- _]. apply appointments_evolve_refl. }
  rewrite bind_eq. unfold deref at 1.
  destruct (appointment_objs s !! l) as [a|] eqn:Ha; [|done].
  destruct (decide (Appointment.appointment_id a = id)); [|exact IH].
  destruct (decide (Appointment.status a = "Scheduled")) as [Hst|Hst].
  - unfold_calls. rewrite Ha. intros [= <- _]. simpl.
    apply (appointments_evolve_update _ _ a); [done| |done].
    right; left. by rewrite Hst.
  - unfold_calls. intros [= <- _]. apply appointments_evolve_refl.
Qed.

Lemma confirm_appointment_evolve self id s s' r :
  confirm_appointment self id s = Some (s', r) →
  appointments_evolve (appointment_objs s) (appointment_objs s').
Proof.
  unfold confirm_appointment. rewrite bind_eq. unfold deref at 1.
  destruct (user_objs s !! self) as [[p|d|a]|]; try done.
  rewrite bind_eq.
  destruct (confirm_loop (Doctor.appointments d) id s) as [[s1 [[]|e]]|] eqn:E;
    try done.
  - intros [= <- _]. by eapply confirm_loop_evolve.
  - unfold_calls. intros [= <- _]. simpl. by eapply confirm_loop_evolve.
  - intros [= <- _]. by eapply confirm_loop_evolve.
Qed.

Lemma reschedule_appointment_evolve id t s s' r :
  reschedule_appointment id t s = Some (s', r) →
  appointments_evolve (appointment_objs s) (appointment_objs s').
Proof.
  unfold reschedule_appointment. rewrite bind_eq. unfold gets at 1.
  destruct (appointments s !! id) as [l|]; simpl.
  2:{ intros [= <- _]. apply appointments_evolve_refl. }
  rewrite bind_eq. unfold deref at 1.
  destruct (appointment_objs s !! l) as [a|] eqn:Ha; [|done].
  rewrite bind_eq, get_doctor_eq.
  destruct (users s !! Appointment.doctor_id a) as [dl|].
  2:{ intros [= <- _]. apply appointments_evolve_refl. }
  destruct (user_objs s !! dl) as [[p|d|ad]|]; try done.
  1,3: intros [= <- _]; apply appointments_evolve_refl.
  rewrite bind_eq.
  destruct (for_each_conflict_check_cases (Doctor.appointments d) t
              "Doctor is not available at the new time." s) as [E|[E|E]];
    rewrite E; try done.
  - unfold_calls. rewrite Ha. intros [= <- _]. simpl.
    apply (appointments_evolve_update _ _ a); [done|by left|done].
  - intros [= <- _]. apply appointments_evolve_refl.
Qed.

Lemma exec_appointments_evolve o s s' e :
  exec o s = Some (s', e) →
  appointments_evolve (appointment_objs s) (appointment_objs s').
Proof.
  destruct o; simpl; intros H.
  all: try (autounfold with calls in H; simpl in H; frame_case; simplify_eq;
    simpl;
    first [ apply appointments_evolve_refl
          | eapply appointments_evolve_update;
            [eassumption|by right; right|done] ]).
  - unfold discard in H.
    destruct (schedule_appointment _ _ _ _ _ s) as [[s1 [a|e1]]|] eqn:E;
      simplify_eq.
    + apply schedule_appointment_Return in E
        as (pl & p & dl & d & _ & _ & _ & _ & _ & -> & _ & _ & -> & _).
      apply appointments_evolve_fresh; [apply fresh_lookup_None|done].
    + apply schedule_appointment_Raise in E as ->.
      apply appointments_evolve_refl.
  - unfold discard in H.
    destruct (confirm_appointment _ _ s) as [[s1 [a|e1]]|] eqn:E; simplify_eq;
      by eapply confirm_appointment_evolve.
  - unfold discard in H.
    destruct (reschedule_appointment _ _ s) as [[s1 [a|e1]]|] eqn:E;
      simplify_eq; by eapply reschedule_appointment_evolve.
Qed.

(** Every appointment of a reachable store is "Scheduled", "Confirmed" or
    "Cancelled": no operation writes any other status. *)
Lemma reachable_status s l a :
  reachable s → appointment_objs s !! l = Some a →
  Appointment.status a = "Scheduled" ∨ Appointment.status a = "Confirmed"
  ∨ Appointment.status a = "Cancelled".
Proof.
  intros Hr. revert l a.
  induction Hr as [|o s s' e _ IH Hex]; intros l a Ha.
  { simpl in Ha. by rewrite lookup_empty in Ha. }
  destruct (exec_appointments_evolve _ _ _ _ Hex) as [Hold Hnew].
  destruct (appointment_objs s !! l) as [a0|] eqn:E.
  - destruct (Hold l a0 E) as (a' & Ha' & Hst & _). simplify_eq.
    destruct (IH l a0 E) as [H0|[H0|H0]], Hst as [H1|[[H1 H2]|H1]];
      rewrite ?H1, ?H2, ?H0; auto.
  - left. by apply (Hnew l).
Qed.

Lemma run_reachable script s s' :
  reachable s → run script s = Some s' → reachable s'.
Proof.
  revert s. induction script as [|o script IH]; intros s Hr; simpl.
  { by intros [= <-]. }
  destruct (exec o s) as [[s1 e]|] eqn:E; [|done].
  apply IH. by eapply reachable_step.
Qed.

(** C7: in a reachable store, no operation changes the status of an
    appointment that is "Cancelled" or "Completed": the appointment is still
    there afterwards, with the same status. *)
Theorem terminal_status_is_kept s o s' e l a :
  reachable s →
  exec o s = Some (s', e) →
  appointment_objs s !! l = Some a →
  Appointment.status a = "Cancelled" ∨ Appointment.status a = "Completed" →
  ∃ a', appointment_objs s' !! l = Some a'
        ∧ Appointment.status a' = Appointment.status a.
Proof.
  intros Hr Hex Ha Hterm.
  destruct (exec_appointments_evolve _ _ _ _ Hex) as [Hold _].
  destruct (Hold l a Ha) as (a' & Ha' & Hst & _).
  exists a'. split; [done|].
  destruct (reachable_status s l a Hr Ha) as [H0|[H0|H0]],
    Hterm as [H1|H1]; try congruence.
  destruct Hst as [?|[[? ?]|?]]; congruence.
Qed.

Lemma terminal_status_is_kept_witness :
  ∃ s' a',
    exec (ConfirmAppointment 1 "uuid-a1") demo_cancelled = Some (s', None)
    ∧ appointment_objs s' !! 0 = Some a'
    ∧ Appointment.status a' = "Cancelled".
Proof.
  pose (s' := default init (run [ConfirmAppointment 1 "uuid-a1"] demo_cancelled)).
  assert (exec (ConfirmAppointment 1 "uuid-a1") demo_cancelled = Some (s', None))
    as Hex by (vm_compute; reflexivity).
  destruct (terminal_status_is_kept demo_cancelled
              (ConfirmAppointment 1 "uuid-a1") s' None 0
              (Appointment.mk "uuid-a1" "p1" "d1" t_10h "Cancelled" ""))
    as (a' & Ha' & Hst).
  - apply (run_reachable
             (demo_setup ++ [ScheduleAppointment "p1" "d1" t_10h None "uuid-a1";
                             CancelAppointment "uuid-a1"]) init).
    + constructor.
    + vm_compute. reflexivity.
  - exact Hex.
  - vm_compute. reflexivity.
  - left. reflexivity.
  - exists s', a'. split; [exact Hex|]. split; [exact Ha'|exact Hst].
Defined.

(** ** The doctors' lists refer to existing appointments *)

Lemma closed_in_mono objs objs' us :
  closed_in objs us → appointments_evolve objs objs' → closed_in objs' us.
Proof.
  intros Hc [Hold _] l d Hl.
  eapply Forall_impl; [by eapply Hc|]. simpl.
  intros a [ao Ha]. destruct (Hold a ao Ha) as (a' & Ha' & _). by exists a'.
Qed.

Lemma closed_in_insert objs us l u :
  closed_in objs us →
  (∀ d, u = ADoctor d →
     Forall (λ a, is_Some (objs !! a)) (Doctor.appointments d)) →
  closed_in objs (<[l:=u]> us).
Proof.
  intros Hc Hu l0 d. rewrite lookup_insert. case_decide.
  - intros [= ->]. by apply Hu.
  - apply Hc.
Qed.

Lemma confirm_loop_kept appts id s s' r :
  confirm_loop appts id s = Some (s', r) → registry_kept s s'.
Proof.
  induction appts as [|l appts IH]; simpl.
  { by intros [= <- _]. }
  rewrite bind_eq. unfold deref at 1.
  destruct (appointment_objs s !! l) as [a|] eqn:Ha; [|done].
  destruct (decide (Appointment.appointment_id a = id)); [|exact IH].
  destruct (decide (Appointment.status a = "Scheduled")).
  - unfold_calls. rewrite Ha. by intros [= <- _].
  - unfold_calls. by intros [= <- _].
Qed.

Lemma confirm_appointment_kept self id s s' r :
  confirm_appointment self id s = Some (s', r) → registry_kept s s'.
Proof.
  unfold confirm_appointment. rewrite bind_eq. unfold deref at 1.
  destruct (user_objs s !! self) as [[p|d|a]|]; try done.
  rewrite bind_eq.
  destruct (confirm_loop (Doctor.appointments d) id s) as [[s1 [[]|e]]|] eqn:E;
    try done.
  - intros [= <- _]. by eapply confirm_loop_kept.
  - unfold_calls. intros [= <- _].
    by destruct (confirm_loop_kept _ _ _ _ _ E) as (? & ? & ?).
  - intros [= <- _]. by eapply confirm_loop_kept.
Qed.

Lemma reschedule_appointment_kept id t s s' r :
  reschedule_appointment id t s = Some (s', r) → registry_kept s s'.
Proof.
  unfold reschedule_appointment. rewrite bind_eq. unfold gets at 1.
  destruct (appointments s !! id) as [l|]; simpl; [|by intros [= <- _]].
  rewrite bind_eq. unfold deref at 1.
  destruct (appointment_objs s !! l) as [a|] eqn:Ha; [|done].
  rewrite bind_eq, get_doctor_eq.
  destruct (users s !! Appointment.doctor_id a) as [dl|]; [|by intros [= <- _]].
  destruct (user_objs s !! dl) as [[p|d|ad]|]; try done;
    try by intros [= <- _].
  rewrite bind_eq.
  destruct (for_each_conflict_check_cases (Doctor.appointments d) t
              "Doctor is not available at the new time." s) as [E|[E|E]];
    rewrite E; try done; [|by intros [= <- _]].
  unfold_calls. rewrite Ha. by intros [= <- _].
Qed.

Lemma exec_doctors_closed o s s' e :
  doctors_closed s → exec o s = Some (s', e) → doctors_closed s'.
Proof.
  unfold doctors_closed. intros Hc H.
  pose proof (exec_appointments_evolve _ _ _ _ H) as Hev.
  pose proof (closed_in_mono _ _ _ Hc Hev) as Hc'.
  destruct o; simpl in H.
  all: try (autounfold with calls in H; simpl in H; frame_case; simplify_eq;
    first [ exact Hc'
          | simpl in *; apply closed_in_insert; [exact Hc'|];
            by intros ? [= <-]; constructor
          | simpl in *; apply closed_in_insert; [exact Hc'|]; by intros ? [=] ]).
  - unfold discard in H.
    destruct (schedule_appointment _ _ _ _ _ s) as [[s1 [a|e1]]|] eqn:E;
      simplify_eq.
    + apply schedule_appointment_Return in E
        as (pl & p & dl & d & _ & _ & _ & Hd & _ & -> & _ & _ & Hao & -> & _).
      assert (Forall (λ a, is_Some (appointment_objs s' !! a))
                (Doctor.appointments d ++ [fresh (dom (appointment_objs s))]))
        as Hall.
      { apply Forall_app. split; [by apply (Hc' dl)|].
        apply Forall_singleton. rewrite Hao, lookup_insert_eq. by eexists. }
      repeat apply closed_in_insert; try done; by intros ? [= <-].
    + by apply schedule_appointment_Raise in E as ->.
  - unfold discard in H.
    destruct (confirm_appointment _ _ s) as [[s1 [a|e1]]|] eqn:E; simplify_eq;
      by destruct (confirm_appointment_kept _ _ _ _ _ E) as (_ & _ & ->).
  - unfold discard in H.
    destruct (reschedule_appointment _ _ s) as [[s1 [a|e1]]|] eqn:E;
      simplify_eq;
      by destruct (reschedule_appointment_kept _ _ _ _ _ E) as (_ & _ & ->).
Qed.

(** In every reachable store the appointment lists of the doctors refer to
    existing appointment objects, which is what [confirm_appointment] and the
    availability loop need in order to run. *)
Lemma reachable_doctors_closed s : reachable s → doctors_closed s.
Proof.
  induction 1 as [|o s s' e _ IH Hex].
  - intros l d Hl. simpl in Hl. by rewrite lookup_empty in Hl.
  - by eapply exec_doctors_closed.
Qed.

(** ** Indexed appointments are in their doctor's list *)

Lemma doctors_grow_refl us : doctors_grow us us.
Proof. intros dl d Hd. by exists d. Qed.

Lemma doctors_grow_insert us l u :
  (∀ d, us !! l ≠ Some (ADoctor d)) → doctors_grow us (<[l:=u]> us).
Proof.
  intros Hl dl d Hd. exists d. split; [|done].
  rewrite lookup_insert_ne; [done|]. intros ->. by apply (Hl d).
Qed.

Lemma exec_doctors_grow o s s' e :
  exec o s = Some (s', e) → doctors_grow (user_objs s) (user_objs s').
Proof.
  destruct o; simpl; intros H.
  all: try (autounfold with calls in H; simpl in H; frame_case; simplify_eq;
    simpl;
    first [ apply doctors_grow_refl
          | apply doctors_grow_insert; intros ?; rewrite fresh_lookup_None;
            congruence
          | apply doctors_grow_insert; intros ?; congruence ]).
  - unfold discard in H.
    destruct (schedule_appointment _ _ _ _ _ s) as [[s1 [a|e1]]|] eqn:E;
      simplify_eq.
    + apply schedule_appointment_Return in E
        as (pl & p & dl & d & _ & Hp & _ & Hd & _ & _ & _ & _ & _ & -> & _).
      intros dl0 d0 Hd0. destruct (decide (dl0 = dl)) as [->|Hne].
      * eexists. rewrite lookup_insert_eq. split; [done|]. simpl.
        intros l Hl. simplify_eq. set_solver.
      * exists d0. split; [|done].
        rewrite lookup_insert_ne, lookup_insert_ne, lookup_insert_ne;
          [done|done|congruence|done].
    + apply schedule_appointment_Raise in E as ->. apply doctors_grow_refl.
  - unfold discard in H.
    destruct (confirm_appointment _ _ s) as [[s1 [a|e1]]|] eqn:E; simplify_eq;
      destruct (confirm_appointment_kept _ _ _ _ _ E) as (_ & _ & ->);
      apply doctors_grow_refl.
  - unfold discard in H.
    destruct (reschedule_appointment _ _ s) as [[s1 [a|e1]]|] eqn:E;
      simplify_eq;
      destruct (reschedule_appointment_kept _ _ _ _ _ E) as (_ & _ & ->);
      apply doctors_grow_refl.
Qed.

(** Apart from [register_user], an operation resolves no user id that did
    not resolve before, and apart from [schedule_appointment] it leaves the
    appointment index alone. *)
Lemma exec_registry o s s' e :
  (∀ u, o ≠ RegisterUser u) →
  exec o s = Some (s', e) →
  (∀ id dl, users s' !! id = Some dl → users s !! id = Some dl)
  ∧ ((∀ p d t a g, o ≠ ScheduleAppointment p d t a g) →
     appointments s' = appointments s).
Proof.
  intros Hreg H. destruct o; simpl in H; try (by exfalso; eapply Hreg).
  all: try (autounfold with calls in H; simpl in H; frame_case; simplify_eq;
    simpl; (split; [|done]);
    first [ done
          | intros ? ? Hdel; apply lookup_delete_Some in Hdel; by destruct Hdel ]).
  - unfold discard in H. split; [|by intros Hno; exfalso; eapply Hno].
    destruct (schedule_appointment _ _ _ _ _ s) as [[s1 [a|e1]]|] eqn:E;
      simplify_eq.
    + apply schedule_appointment_Return in E
        as (pl & p & dl & d & _ & _ & _ & _ & _ & _ & -> & _). done.
    + by apply schedule_appointment_Raise in E as ->.
  - unfold discard in H.
    destruct (confirm_appointment _ _ s) as [[s1 [a|e1]]|] eqn:E; simplify_eq;
      by destruct (confirm_appointment_kept _ _ _ _ _ E) as (-> & -> & _).
  - unfold discard in H.
    destruct (reschedule_appointment _ _ s) as [[s1 [a|e1]]|] eqn:E;
      simplify_eq;
      by destruct (reschedule_appointment_kept _ _ _ _ _ E) as (-> & -> & _).
Qed.

Lemma listed_step s s' id l :
  listed s →
  (∀ id dl, users s' !! id = Some dl → users s !! id = Some dl) →
  appointments_evolve (appointment_objs s) (appointment_objs s') →
  doctors_grow (user_objs s) (user_objs s') →
  appointments s !! id = Some l →
  ∃ a, appointment_objs s' !! l = Some a
       ∧ ∀ dl, users s' !! Appointment.doctor_id a = Some dl →
           ∃ d, user_objs s' !! dl = Some (ADoctor d)
                ∧ l ∈ Doctor.appointments d.
Proof.
  intros Hl Hus [Hold _] Hgrow Hidx.
  destruct (Hl id l Hidx) as (a & Ha & Hdoc).
  destruct (Hold l a Ha) as (a' & Ha' & _ & Hsame).
  exists a'. split; [done|]. intros dl Hdl. rewrite Hsame in Hdl.
  destruct (Hdoc dl (Hus _ _ Hdl)) as (d & Hd & Hin).
  destruct (Hgrow dl d Hd) as (d' & Hd' & Hsub).
  exists d'. split; [done|]. by apply Hsub.
Qed.

(** Once the users are registered, every operation keeps the indexed
    appointments in the lists of their doctors. *)
Lemma exec_listed o s s' e :
  (∀ u, o ≠ RegisterUser u) →
  listed s → exec o s = Some (s', e) → listed s'.
Proof.
  intros Hreg Hl H.
  pose proof (exec_appointments_evolve _ _ _ _ H) as Hev.
  pose proof (exec_doctors_grow _ _ _ _ H) as Hgrow.
  destruct (exec_registry _ _ _ _ Hreg H) as [Hus Hidx].
  destruct o;
    try (intros id l; rewrite Hidx by done; intros Hid; by eapply listed_step).
  simpl in H. unfold discard in H.
  destruct (schedule_appointment _ _ _ _ _ s) as [[s1 [al|e1]]|] eqn:E;
    simplify_eq.
  - apply schedule_appointment_Return in E
      as (pl & pa & dl & da & _ & _ & Hdl & _ & _ & -> & Husers & Hindex
          & Hao & Huo & _).
    intros id l. rewrite Hindex, lookup_insert. case_decide.
    + intros [= <-]. eexists. rewrite Hao, lookup_insert_eq.
      split; [done|]. simpl. intros dl0. rewrite Husers, Hdl. intros [= <-].
      eexists. rewrite Huo, lookup_insert_eq. split; [done|]. simpl.
      set_solver.
    + intros Hid. by eapply listed_step.
  - apply schedule_appointment_Raise in E as ->. exact Hl.
Qed.

Lemma listed_empty_index s : appointments s = ∅ → listed s.
Proof. intros Hidx id l. by rewrite Hidx, lookup_empty. Qed.

(** A script without [register_user], run on a store whose indexed
    appointments are listed, ends in such a store: in particular every script
    of scheduling operations run after the registrations. *)
Lemma run_listed script s s' :
  Forall (λ o, ∀ u, o ≠ RegisterUser u) script →
  listed s → run script s = Some s' → listed s'.
Proof.
  intros Hscript. revert s.
  induction Hscript as [|o script Ho _ IH]; intros s Hl; simpl.
  { by intros [= <-]. }
  destruct (exec o s) as [[s1 e]|] eqn:E; [|done].
  apply IH. by eapply exec_listed.
Qed.

(** C8 as stated fails on the code: the loop scans the list of the doctor
    object that is registered under the appointment's [doctor_id] now, and
    [register_user] lets a second doctor object take the id over.  In the
    store the script [id_reused] reaches, the appointment is "Scheduled" at
    10:00, its [doctor_id] resolves to a doctor object, and moving it to
    10:00 returns. *)
Lemma reschedule_same_time_conflicts_counterexample :
  run id_reused init = Some demo_id_reused
  ∧ reachable demo_id_reused
  ∧ appointments demo_id_reused !! "uuid-a1" = Some 0
  ∧ appointment_objs demo_id_reused !! 0
    = Some (Appointment.mk "uuid-a1" "p1" "d1" t_10h "Scheduled" "")
  ∧ users demo_id_reused !! "d1" = Some 2
  ∧ user_objs demo_id_reused !! 2
    = Some (ADoctor (Doctor.mk (User.mk "d1" "D2" "d2@example.org"
                                  (sha256_hexdigest "other"))
                       "Surgery" [] ∅ ∅))
  ∧ ∃ s',
      reschedule_appointment "uuid-a1" t_10h demo_id_reused
      = Some (s', Return tt)
      ∧ appointment_objs s' !! 0
        = Some (Appointment.mk "uuid-a1" "p1" "d1" t_10h "Scheduled" "").
Proof.
  assert (run id_reused init = Some demo_id_reused) as Hrun
    by (vm_compute; reflexivity).
  split_and!; try (vm_compute; reflexivity).
  - eapply run_reachable; [constructor|exact Hrun].
  - eexists. split; vm_compute; reflexivity.
Qed.

(** ** Double booking *)

(** C1 fails on the code: after the doctor has confirmed an appointment, the
    availability loop, which looks for "Scheduled" only, lets a second
    appointment in at the same time.  The script [double_booking] runs to a
    reachable store in which the doctor has a "Confirmed" and a "Scheduled"
    appointment at 10:00. *)
Theorem confirmed_slot_is_booked_again :
  ∃ s a1 a2,
    run double_booking init = Some s
    ∧ reachable s
    ∧ appointment_objs s !! 0 = Some a1
    ∧ appointment_objs s !! 1 = Some a2
    ∧ Appointment.doctor_id a1 = "d1" ∧ Appointment.doctor_id a2 = "d1"
    ∧ Appointment.date_time a1 = t_10h ∧ Appointment.date_time a2 = t_10h
    ∧ Appointment.status a1 = "Confirmed"
    ∧ Appointment.status a2 = "Scheduled"
    ∧ ¬ no_double_booking s.
Proof.
  destruct (run double_booking init) as [s|] eqn:Hrun; [|by vm_compute in Hrun].
  assert (reachable s) as Hr by (eapply run_reachable; [constructor|exact Hrun]).
  assert (s = default init (run double_booking init)) as Hs by (by rewrite Hrun).
  exists s,
    (Appointment.mk "uuid-a1" "p1" "d1" t_10h "Confirmed" ""),
    (Appointment.mk "uuid-a2" "p1" "d1" t_10h "Scheduled" "").
  assert (appointment_objs s !! 0
          = Some (Appointment.mk "uuid-a1" "p1" "d1" t_10h "Confirmed" ""))
    as H0 by (rewrite Hs; vm_compute; reflexivity).
  assert (appointment_objs s !! 1
          = Some (Appointment.mk "uuid-a2" "p1" "d1" t_10h "Scheduled" ""))
    as H1 by (rewrite Hs; vm_compute; reflexivity).
  split_and!; try done.
  intros Hno. apply (Hno 0 1 _ _ H0 H1); [done|done|done|].
  split; [by right|by left].
Qed.

(** * Further properties *)

(** ** More on the comparisons of binary64 floats *)

Lemma ltb_leb (x y : float) :
  PrimFloat.ltb x y = true → PrimFloat.leb x y = true.
Proof.
  rewrite ltb_spec, leb_spec. unfold SFltb, SFleb.
  by destruct (SFcompare (Prim2SF x) (Prim2SF y)) as [[]|].
Qed.

Lemma SFcompare_Gt_Lt x y :
  SFcompare x y = Some Gt → SFcompare y x = Some Lt.
Proof.
  destruct x as [sx|sx| |sx mx ex], y as [sy|sy| |sy my ey]; simpl;
    try destruct sx; try destruct sy; simpl; try congruence.
  all: rewrite (Z.compare_antisym ey ex); destruct (ey ?= ex)%Z; simpl;
    try congruence.
  all: change (PosDef.Pos.compare_cont Eq mx my) with (Pos.compare mx my);
    change (PosDef.Pos.compare_cont Eq my mx) with (Pos.compare my mx);
    rewrite (Pos.compare_antisym mx my);
    destruct (mx ?= my)%positive; simpl; congruence.
Qed.

Lemma SFcompare_None x y :
  SFcompare x y = None ↔ x = S754_nan ∨ y = S754_nan.
Proof.
  destruct x as [sx|sx| |sx mx ex], y as [sy|sy| |sy my ey]; simpl;
    split; try done; try (intros [?|?]; done); try by right. 
  all: try by left.
Qed.

Lemma SFcompare_refl x : x ≠ S754_nan → SFcompare x x = Some Eq.
Proof.
  destruct x as [sx|sx| |sx mx ex]; simpl; intros Hn.
  - done.
  - by destruct sx.
  - done.
  - rewrite Z.compare_refl.
    change (PosDef.Pos.compare_cont Eq mx mx) with (Pos.compare mx mx).
    rewrite Pos.compare_refl. by destruct sx.
Qed.

(** [math.isnan]: a float is NaN exactly when it differs from itself. *)
Lemma is_nan_spec (x : float) :
  PrimFloat.is_nan x = true ↔ Prim2SF x = S754_nan.
Proof.
  unfold PrimFloat.is_nan. rewrite FloatAxioms.eqb_spec. unfold SFeqb. split.
  - intros H. destruct (Prim2SF x) as [sx|sx| |sx mx ex] eqn:E; [| |done|];
      by rewrite SFcompare_refl in H.
  - by intros ->.
Qed.

Lemma is_nan_false (x : float) :
  PrimFloat.is_nan x = false ↔ Prim2SF x ≠ S754_nan.
Proof.
  rewrite <- is_nan_spec. by destruct (PrimFloat.is_nan x).
Qed.

(** NaN compares false with everything, on either side. *)
Lemma nan_compares_false (a x : float) :
  PrimFloat.is_nan a = true →
  PrimFloat.leb a x = false ∧ PrimFloat.leb x a = false
  ∧ PrimFloat.ltb a x = false ∧ PrimFloat.ltb x a = false.
Proof.
  rewrite is_nan_spec, !leb_spec, !ltb_spec. unfold SFleb, SFltb.
  intros ->. simpl. by destruct (Prim2SF x).
Qed.

(** Two floats that are not NaN are comparable. *)
Lemma leb_false_ltb (a b : float) :
  PrimFloat.is_nan a = false → PrimFloat.is_nan b = false →
  PrimFloat.leb a b = false → PrimFloat.ltb b a = true.
Proof.
  rewrite !is_nan_false, leb_spec, ltb_spec. unfold SFleb, SFltb.
  intros Ha Hb.
  destruct (SFcompare (Prim2SF a) (Prim2SF b)) as [[]|] eqn:E; try done.
  - by rewrite (SFcompare_Gt_Lt _ _ E).
  - apply SFcompare_None in E as [?|?]; done.
Qed.

Lemma ltb_not_nan (x y : float) :
  PrimFloat.ltb x y = true →
  PrimFloat.is_nan x = false ∧ PrimFloat.is_nan y = false.
Proof.
  intros H.
  destruct (PrimFloat.is_nan x) eqn:Hx.
  { destruct (nan_compares_false x y Hx) as (_ & _ & H1 & _). congruence. }
  destruct (PrimFloat.is_nan y) eqn:Hy; [|done].
  destruct (nan_compares_false y x Hy) as (_ & _ & _ & H1). congruence.
Qed.

(** ** What the appointment operations leave alone *)

Lemma only_appointments_written_refl s : only_appointments_written s s.
Proof. by destruct s. Qed.

Lemma only_appointments_written_trans s1 s2 s3 :
  only_appointments_written s1 s2 → only_appointments_written s2 s3 →
  only_appointments_written s1 s3.
Proof.
  unfold only_appointments_written. intros H12 H23.
  rewrite H23 at 1. rewrite H12 at 1. by destruct s1.
Qed.

Lemma confirm_loop_written appts id s s' r :
  confirm_loop appts id s = Some (s', r) → only_appointments_written s s'.
Proof.
  induction appts as [|l appts IH]; simpl.
  { intros [= <- _]. apply only_appointments_written_refl. }
  rewrite bind_eq. unfold deref at 1.
  destruct (appointment_objs s !! l) as [a|] eqn:Ha; [|done].
  destruct (decide (Appointment.appointment_id a = id)); [|exact IH].
  destruct (decide (Appointment.status a = "Scheduled")).
  - unfold_calls. rewrite Ha. intros [= <- _]. by destruct s.
  - unfold_calls. intros [= <- _]. by destruct s.
Qed.

Lemma confirm_appointment_written self id s s' r :
  confirm_appointment self id s = Some (s', r) → only_appointments_written s s'.
Proof.
  unfold confirm_appointment. rewrite bind_eq. unfold deref at 1.
  destruct (user_objs s !! self) as [[p|d|a]|]; try done.
  rewrite bind_eq.
  destruct (confirm_loop (Doctor.appointments d) id s) as [[s1 [[]|e]]|] eqn:E;
    try done.
  - intros [= <- _]. by eapply confirm_loop_written.
  - unfold_calls. intros [= <- _].
    eapply only_appointments_written_trans;
      [by eapply confirm_loop_written|by destruct s1].
  - intros [= <- _]. by eapply confirm_loop_written.
Qed.

Lemma cancel_appointment_written id s s' r :
  cancel_appointment id s = Some (s', r) → only_appointments_written s s'.
Proof.
  unfold cancel_appointment. unfold_calls.
  destruct (appointments s !! id) as [l|]; simpl.
  2:{ intros [= <- _]. apply only_appointments_written_refl. }
  destruct (appointment_objs s !! l) as [a|] eqn:Ha; [|done]. simpl.
  rewrite lookup_insert_eq. intros [= <- _]. by destruct s.
Qed.

Lemma reschedule_appointment_written id t s s' r :
  reschedule_appointment id t s = Some (s', r) → only_appointments_written s s'.
Proof.
  unfold reschedule_appointment. rewrite bind_eq. unfold gets at 1.
  destruct (appointments s !! id) as [l|]; simpl.
  2:{ intros [= <- _]. apply only_appointments_written_refl. }
  rewrite bind_eq. unfold deref at 1.
  destruct (appointment_objs s !! l) as [a|] eqn:Ha; [|done].
  rewrite bind_eq, get_doctor_eq.
  destruct (users s !! Appointment.doctor_id a) as [dl|].
  2:{ intros [= <- _]. apply only_appointments_written_refl. }
  destruct (user_objs s !! dl) as [[p|d|ad]|]; try done.
  1,3: intros [= <- _]; apply only_appointments_written_refl.
  rewrite bind_eq.
  destruct (for_each_conflict_check_cases (Doctor.appointments d) t
              "Doctor is not available at the new time." s) as [E|[E|E]];
    rewrite E; try done.
  - unfold_calls. rewrite Ha. intros [= <- _]. by destruct s.
  - intros [= <- _]. apply only_appointments_written_refl.
Qed.

(** X1: [confirm_appointment], [cancel_appointment] and
    [reschedule_appointment] write appointment objects and [stdout] and
    nothing else: the users, the indexes, the records, the prescriptions and
    the billings of the store they leave are those of the store they found,
    whether they return or raise. *)
Theorem appointment_operations_write_appointments_only s s' :
  ((∃ self id r, confirm_appointment self id s = Some (s', r))
   ∨ (∃ id r, cancel_appointment id s = Some (s', r))
   ∨ (∃ id t r, reschedule_appointment id t s = Some (s', r))) →
  users s' = users s ∧ users_by_email s' = users_by_email s
  ∧ appointments s' = appointments s
  ∧ medical_records s' = medical_records s
  ∧ prescriptions s' = prescriptions s ∧ billings s' = billings s
  ∧ user_objs s' = user_objs s ∧ record_objs s' = record_objs s
  ∧ prescription_objs s' = prescription_objs s
  ∧ billing_objs s' = billing_objs s.
Proof.
  intros H.
  assert (only_appointments_written s s') as ->.
  { destruct H as [(self & id & r & H)|[(id & r & H)|(id & t & r & H)]].
    - by eapply confirm_appointment_written.
    - by eapply cancel_appointment_written.
    - by eapply reschedule_appointment_written. }
  by split_and!.
Qed.

Lemma appointment_operations_write_appointments_only_witness :
  users demo_cancelled = users demo_booked
  ∧ users_by_email demo_cancelled = users_by_email demo_booked
  ∧ appointments demo_cancelled = appointments demo_booked
  ∧ medical_records demo_cancelled = medical_records demo_booked
  ∧ prescriptions demo_cancelled = prescriptions demo_booked
  ∧ billings demo_cancelled = billings demo_booked
  ∧ user_objs demo_cancelled = user_objs demo_booked
  ∧ record_objs demo_cancelled = record_objs demo_booked
  ∧ prescription_objs demo_cancelled = prescription_objs demo_booked
  ∧ billing_objs demo_cancelled = billing_objs demo_booked.
Proof.
  apply (appointment_operations_write_appointments_only demo_booked
           demo_cancelled).
  right; left. exists "uuid-a1", (Return tt). vm_compute. reflexivity.
Defined.

(** ** Billing: full payments, NaN, and what a billing can become *)

(** X2: a positive payment of at least the amount due settles the billing:
    the status becomes "Paid" and the amount due 0.0 whatever the payment was,
    so an overpayment is dropped; the other fields stay.  The same holds
    through [process_payment], which then prints the new status. *)
Theorem apply_payment_full s self b amount now :
  billing_objs s !! self = Some b →
  PrimFloat.ltb 0 amount = true →
  PrimFloat.leb (Billing.amount_due b) amount = true →
  let b' := Billing.mk (Billing.billing_id b) (Billing.patient_id b) 0
              (Billing.due_date b) "Paid" (Billing.description b) in
  apply_payment self amount now s
    = Some (set_billing_objs <[self:=b']> s, Return tt)
  ∧ ∀ billing_id, billings s !! billing_id = Some self →
      process_payment billing_id amount now s
      = Some (set_stdout
                (λ out, out ++ [[Lit "Payment of "; Float amount;
                                 Lit " applied to billing '";
                                 Str (Billing.billing_id b);
                                 Lit "'. New Status: "; Str "Paid"; Lit nl]])
                (set_billing_objs <[self:=b']> s), Return tt).
Proof.
  intros Hb Hpos Hfull b'.
  assert (apply_payment self amount now s
          = Some (set_billing_objs <[self:=b']> s, Return tt)) as Hrun.
  { unfold apply_payment. rewrite (bind_Some _ _ _ _ _ (deref_Some _ _ _ _ Hb)).
    unfold Billing.apply_payment. by rewrite (ltb_leb_false _ _ Hpos), Hfull. }
  split; [exact Hrun|]. intros billing_id Hidx. unfold process_payment.
  erewrite bind_Some by (unfold gets; reflexivity). simpl. rewrite Hidx.
  rewrite (bind_Some _ _ _ _ _ Hrun).
  by rewrite (bind_Some _ _ _ _ b' (deref_Some billing_objs self b' _
                                      (lookup_insert_eq _ _ _))).
Qed.

Lemma apply_payment_full_witness :
  (∃ b', billing_objs demo_billed !! 0 = Some b'
         ∧ Billing.amount_due b' = 100%float)
  ∧ process_payment "b1" 100 1 demo_billed
    = Some (set_stdout
              (λ out, out ++ [[Lit "Payment of "; Float 100;
                               Lit " applied to billing '"; Str "b1";
                               Lit "'. New Status: "; Str "Paid"; Lit nl]])
              (set_billing_objs
                 <[0:=Billing.mk "b1" "p1" 0 2592000000000 "Paid" "visit"]>
                 demo_billed), Return tt)
  ∧ apply_payment 0 250 1 demo_billed
    = Some (set_billing_objs
              <[0:=Billing.mk "b1" "p1" 0 2592000000000 "Paid" "visit"]>
              demo_billed, Return tt).
Proof.
  split_and!.
  - eexists. split; [vm_compute; reflexivity|reflexivity].
  - apply (apply_payment_full demo_billed 0
             (Billing.mk "b1" "p1" 100 2592000000000 "Unpaid" "visit") 100 1).
    + vm_compute. reflexivity.
    + vm_compute. reflexivity.
    + vm_compute. reflexivity.
    + vm_compute. reflexivity.
  - apply (apply_payment_full demo_billed 0
             (Billing.mk "b1" "p1" 100 2592000000000 "Unpaid" "visit") 250 1).
    + vm_compute. reflexivity.
    + vm_compute. reflexivity.
    + vm_compute. reflexivity.
Defined.

(** X3: [apply_payment] raises "Invalid payment amount." exactly when the
    payment is NaN, or the amount due is NaN and the payment is positive; the
    billing is then left as it was. *)
Theorem apply_payment_invalid_iff s self b amount now :
  billing_objs s !! self = Some b →
  apply_payment self amount now s
    = Some (s, Raise (BillingError "Invalid payment amount."))
  ↔ PrimFloat.is_nan amount = true
    ∨ (PrimFloat.is_nan (Billing.amount_due b) = true
       ∧ PrimFloat.ltb 0 amount = true).
Proof.
  intros Hb. unfold apply_payment.
  rewrite (bind_Some _ _ _ _ _ (deref_Some _ _ _ _ Hb)).
  unfold Billing.apply_payment. split.
  - destruct (PrimFloat.leb amount 0) eqn:H0; [done|].
    destruct (PrimFloat.leb (Billing.amount_due b) amount) eqn:H1; [done|].
    destruct (PrimFloat.ltb 0 amount && PrimFloat.ltb amount (Billing.amount_due b))
      eqn:H2; [by case_bool_decide|]. intros _.
    destruct (PrimFloat.is_nan amount) eqn:Ha; [by left|]. right.
    assert (PrimFloat.ltb 0 amount = true) as Hpos
      by (by apply leb_false_ltb).
    split; [|done]. rewrite Hpos in H2. simpl in H2.
    destruct (PrimFloat.is_nan (Billing.amount_due b)) eqn:Hd; [done|].
    by rewrite (leb_false_ltb _ _ Hd Ha H1) in H2.
  - intros [Ha|[Hd Hpos]].
    + destruct (nan_compares_false amount 0 Ha) as (-> & _ & _ & ->).
      by destruct (nan_compares_false amount (Billing.amount_due b) Ha)
        as (_ & -> & _ & _).
    + rewrite (ltb_leb_false _ _ Hpos).
      destruct (nan_compares_false (Billing.amount_due b) amount Hd)
        as (-> & _ & _ & ->).
      by rewrite andb_false_r.
Qed.

Lemma apply_payment_invalid_iff_witness :
  apply_payment 0 nan 1 demo_billed
  = Some (demo_billed, Raise (BillingError "Invalid payment amount.")).
Proof.
  apply (apply_payment_invalid_iff demo_billed 0
           (Billing.mk "b1" "p1" 100 2592000000000 "Unpaid" "visit") nan 1).
  - vm_compute. reflexivity.
  - left. vm_compute. reflexivity.
Defined.

Lemma Billing_apply_payment_ok b amount now b' :
  Billing.apply_payment b amount now = inr b' → billing_ok b → billing_ok b'.
Proof.
  unfold Billing.apply_payment, billing_ok. intros H [Hst Hpaid].
  destruct (PrimFloat.leb amount 0) eqn:H0; [done|].
  destruct (PrimFloat.leb (Billing.amount_due b) amount) eqn:H1.
  { injection H as <-. simpl. split; [by right; left|done]. }
  destruct (PrimFloat.ltb 0 amount) eqn:H2; [|done].
  destruct (PrimFloat.ltb amount (Billing.amount_due b)) eqn:H3; [|done].
  simpl in H. injection H as <-.
  assert (Billing.status b ≠ "Paid") as Hnot.
  { intros Hp. rewrite (Hpaid Hp) in H3. apply ltb_leb in H3. congruence. }
  case_bool_decide; simpl; (split; [|done]).
  - by right; right.
  - done.
Qed.

Lemma billings_evolve_refl m : billings_evolve m m.
Proof.
  split; [|intros l a' H1 H2; congruence].
  intros l b H. exists b. split; [done|by left].
Qed.

Lemma billings_evolve_paid m l b amount now b' :
  m !! l = Some b → Billing.apply_payment b amount now = inr b' →
  billings_evolve m (<[l:=b']> m).
Proof.
  intros Hl Hpay. split.
  - intros l0 b0 H0. destruct (decide (l = l0)) as [->|Hne].
    + exists b'. rewrite lookup_insert_eq. split; [done|]. right.
      exists amount, now. congruence.
    + exists b0. rewrite lookup_insert_ne by done. split; [done|by left].
  - intros l0 b0 H0 Hnone. destruct (decide (l = l0)) as [->|Hne]; [congruence|].
    rewrite lookup_insert_ne in H0 by done. congruence.
Qed.

Lemma billings_evolve_fresh m l b' :
  m !! l = None → Billing.status b' = "Unpaid" →
  billings_evolve m (<[l:=b']> m).
Proof.
  intros Hl Hst. split.
  - intros l0 b0 H0. exists b0. split; [|by left].
    rewrite lookup_insert_ne; [done|]. intros ->. by rewrite Hl in H0.
  - intros l0 b0 H0 Hnone. destruct (decide (l = l0)) as [->|Hne].
    + rewrite lookup_insert_eq in H0. congruence.
    + rewrite lookup_insert_ne in H0 by done. congruence.
Qed.

(** What [Billing.__init__] leaves when it returns. *)
Lemma Billing_init_inr patient_id amount description bid uuid4 now b :
  Billing.init patient_id amount description bid uuid4 now = inr b →
  (datetime_min ≤ now + timedelta_days 30 ≤ datetime_max)%Z
  ∧ b = Billing.mk (id_or_uuid bid uuid4) patient_id amount
          (now + timedelta_days 30) "Unpaid" description.
Proof.
  unfold Billing.init, datetime_add. case_decide; [|done].
  by intros [= <-].
Qed.

Lemma exec_billings_evolve o s s' e :
  exec o s = Some (s', e) →
  billings_evolve (billing_objs s) (billing_objs s').
Proof.
  destruct o; simpl; intros H.
  all: try (autounfold with calls in H; simpl in H; frame_case; simplify_eq;
    simpl;
    first [ apply billings_evolve_refl
          | by apply billings_evolve_fresh; [apply fresh_lookup_None|]
          | by eapply billings_evolve_paid ]).
  - unfold discard in H.
    destruct (schedule_appointment _ _ _ _ _ s) as [[s1 [a|e1]]|] eqn:E;
      simplify_eq.
    + apply schedule_appointment_Return in E
        as (pl & p & dl & d & _ & _ & _ & _ & _ & _ & _ & _ & _ & _ & _ & ->).
      apply billings_evolve_refl.
    + apply schedule_appointment_Raise in E as ->. apply billings_evolve_refl.
  - unfold discard in H.
    destruct (confirm_appointment _ _ s) as [[s1 [a|e1]]|] eqn:E; simplify_eq;
      (rewrite (confirm_appointment_written _ _ _ _ _ E);
       apply billings_evolve_refl).
  - unfold discard in H.
    destruct (reschedule_appointment _ _ s) as [[s1 [a|e1]]|] eqn:E;
      simplify_eq;
      (rewrite (reschedule_appointment_written _ _ _ _ _ E);
       apply billings_evolve_refl).
  - autounfold with calls in H; simpl in H; frame_case; simplify_eq; simpl;
      try apply billings_evolve_refl.
    apply billings_evolve_fresh; [apply fresh_lookup_None|].
    match goal with
    | Hinit : Billing.init _ _ _ _ _ _ = inr _ |- _ =>
        by apply Billing_init_inr in Hinit as [_ ->]
    end.
Qed.

(** A property of billings that holds of "Unpaid" ones and that
    [apply_payment] keeps, holds of every billing of a reachable store. *)
Lemma reachable_billings (P : Billing.t → Prop) s l b :
  (∀ b, Billing.status b = "Unpaid" → P b) →
  (∀ b amount now b', Billing.apply_payment b amount now = inr b' → P b → P b') →
  reachable s → billing_objs s !! l = Some b → P b.
Proof.
  intros Hnew Hpay Hr. revert l b.
  induction Hr as [|o s s' e _ IH Hex]; intros l b Hb.
  { simpl in Hb. by rewrite lookup_empty in Hb. }
  destruct (exec_billings_evolve _ _ _ _ Hex) as [Hold Hfresh].
  destruct (billing_objs s !! l) as [b0|] eqn:E.
  - destruct (Hold l b0 E) as (b' & Hb' & [->|(amount & now & Hp)]);
      simplify_eq; [by eapply IH|].
    eapply Hpay; [exact Hp|by eapply IH].
  - apply Hnew. by apply (Hfresh l).
Qed.

(** X4: in every reachable store a billing is "Unpaid", "Paid" or "Overdue",
    and a "Paid" billing has nothing due: only [apply_payment] writes the
    status, and it writes "Paid" together with 0.0. *)
Theorem reachable_billing_ok s l b :
  reachable s → billing_objs s !! l = Some b → billing_ok b.
Proof.
  apply (reachable_billings billing_ok).
  - intros b0 Hst. split; [by left|]. congruence.
  - intros b0 amount now b'. apply Billing_apply_payment_ok.
Qed.

Lemma reachable_billing_ok_witness :
  billing_ok (Billing.mk "b1" "p1" 0 2592000000000 "Paid" "visit").
Proof.
  apply (reachable_billing_ok demo_paid 0).
  - apply (run_reachable
             (demo_setup ++ [CreateBilling "p1" 100 "visit" (Some "b1") "uuid-b" 0;
                             ProcessPayment "b1" 100 1]) init).
    + constructor.
    + vm_compute. reflexivity.
  - vm_compute. reflexivity.
Defined.

Lemma Billing_paid_fixed b amount now b' :
  billing_ok b → Billing.status b = "Paid" →
  Billing.apply_payment b amount now = inr b' → b' = b.
Proof.
  intros [_ Hzero] Hp. specialize (Hzero Hp).
  unfold Billing.apply_payment.
  destruct (PrimFloat.leb amount 0) eqn:H0; [done|].
  destruct (PrimFloat.leb (Billing.amount_due b) amount) eqn:H1.
  { intros [= <-]. destruct b. simpl in *. by subst. }
  destruct (PrimFloat.ltb 0 amount) eqn:H2; [|done].
  destruct (PrimFloat.ltb amount (Billing.amount_due b)) eqn:H3; [|done].
  rewrite Hzero in H3. apply ltb_leb in H3. congruence.
Qed.

(** X5: "Paid" is final.  In a reachable store no operation changes a "Paid"
    billing: a further payment either raises or writes "Paid" and 0.0 again,
    and nothing else writes billings. *)
Theorem paid_billing_is_kept s o s' e l b :
  reachable s →
  exec o s = Some (s', e) →
  billing_objs s !! l = Some b →
  Billing.status b = "Paid" →
  billing_objs s' !! l = Some b.
Proof.
  intros Hr Hex Hb Hp.
  destruct (exec_billings_evolve _ _ _ _ Hex) as [Hold _].
  destruct (Hold l b Hb) as (b' & Hb' & [->|(amount & now & Hpay)]); [done|].
  rewrite Hb'. f_equal. eapply Billing_paid_fixed; [|done|exact Hpay].
  apply (reachable_billings billing_ok s l); [| |done|done].
  - intros b0 Hst. split; [by left|]. congruence.
  - intros b0 amount0 now0 b0'. apply Billing_apply_payment_ok.
Qed.

Lemma paid_billing_is_kept_witness :
  ∃ s', exec (ProcessPayment "b1" 40 2) demo_paid = Some (s', None)
        ∧ billing_objs s' !! 0
          = Some (Billing.mk "b1" "p1" 0 2592000000000 "Paid" "visit").
Proof.
  pose (s' := default init (run [ProcessPayment "b1" 40 2] demo_paid)).
  assert (exec (ProcessPayment "b1" 40 2) demo_paid = Some (s', None)) as Hex
    by (vm_compute; reflexivity).
  exists s'. split; [exact Hex|].
  apply (paid_billing_is_kept demo_paid (ProcessPayment "b1" 40 2) s' None).
  - apply (run_reachable
             (demo_setup ++ [CreateBilling "p1" 100 "visit" (Some "b1") "uuid-b" 0;
                             ProcessPayment "b1" 100 1]) init).
    + constructor.
    + vm_compute. reflexivity.
  - exact Hex.
  - vm_compute. reflexivity.
  - reflexivity.
Defined.

(** ** Users: registration and removal *)

Lemma register_user_eq user u s :
  user_objs s !! user = Some u →
  register_user user s =
  if decide (is_Some (users_by_email s !! User.email (user_base u))) then
    Some (s, Raise (AuthenticationError "User already exists with this email."))
  else
    Some (set_stdout (λ out, out ++ [registered_line u])
            (set_users_by_email <[User.email (user_base u):=user]>
               (set_users <[User.user_id (user_base u):=user]> s)), Return tt).
Proof.
  intros Hu. unfold register_user.
  rewrite (bind_Some _ _ _ _ _ (deref_Some _ _ _ _ Hu)).
  unfold_calls. by case_decide.
Qed.

Lemma remove_user_eq id s :
  remove_user id s =
  match users s !! id with
  | None => Some (s, Raise (RecordNotFoundError "User not found."))
  | Some l =>
      match user_objs s !! l with
      | None => None
      | Some u =>
          if decide (is_Some (users_by_email s !! User.email (user_base u)))
          then
            Some (set_stdout (λ out, out ++ [removed_line u id])
                    (set_users (delete id)
                       (set_users_by_email (delete (User.email (user_base u)))
                          s)), Return tt)
          else Some (s, Raise (KeyError (User.email (user_base u))))
      end
  end.
Proof.
  unfold remove_user. unfold_calls.
  destruct (users s !! id) as [l|]; [|done]. simpl.
  destruct (user_objs s !! l) as [u|]; [|done]. simpl.
  by case_decide.
Qed.

(** X6: e-mail addresses are unique among registered users.  Once
    [register_user] has returned for a user, the user is found under its id
    and under its e-mail address, and registering any user object with that
    e-mail address, the same object included, raises [AuthenticationError]
    and changes nothing. *)
Theorem registered_email_is_taken s s' user u other u' :
  user_objs s !! user = Some u →
  register_user user s = Some (s', Return tt) →
  user_objs s' !! other = Some u' →
  User.email (user_base u') = User.email (user_base u) →
  users s' !! User.user_id (user_base u) = Some user
  ∧ users_by_email s' !! User.email (user_base u) = Some user
  ∧ register_user other s'
    = Some (s', Raise (AuthenticationError
                         "User already exists with this email.")).
Proof.
  intros Hu Hreg Hother Hemail.
  rewrite (register_user_eq _ _ _ Hu) in Hreg.
  case_decide as Hfree; [done|]. injection Hreg as <-.
  split_and!.
  - simpl. apply lookup_insert_eq.
  - simpl. apply lookup_insert_eq.
  - rewrite (register_user_eq _ _ _ Hother), Hemail. simpl.
    rewrite lookup_insert_eq. by rewrite decide_True by by eexists.
Qed.

Lemma registered_email_is_taken_witness :
  users demo_rival !! "d1" = Some 1
  ∧ users_by_email demo_rival !! "d1@example.org" = Some 1
  ∧ register_user 2 demo_rival
    = Some (demo_rival, Raise (AuthenticationError
                                 "User already exists with this email.")).
Proof.
  pose (mid := default init
          (run [MkPatient "P1" "p1@example.org" "secret" ∅ (Some "p1") "uuid-0";
                MkDoctor "D1" "d1@example.org" "secret" "Cardiology" (Some "d1")
                  "uuid-1";
                RegisterUser 0;
                MkDoctor "D2" "d1@example.org" "other" "Surgery" (Some "d2")
                  "uuid-2"] init)).
  assert (register_user 1 mid
          = Some (default init (run [RegisterUser 1] mid), Return tt)) as Hreg
    by (vm_compute; reflexivity).
  assert (default init (run [RegisterUser 1] mid) = demo_rival) as Heq.
  { vm_compute. reflexivity. }
  rewrite Heq in Hreg.
  apply (registered_email_is_taken mid demo_rival 1
           (ADoctor (Doctor.init "D1" "d1@example.org" "secret" "Cardiology"
                       (Some "d1") "uuid-1"))
           2
           (ADoctor (Doctor.init "D2" "d1@example.org" "other" "Surgery"
                       (Some "d2") "uuid-2"))).
  - vm_compute. reflexivity.
  - exact Hreg.
  - vm_compute. reflexivity.
  - reflexivity.
Defined.

(** X7: registering a user under an id that is not in use and removing that
    id again restores both indexes; the user object stays in the store, and
    only [stdout] has grown by the two lines. *)
Theorem register_then_remove s s1 user u :
  user_objs s !! user = Some u →
  users s !! User.user_id (user_base u) = None →
  register_user user s = Some (s1, Return tt) →
  remove_user (User.user_id (user_base u)) s1
  = Some (set_stdout
            (λ out, out ++ [registered_line u;
                            removed_line u (User.user_id (user_base u))]) s,
          Return tt).
Proof.
  intros Hu Hid Hreg.
  rewrite (register_user_eq _ _ _ Hu) in Hreg.
  case_decide as Hfree; [done|]. injection Hreg as <-.
  assert (users_by_email s !! User.email (user_base u) = None) as Hemail.
  { destruct (users_by_email s !! User.email (user_base u)) eqn:E; [|done].
    destruct Hfree. by eexists. }
  rewrite remove_user_eq. simpl.
  rewrite lookup_insert_eq, Hu, lookup_insert_eq.
  rewrite decide_True by by eexists.
  do 2 f_equal. destruct s. unfold set_stdout, set_users, set_users_by_email.
  simpl in *. rewrite !delete_insert_id by done.
  by rewrite <- app_assoc.
Qed.

Lemma register_then_remove_witness :
  ∃ s1 u,
    register_user 2 demo_newcomer = Some (s1, Return tt)
    ∧ remove_user "uuid-p2" s1
      = Some (set_stdout (λ out, out ++ [registered_line u;
                                         removed_line u "uuid-p2"])
                demo_newcomer, Return tt).
Proof.
  pose (u := APatient (Patient.init "P2" "p2@example.org" "secret2" ∅ None
                         "uuid-p2")).
  pose (s1 := default init (run [RegisterUser 2] demo_newcomer)).
  assert (register_user 2 demo_newcomer = Some (s1, Return tt)) as Hreg
    by (vm_compute; reflexivity).
  exists s1, u. split; [exact Hreg|].
  apply (register_then_remove demo_newcomer s1 2 u).
  - vm_compute. reflexivity.
  - vm_compute. reflexivity.
  - exact Hreg.
Defined.



(** ** User objects only grow *)

Lemma grows_refl u : grows u u.
Proof. split; [done|]. destruct u; simpl; [by split_and!|by split_and!|done]. Qed.

Lemma grows_trans u1 u2 u3 : grows u1 u2 → grows u2 u3 → grows u1 u3.
Proof.
  intros [Hb1 H1] [Hb2 H2]. split; [congruence|].
  destruct u1, u2, u3; try done.
  - destruct H1 as (? & ? & ? & ?), H2 as (? & ? & ? & ?).
    split_and!; try (by etrans); congruence.
  - destruct H1 as (? & ? & ? & ?), H2 as (? & ? & ? & ?).
    split_and!; try (by etrans); congruence.
Qed.

Lemma users_evolve_refl us : users_evolve us us.
Proof. intros l u Hl. exists u. split; [done|apply grows_refl]. Qed.

Lemma users_evolve_trans us1 us2 us3 :
  users_evolve us1 us2 → users_evolve us2 us3 → users_evolve us1 us3.
Proof.
  intros H12 H23 l u Hl. destruct (H12 l u Hl) as (u2 & Hl2 & Hg2).
  destruct (H23 l u2 Hl2) as (u3 & Hl3 & Hg3).
  exists u3. split; [done|by eapply grows_trans].
Qed.

Lemma users_evolve_fresh us l u :
  us !! l = None → users_evolve us (<[l:=u]> us).
Proof.
  intros Hl l0 u0 H0. exists u0. split; [|apply grows_refl].
  rewrite lookup_insert_ne; [done|]. intros ->. congruence.
Qed.

Lemma users_evolve_update us l u u' :
  us !! l = Some u → grows u u' → users_evolve us (<[l:=u']> us).
Proof.
  intros Hl Hg l0 u0 H0. destruct (decide (l = l0)) as [->|Hne].
  - exists u'. rewrite lookup_insert_eq. split; [done|]. congruence.
  - exists u0. rewrite lookup_insert_ne by done. split; [done|apply grows_refl].
Qed.

Ltac grows_step :=
  split; [done|]; simpl; split_and!; try done;
  try (by apply prefix_app_r); try set_solver.

Lemma exec_users_evolve o s s' e :
  exec o s = Some (s', e) → users_evolve (user_objs s) (user_objs s').
Proof.
  destruct o; simpl; intros H.
  all: try (autounfold with calls in H; simpl in H; frame_case; simplify_eq;
    simpl;
    first [ apply users_evolve_refl
          | by apply users_evolve_fresh, fresh_lookup_None
          | eapply users_evolve_update; [eassumption|grows_step] ]).
  - unfold discard in H.
    destruct (schedule_appointment _ _ _ _ _ s) as [[s1 [a|e1]]|] eqn:E;
      simplify_eq.
    + apply schedule_appointment_Return in E
        as (pl & p & dl & d & _ & Hp & _ & Hd & _ & _ & _ & _ & _ & -> & _ & _).
      assert (pl ≠ dl) by congruence.
      intros l u Hl.
      destruct (decide (l = dl)) as [->|]; [|destruct (decide (l = pl)) as [->|]].
      * rewrite lookup_insert_eq. eexists. split; [done|].
        simplify_eq. grows_step.
      * rewrite lookup_insert_ne, lookup_insert_eq by done.
        eexists. split; [done|]. simplify_eq. grows_step.
      * rewrite !lookup_insert_ne by done.
        exists u. split; [done|apply grows_refl].
    + apply schedule_appointment_Raise in E as ->. apply users_evolve_refl.
  - unfold discard in H.
    destruct (confirm_appointment _ _ s) as [[s1 [a|e1]]|] eqn:E; simplify_eq;
      (rewrite (confirm_appointment_written _ _ _ _ _ E);
       apply users_evolve_refl).
  - unfold discard in H.
    destruct (reschedule_appointment _ _ s) as [[s1 [a|e1]]|] eqn:E;
      simplify_eq;
      (rewrite (reschedule_appointment_written _ _ _ _ _ E);
       apply users_evolve_refl).
Qed.

Lemma run_users_evolve script s s' :
  run script s = Some s' → users_evolve (user_objs s) (user_objs s').
Proof.
  revert s. induction script as [|o script IH]; intros s; simpl.
  { intros [= <-]. apply users_evolve_refl. }
  destruct (exec o s) as [[s1 e]|] eqn:E; [|done].
  intros Hrun. eapply users_evolve_trans; [by eapply exec_users_evolve|by apply IH].
Qed.

(** ** Every outcome of [schedule_appointment] *)

Lemma schedule_appointment_eq patient_id doctor_id t aid uuid4 s :
  schedule_appointment patient_id doctor_id t aid uuid4 s =
  match users s !! patient_id, users s !! doctor_id with
  | Some pl, Some dl =>
      match user_objs s !! pl, user_objs s !! dl with
      | Some (APatient p), Some (ADoctor d) =>
          match for_each (Doctor.appointments d)
                  (conflict_check t "Doctor is not available at this time.") s
          with
          | Some (_, Return _) =>
              Some (booked patient_id doctor_id t aid uuid4 pl p dl d s,
                    Return (fresh (dom (appointment_objs s))))
          | Some (_, Raise e) => Some (s, Raise e)
          | None => None
          end
      | None, _ | _, None => None
      | _, _ => Some (s, Raise (RecordNotFoundError
                                  "Invalid patient or doctor ID."))
      end
  | Some pl, None =>
      match user_objs s !! pl with
      | None => None
      | _ => Some (s, Raise (RecordNotFoundError
                               "Invalid patient or doctor ID."))
      end
  | None, Some dl =>
      match user_objs s !! dl with
      | None => None
      | _ => Some (s, Raise (RecordNotFoundError
                               "Invalid patient or doctor ID."))
      end
  | None, None =>
      Some (s, Raise (RecordNotFoundError "Invalid patient or doctor ID."))
  end.
Proof.
  unfold schedule_appointment. rewrite bind_eq, get_patient_eq.
  destruct (users s !! patient_id) as [pl|] eqn:Hpl;
    [destruct (user_objs s !! pl) as [[p|d0|a0]|] eqn:Hp|];
    (destruct (users s !! doctor_id) as [dl|] eqn:Hdl;
     [destruct (user_objs s !! dl) as [[p'|d|a']|] eqn:Hd|]); try done;
    rewrite bind_eq, get_doctor_eq, Hdl, ?Hd; try done.
  rewrite bind_eq.
  destruct (for_each_conflict_check_cases (Doctor.appointments d) t
              "Doctor is not available at this time." s) as [E|[E|E]];
    rewrite E; try done.
  assert (pl ≠ dl) by congruence.
  unfold_calls. simplify_map_eq.
  reflexivity.
Qed.

(** ** The indexes and the objects they point to *)

(** Only [register_user] and [remove_user] write the two user indexes. *)
Lemma exec_indexes o s s' e :
  exec o s = Some (s', e) →
  (users s' = users s ∧ users_by_email s' = users_by_email s)
  ∨ (∃ l u, user_objs s !! l = Some u
       ∧ users s' = <[User.user_id (user_base u):=l]> (users s)
       ∧ users_by_email s' = <[User.email (user_base u):=l]> (users_by_email s))
  ∨ (∃ id email, users s' = delete id (users s)
       ∧ users_by_email s' = delete email (users_by_email s)).
Proof.
  destruct o; simpl; intros H.
  all: try (autounfold with calls in H; simpl in H; frame_case; simplify_eq;
    simpl;
    first [ by left
          | by right; left; eexists _, _
          | by right; right; eexists _, _ ]).
  - unfold discard in H. rewrite schedule_appointment_eq in H.
    frame_case; simplify_eq; by left.
  - unfold discard in H.
    destruct (confirm_appointment _ _ s) as [[s1 [a|e1]]|] eqn:E; simplify_eq;
      rewrite (confirm_appointment_written _ _ _ _ _ E); by left.
  - unfold discard in H.
    destruct (reschedule_appointment _ _ s) as [[s1 [a|e1]]|] eqn:E;
      simplify_eq;
      rewrite (reschedule_appointment_written _ _ _ _ _ E); by left.
Qed.

Lemma index_consistent_init : index_consistent init.
Proof. split; intros ? ? H; vm_compute in H; done. Qed.

Lemma exec_index_consistent o s s' e :
  index_consistent s → exec o s = Some (s', e) → index_consistent s'.
Proof.
  intros [Hid Hem] H.
  pose proof (exec_users_evolve _ _ _ _ H) as Hev.
  assert (∀ l u, user_objs s !! l = Some u →
            ∃ u', user_objs s' !! l = Some u'
                  ∧ User.user_id (user_base u') = User.user_id (user_base u)
                  ∧ User.email (user_base u') = User.email (user_base u))
    as Hkept.
  { intros l u Hu. destruct (Hev l u Hu) as (u' & Hu' & Hb & _).
    exists u'. by rewrite Hb. }
  assert (∀ id l, users s !! id = Some l →
            ∃ u, user_objs s' !! l = Some u
                 ∧ User.user_id (user_base u) = id) as Hid'.
  { intros id l Hl. destruct (Hid id l Hl) as (u & Hu & <-).
    destruct (Hkept l u Hu) as (u' & Hu' & Hi & _). by exists u'. }
  assert (∀ email l, users_by_email s !! email = Some l →
            ∃ u, user_objs s' !! l = Some u
                 ∧ User.email (user_base u) = email) as Hem'.
  { intros email l Hl. destruct (Hem email l Hl) as (u & Hu & <-).
    destruct (Hkept l u Hu) as (u' & Hu' & _ & He). by exists u'. }
  destruct (exec_indexes _ _ _ _ H)
    as [[Hus Hby]|[(l & u & Hu & Hus & Hby)|(id & email & Hus & Hby)]];
    unfold index_consistent; rewrite Hus, Hby.
  - done.
  - destruct (Hkept l u Hu) as (u' & Hu' & Hi & He).
    split; intros k l0; rewrite lookup_insert; case_decide; simplify_eq;
      auto; intros [= <-]; by exists u'.
  - split; intros k l0 Hdel; apply lookup_delete_Some in Hdel as [_ Hk]; auto.
Qed.

Lemma index_consistent_reachable s :
  reachable s → index_consistent s.
Proof.
  induction 1 as [|o s s' e _ IH H]; [apply index_consistent_init|].
  by eapply exec_index_consistent.
Qed.

(** X9: in every store the operations of [op] reach from the empty one, the
    id under which a user is indexed is the [user_id] of the object, and the
    address under which it is indexed is its [email]: the two indexes never
    point to a missing object or to an object of another user.  ([op] has no
    profile update: none of its operations writes a name, an id or an
    address after the object is created.) *)
Theorem reachable_index_consistent s :
  reachable s → index_consistent s.
Proof.
  induction 1 as [|o s s' e _ IH H].
  - split; intros ? ? Hl; simpl in Hl; by rewrite lookup_empty in Hl.
  - by eapply exec_index_consistent.
Qed.

Lemma reachable_index_consistent_witness : index_consistent demo_booked.
Proof.
  apply (reachable_index_consistent demo_booked).
  apply (run_reachable
           (demo_setup ++ [ScheduleAppointment "p1" "d1" t_10h None "uuid-a1"])
           init).
  - constructor.
  - vm_compute. reflexivity.
Defined.

(** ** Reading medical records *)

Lemma get_medical_records_eq patient_id s :
  get_medical_records patient_id s =
  match users s !! patient_id with
  | None => Some (s, Raise (RecordNotFoundError "Patient not found."))
  | Some l =>
      match user_objs s !! l with
      | Some (APatient p) => Some (s, Return (Patient.medical_history p))
      | Some _ => Some (s, Raise (RecordNotFoundError "Patient not found."))
      | None => None
      end
  end.
Proof.
  unfold get_medical_records. rewrite bind_eq, get_patient_eq.
  destruct (users s !! patient_id) as [l|]; [|done].
  by destruct (user_objs s !! l) as [[]|].
Qed.

Lemma access_medical_records_eq requester u patient_id s :
  user_objs s !! requester = Some u →
  access_medical_records requester patient_id s =
  match u with
  | APatient p =>
      if decide (User.user_id (Patient.base p) = patient_id)
      then get_medical_records patient_id s
      else Some (s, Raise (AuthorizationError
                             "Patients can only access their own medical records."))
  | ADoctor d =>
      if decide (patient_id ∈ Doctor.patients d)
      then get_medical_records patient_id s
      else Some (s, Raise (AuthorizationError
                             "Doctor not assigned to this patient."))
  | AnAdministrator _ => get_medical_records patient_id s
  end.
Proof.
  intros Hu. unfold access_medical_records.
  rewrite (bind_Some _ _ _ _ _ (deref_Some _ _ _ _ Hu)).
  destruct u as [p|d|a]; simpl.
  - destruct (decide (User.user_id (Patient.base p) = patient_id));
      [rewrite decide_False by (intros [_ Hne]; by apply Hne)
      |rewrite decide_True by (by split)];
      done.
  - rewrite bind_eq. unfold_calls.
    destruct (decide (patient_id ∈ Doctor.patients d));
      [rewrite decide_False by (intros Hn; by apply Hn)
      |rewrite decide_True by done];
      done.
  - done.
Qed.

(** X10: access to a patient's records is never taken back.  A doctor
    object that has a patient id in its set keeps it through any script of
    operations, so as long as the id resolves to the patient object, the
    doctor's request returns a history, and that history starts with the
    records the patient had before: records are only ever appended. *)
Theorem access_is_never_revoked script s s' requester d patient_id pl p :
  user_objs s !! requester = Some (ADoctor d) →
  patient_id ∈ Doctor.patients d →
  user_objs s !! pl = Some (APatient p) →
  run script s = Some s' →
  users s' !! patient_id = Some pl →
  ∃ history,
    access_medical_records requester patient_id s' = Some (s', Return history)
    ∧ Patient.medical_history p `prefix_of` history.
Proof.
  intros Hd Hin Hp Hrun Hpl.
  apply run_users_evolve in Hrun.
  destruct (Hrun _ _ Hd) as ([p'|d'|a'] & Hd' & _ & Hg); try done.
  destruct Hg as (_ & _ & Hsub & _).
  destruct (Hrun _ _ Hp) as ([p'|d0|a'] & Hp' & _ & Hg); try done.
  destruct Hg as (Hpre & _).
  exists (Patient.medical_history p'). split; [|done].
  rewrite (access_medical_records_eq _ _ _ _ Hd'). simpl.
  rewrite decide_True by set_solver.
  by rewrite get_medical_records_eq, Hpl, Hp'.
Qed.

Lemma access_is_never_revoked_witness :
  ∃ history,
    access_medical_records 1 "p1" demo_later = Some (demo_later, Return history)
    ∧ [0] `prefix_of` history.
Proof.
  apply (access_is_never_revoked afterwards demo_treated_booked demo_later 1
           (Doctor.mk (User.mk "d1" "D1" "d1@example.org"
                         (sha256_hexdigest "secret"))
              "Cardiology" [0] ({["p1"]} ∪ ∅) ∅)
           "p1" 0
           (Patient.mk (User.mk "p1" "P1" "p1@example.org"
                          (sha256_hexdigest "secret")) [0] [0] [] ∅)).
  - vm_compute. reflexivity.
  - simpl. set_solver.
  - vm_compute. reflexivity.
  - vm_compute. reflexivity.
  - vm_compute. reflexivity.
Defined.

(** ** Booking *)

(** X11: with a patient under [patient_id], a doctor under [doctor_id] and no
    "Scheduled" appointment at [t] in the doctor's list, [schedule_appointment]
    returns a new appointment object: "Scheduled" at [t] with empty notes,
    found under its id, last in the list of the doctor and in the list of the
    patient; the patient's id is in the doctor's set, one line is printed,
    and the object did not exist before. *)
Theorem schedule_appointment_books
    s patient_id doctor_id t aid uuid4 pl p dl d :
  users s !! patient_id = Some pl →
  user_objs s !! pl = Some (APatient p) →
  users s !! doctor_id = Some dl →
  user_objs s !! dl = Some (ADoctor d) →
  Forall (free_at s t) (Doctor.appointments d) →
  ∃ s' a,
    schedule_appointment patient_id doctor_id t aid uuid4 s
    = Some (s', Return a)
    ∧ appointment_objs s !! a = None
    ∧ appointments s' !! id_or_uuid aid uuid4 = Some a
    ∧ appointment_objs s'
      = <[a:=Appointment.mk (id_or_uuid aid uuid4) patient_id doctor_id t
               "Scheduled" ""]> (appointment_objs s)
    ∧ user_objs s' !! dl
      = Some (ADoctor (Doctor.mk (Doctor.base d) (Doctor.specialization d)
                         (Doctor.appointments d ++ [a])
                         ({[patient_id]} ∪ Doctor.patients d)
                         (Doctor.schedule d)))
    ∧ user_objs s' !! pl
      = Some (APatient (Patient.set_appointments p
                          (Patient.appointments p ++ [a])))
    ∧ (∀ l, l ≠ dl → l ≠ pl → user_objs s' !! l = user_objs s !! l)
    ∧ stdout s' = stdout s ++ [scheduled_line (id_or_uuid aid uuid4) t].
Proof.
  intros Hpl Hp Hdl Hd Hfree.
  assert (pl ≠ dl) by congruence.
  apply scan_Return with (msg := "Doctor is not available at this time.")
    in Hfree.
  eexists _, _. split.
  { by rewrite schedule_appointment_eq, Hpl, Hdl, Hp, Hd, Hfree. }
  simpl. split_and!; try done.
  - apply fresh_lookup_None.
  - apply lookup_insert_eq.
  - apply lookup_insert_eq.
  - by rewrite lookup_insert_ne, lookup_insert_eq.
  - intros l ? ?. by rewrite !lookup_insert_ne.
Qed.

Lemma schedule_appointment_books_witness :
  ∃ s' a,
    schedule_appointment "p1" "d1" t_10h None "uuid-a1" demo
    = Some (s', Return a)
    ∧ appointment_objs demo !! a = None
    ∧ appointments s' !! "uuid-a1" = Some a
    ∧ appointment_objs s'
      = <[a:=Appointment.mk "uuid-a1" "p1" "d1" t_10h "Scheduled" ""]>
          (appointment_objs demo)
    ∧ user_objs s' !! 1
      = Some (ADoctor (Doctor.mk (User.mk "d1" "D1" "d1@example.org"
                                    (sha256_hexdigest "secret"))
                         "Cardiology" ([] ++ [a]) ({["p1"]} ∪ ∅) ∅))
    ∧ user_objs s' !! 0
      = Some (APatient (Patient.mk (User.mk "p1" "P1" "p1@example.org"
                                      (sha256_hexdigest "secret"))
                          [] ([] ++ [a]) [] ∅))
    ∧ (∀ l, l ≠ 1 → l ≠ 0 → user_objs s' !! l = user_objs demo !! l)
    ∧ stdout s' = stdout demo ++ [scheduled_line "uuid-a1" t_10h].
Proof.
  apply (schedule_appointment_books demo "p1" "d1" t_10h None "uuid-a1" 0
           (Patient.mk (User.mk "p1" "P1" "p1@example.org"
                          (sha256_hexdigest "secret")) [] [] [] ∅)
           1
           (Doctor.mk (User.mk "d1" "D1" "d1@example.org"
                         (sha256_hexdigest "secret")) "Cardiology" [] ∅ ∅)).
  - vm_compute. reflexivity.
  - vm_compute. reflexivity.
  - vm_compute. reflexivity.
  - vm_compute. reflexivity.
  - constructor.
Defined.

Lemma scan_closed appts t msg s :
  Forall (λ l, is_Some (appointment_objs s !! l)) appts →
  for_each appts (conflict_check t msg) s = Some (s, Return tt)
  ∨ (for_each appts (conflict_check t msg) s
     = Some (s, Raise (SchedulingConflictError msg))
     ∧ ∃ l a, l ∈ appts ∧ appointment_objs s !! l = Some a ∧ blocks t a).
Proof.
  induction 1 as [|l appts [a Ha] _ IH]; [by left|].
  rewrite for_each_cons, conflict_check_eq, Ha.
  case_decide as Hb.
  - right. split; [done|]. exists l, a. split; [apply elem_of_cons; by left|done].
  - destruct IH as [IH|(IH & l0 & a0 & Hin & Hl0 & Hb0)]; [by left|].
    right. split; [done|]. exists l0, a0.
    split; [apply elem_of_cons; by right|done].
Qed.

(** X12: in a store the operations reach, [schedule_appointment] always comes
    back, and when it raises it leaves the store alone and has one of two
    reasons: [RecordNotFoundError] when the ids do not resolve to a patient
    and a doctor, [SchedulingConflictError] when the doctor's list has a
    "Scheduled" appointment at that time. *)
Theorem schedule_appointment_outcomes s patient_id doctor_id t aid uuid4 :
  reachable s →
  ∃ s' r,
    schedule_appointment patient_id doctor_id t aid uuid4 s = Some (s', r)
    ∧ match r with
      | Return a => scheduled patient_id doctor_id t aid uuid4 s s' a
      | Raise e =>
          s' = s
          ∧ ((e = RecordNotFoundError "Invalid patient or doctor ID."
              ∧ ¬ (is_patient s patient_id ∧ is_doctor s doctor_id))
             ∨ (e = SchedulingConflictError
                      "Doctor is not available at this time."
                ∧ is_patient s patient_id ∧ busy_at s doctor_id t))
      end.
Proof.
  intros Hr.
  pose proof (reachable_doctors_closed _ Hr) as Hclosed.
  destruct (index_consistent_reachable _ Hr) as [Hid _].
  pose proof (schedule_appointment_cases patient_id doctor_id t aid uuid4 s)
    as Hcases.
  rewrite schedule_appointment_eq in Hcases |- *.
  destruct (users s !! patient_id) as [pl|] eqn:Hpl;
    [destruct (Hid _ _ Hpl) as (u & Hu & _); rewrite Hu in Hcases |- *|];
    (destruct (users s !! doctor_id) as [dl|] eqn:Hdl;
     [destruct (Hid _ _ Hdl) as (u' & Hu' & _); rewrite Hu' in Hcases |- *|]).
  - destruct u as [p|d0|a0], u' as [p'|d|a'];
      try (eexists _, _; split; [done|]; split; [done|]; left; split; [done|];
           intros [(? & ? & ? & ?) (? & ? & ? & ?)]; congruence).
    destruct (scan_closed (Doctor.appointments d) t
                "Doctor is not available at this time." s (Hclosed _ _ Hu'))
      as [E|(E & l & a & Hin & Hl & Hb)]; rewrite E in Hcases |- *.
    + by eexists _, _.
    + eexists _, _. split; [done|]. split; [done|]. right.
      split; [done|]. split; [by exists pl, p|by exists dl, d, l, a].
  - destruct u; eexists _, _; (split; [done|]); (split; [done|]); left;
      (split; [done|]); intros [_ (? & ? & ? & ?)]; congruence.
  - destruct u'; eexists _, _; (split; [done|]); (split; [done|]); left;
      (split; [done|]); intros [(? & ? & ? & ?) _]; congruence.
  - eexists _, _. split; [done|]. split; [done|]. left. split; [done|].
    intros [(? & ? & ? & ?) _]; congruence.
Qed.

Lemma schedule_appointment_outcomes_witness :
  ∃ s' r,
    schedule_appointment "p1" "d1" t_10h None "uuid-a2" demo_booked
    = Some (s', r)
    ∧ match r with
      | Return a => scheduled "p1" "d1" t_10h None "uuid-a2" demo_booked s' a
      | Raise e =>
          s' = demo_booked
          ∧ ((e = RecordNotFoundError "Invalid patient or doctor ID."
              ∧ ¬ (is_patient demo_booked "p1" ∧ is_doctor demo_booked "d1"))
             ∨ (e = SchedulingConflictError
                      "Doctor is not available at this time."
                ∧ is_patient demo_booked "p1" ∧ busy_at demo_booked "d1" t_10h))
      end.
Proof.
  apply (schedule_appointment_outcomes demo_booked "p1" "d1" t_10h None
           "uuid-a2").
  apply (run_reachable
           (demo_setup ++ [ScheduleAppointment "p1" "d1" t_10h None "uuid-a1"])
           init).
  - constructor.
  - vm_compute. reflexivity.
Defined.

(** ** Cancelling *)

Lemma cancel_appointment_eq id s :
  cancel_appointment id s =
  match appointments s !! id with
  | None => Some (s, Raise (RecordNotFoundError "Appointment not found."))
  | Some l =>
      match appointment_objs s !! l with
      | None => None
      | Some a =>
          Some (set_stdout
                  (λ out, out ++ [cancelled_line (Appointment.appointment_id a)])
                  (set_appointment_objs
                     <[l:=Appointment.update_status a "Cancelled"]> s),
                Return tt)
      end
  end.
Proof.
  unfold cancel_appointment. unfold_calls.
  destruct (appointments s !! id) as [l|]; [|done]. simpl.
  destruct (appointment_objs s !! l) as [a|]; [|done]. simpl.
  by rewrite lookup_insert_eq.
Qed.

Lemma schedule_appointment_free s patient_id doctor_id t aid uuid4 pl p dl d :
  users s !! patient_id = Some pl →
  user_objs s !! pl = Some (APatient p) →
  users s !! doctor_id = Some dl →
  user_objs s !! dl = Some (ADoctor d) →
  Forall (free_at s t) (Doctor.appointments d) →
  schedule_appointment patient_id doctor_id t aid uuid4 s
  = Some (booked patient_id doctor_id t aid uuid4 pl p dl d s,
          Return (fresh (dom (appointment_objs s)))).
Proof.
  intros Hpl Hp Hdl Hd Hfree.
  apply scan_Return with (msg := "Doctor is not available at this time.")
    in Hfree.
  by rewrite schedule_appointment_eq, Hpl, Hdl, Hp, Hd, Hfree.
Qed.

(** X13: cancelling frees the slot.  After [schedule_appointment] has
    returned, [cancel_appointment] with the id of the new appointment returns
    and leaves it "Cancelled", and then [schedule_appointment] for the same
    doctor and time, with any patient, returns another appointment. *)
Theorem cancel_frees_the_slot
    s s1 a patient_id doctor_id t aid uuid4 patient_id' aid' uuid4' :
  schedule_appointment patient_id doctor_id t aid uuid4 s
  = Some (s1, Return a) →
  is_patient s patient_id' →
  ∃ s2 s3 a',
    cancel_appointment (id_or_uuid aid uuid4) s1 = Some (s2, Return tt)
    ∧ appointment_objs s2 !! a
      = Some (Appointment.mk (id_or_uuid aid uuid4) patient_id doctor_id t
                "Cancelled" "")
    ∧ schedule_appointment patient_id' doctor_id t aid' uuid4' s2
      = Some (s3, Return a')
    ∧ a' ≠ a.
Proof.
  intros H (pl' & p' & Hpl' & Hp').
  assert (exec (ScheduleAppointment patient_id doctor_id t aid uuid4) s
          = Some (s1, None)) as Hex.
  { simpl. unfold discard. by rewrite H. }
  apply exec_users_evolve in Hex.
  destruct (Hex _ _ Hp') as ([p1|?|?] & Hp1 & _ & Hg); try done. clear Hg Hex.
  apply schedule_appointment_Return in H
    as (pl & p & dl & d & Hpl & Hp & Hdl & Hd & Hfree & -> & Hus & Hidx & Hobjs
        & Huo & _).
  set (a := fresh (dom (appointment_objs s))) in *.
  assert (appointment_objs s !! a = None) as Hfresh by apply fresh_lookup_None.
  eexists _, _, _.
  split.
  { rewrite cancel_appointment_eq, Hidx, lookup_insert_eq, Hobjs,
      lookup_insert_eq. reflexivity. }
  split; [simpl; by rewrite lookup_insert_eq|].
  split.
  - eapply schedule_appointment_free; simpl.
    + by rewrite Hus.
    + exact Hp1.
    + by rewrite Hus.
    + rewrite Huo. apply lookup_insert_eq.
    + simpl. apply Forall_app. split.
      * eapply Forall_impl; [exact Hfree|]. intros l (a0 & Hl & Hnb).
        exists a0. split; [|done]. simpl.
        rewrite Hobjs, !lookup_insert_ne; [done|congruence..].
      * apply Forall_singleton. eexists. split; [apply lookup_insert_eq|].
        by intros [_ ?].
  - simpl. intros Heq.
    pose proof (is_fresh (dom (<[a:=Appointment.update_status
                                    (Appointment.init patient_id doctor_id t
                                       aid uuid4) "Cancelled"]>
                                 (appointment_objs s1)))) as Hnot.
    rewrite Heq in Hnot. apply Hnot. set_solver.
Qed.

Lemma cancel_frees_the_slot_witness :
  ∃ s2 s3 a',
    cancel_appointment "uuid-a1" demo_booked = Some (s2, Return tt)
    ∧ appointment_objs s2 !! 0
      = Some (Appointment.mk "uuid-a1" "p1" "d1" t_10h "Cancelled" "")
    ∧ schedule_appointment "p1" "d1" t_10h None "uuid-a2" s2
      = Some (s3, Return a')
    ∧ a' ≠ 0.
Proof.
  apply (cancel_frees_the_slot demo demo_booked 0 "p1" "d1" t_10h None
           "uuid-a1" "p1" None "uuid-a2").
  - vm_compute. reflexivity.
  - eexists 0, _. split; vm_compute; reflexivity.
Defined.

(** ** Rescheduling *)

Lemma reschedule_appointment_eq id t s :
  reschedule_appointment id t s =
  match appointments s !! id with
  | None => Some (s, Raise (RecordNotFoundError "Appointment not found."))
  | Some l =>
      match appointment_objs s !! l with
      | None => None
      | Some a =>
          match users s !! Appointment.doctor_id a with
          | None => Some (s, Raise (RecordNotFoundError "Doctor not found."))
          | Some dl =>
              match user_objs s !! dl with
              | None => None
              | Some (ADoctor d) =>
                  match for_each (Doctor.appointments d)
                          (conflict_check t
                             "Doctor is not available at the new time.") s
                  with
                  | Some (_, Return _) =>
                      Some (set_stdout
                              (λ out, out ++ [rescheduled_line
                                                (Appointment.appointment_id a) t])
                              (set_appointment_objs
                                 <[l:=Appointment.set_date_time a t]> s),
                            Return tt)
                  | Some (_, Raise e) => Some (s, Raise e)
                  | None => None
                  end
              | Some _ =>
                  Some (s, Raise (RecordNotFoundError "Doctor not found."))
              end
          end
      end
  end.
Proof.
  unfold reschedule_appointment. rewrite bind_eq. unfold gets at 1.
  destruct (appointments s !! id) as [l|]; [|done].
  rewrite (bind_eq (deref _ _)). unfold deref at 1.
  destruct (appointment_objs s !! l) as [a|] eqn:Ha; [|done].
  rewrite bind_eq, get_doctor_eq.
  destruct (users s !! Appointment.doctor_id a) as [dl|]; [|done].
  destruct (user_objs s !! dl) as [[p|d|ad]|]; try done.
  rewrite bind_eq.
  destruct (for_each_conflict_check_cases (Doctor.appointments d) t
              "Doctor is not available at the new time." s) as [E|[E|E]];
    rewrite E; try done.
  unfold_calls. by rewrite Ha.
Qed.

Lemma Forall_free_at_kept s s' t t' l appts :
  Forall (free_at s t) appts →
  appointment_objs s !! l = None →
  (∀ l0, l0 ≠ l → appointment_objs s' !! l0 = appointment_objs s !! l0) →
  (∃ a, appointment_objs s' !! l = Some a ∧ ¬ blocks t a) →
  t' = t →
  Forall (free_at s' t') (appts ++ [l]).
Proof.
  intros Hfree Hnone Hsame Hl ->. apply Forall_app. split.
  - eapply Forall_impl; [exact Hfree|]. intros l0 (a0 & Hl0 & Hnb).
    exists a0. split; [|done]. rewrite Hsame; [done|congruence].
  - by apply Forall_singleton.
Qed.

(** X14: rescheduling moves the booking.  After [schedule_appointment] has
    returned an appointment at [t], [reschedule_appointment] to another time
    [t'] at which the doctor's list had no "Scheduled" appointment returns
    and leaves the appointment "Scheduled" at [t']; from then on the doctor is
    refused at [t'] and can be booked at [t] again. *)
Theorem reschedule_moves_the_booking
    s s1 a patient_id doctor_id t aid uuid4 t' dl d patient_id' aid' uuid4' :
  schedule_appointment patient_id doctor_id t aid uuid4 s
  = Some (s1, Return a) →
  users s !! doctor_id = Some dl →
  user_objs s !! dl = Some (ADoctor d) →
  Forall (free_at s t') (Doctor.appointments d) →
  t' ≠ t →
  is_patient s patient_id' →
  ∃ s2,
    reschedule_appointment (id_or_uuid aid uuid4) t' s1 = Some (s2, Return tt)
    ∧ appointment_objs s2 !! a
      = Some (Appointment.mk (id_or_uuid aid uuid4) patient_id doctor_id t'
                "Scheduled" "")
    ∧ schedule_appointment patient_id' doctor_id t' aid' uuid4' s2
      = Some (s2, Raise (SchedulingConflictError
                           "Doctor is not available at this time."))
    ∧ ∃ s3 a',
        schedule_appointment patient_id' doctor_id t aid' uuid4' s2
        = Some (s3, Return a').
Proof.
  intros H Hdl Hd Hfree' Hne (pl' & p' & Hpl' & Hp').
  assert (exec (ScheduleAppointment patient_id doctor_id t aid uuid4) s
          = Some (s1, None)) as Hex.
  { simpl. unfold discard. by rewrite H. }
  apply exec_users_evolve in Hex.
  destruct (Hex _ _ Hp') as ([p1|?|?] & Hp1 & _ & Hg); try done. clear Hg Hex.
  apply schedule_appointment_Return in H
    as (pl & p & dl0 & d0 & Hpl & Hp & Hdl0 & Hd0 & Hfree & -> & Hus & Hidx
        & Hobjs & Huo & _).
  assert (dl0 = dl) as -> by congruence.
  assert (d0 = d) as -> by congruence.
  set (a := fresh (dom (appointment_objs s))) in *.
  assert (appointment_objs s !! a = None) as Hfresh by apply fresh_lookup_None.
  set (d1 := Doctor.mk (Doctor.base d) (Doctor.specialization d)
               (Doctor.appointments d ++ [a])
               ({[patient_id]} ∪ Doctor.patients d) (Doctor.schedule d)).
  assert (user_objs s1 !! dl = Some (ADoctor d1)) as Hd1.
  { rewrite Huo. apply lookup_insert_eq. }
  assert (Forall (free_at s1 t') (Doctor.appointments d1)) as Hscan.
  { eapply (Forall_free_at_kept s s1 t' t' a); try done.
    - intros l0 ?. by rewrite Hobjs, lookup_insert_ne.
    - eexists. rewrite Hobjs, lookup_insert_eq. split; [done|].
      intros [? _]. by apply Hne. }
  apply scan_Return with (msg := "Doctor is not available at the new time.")
    in Hscan.
  eexists. split.
  { rewrite reschedule_appointment_eq, Hidx, lookup_insert_eq, Hobjs,
      lookup_insert_eq. simpl. rewrite Hus, Hdl, Hd1, Hscan. reflexivity. }
  split; [simpl; by rewrite lookup_insert_eq|].
  split.
  - rewrite schedule_appointment_eq. simpl. rewrite Hus, Hpl', Hdl, Hp1, Hd1.
    erewrite scan_Raise; [done| |].
    + simpl. apply Forall_app. split.
      * eapply Forall_impl; [exact Hfree|]. intros l0 (a0 & Hl0 & _).
        exists a0. rewrite Hobjs, !lookup_insert_ne; [done|congruence..].
      * apply Forall_singleton. eexists. apply lookup_insert_eq.
    + eexists a, _. simpl. split; [set_solver|].
      split; [apply lookup_insert_eq|done].
  - eexists _, _. eapply schedule_appointment_free; simpl.
    + by rewrite Hus.
    + exact Hp1.
    + by rewrite Hus.
    + exact Hd1.
    + eapply (Forall_free_at_kept s _ t t a); try done.
      * intros l0 ?. simpl. by rewrite Hobjs, !lookup_insert_ne.
      * eexists. simpl. rewrite lookup_insert_eq. split; [done|].
        intros [? _]. by apply Hne.
Qed.

Lemma reschedule_moves_the_booking_witness :
  ∃ s2,
    reschedule_appointment "uuid-a1" (t_10h + 1) demo_booked
    = Some (s2, Return tt)
    ∧ appointment_objs s2 !! 0
      = Some (Appointment.mk "uuid-a1" "p1" "d1" (t_10h + 1) "Scheduled" "")
    ∧ schedule_appointment "p1" "d1" (t_10h + 1) None "uuid-a2" s2
      = Some (s2, Raise (SchedulingConflictError
                           "Doctor is not available at this time."))
    ∧ ∃ s3 a',
        schedule_appointment "p1" "d1" t_10h None "uuid-a2" s2
        = Some (s3, Return a').
Proof.
  apply (reschedule_moves_the_booking demo demo_booked 0 "p1" "d1" t_10h None
           "uuid-a1" (t_10h + 1)%Z 1
           (Doctor.mk (User.mk "d1" "D1" "d1@example.org"
                         (sha256_hexdigest "secret")) "Cardiology" [] ∅ ∅)
           "p1" None "uuid-a2").
  - vm_compute. reflexivity.
  - vm_compute. reflexivity.
  - vm_compute. reflexivity.
  - constructor.
  - done.
  - eexists 0, _. split; vm_compute; reflexivity.
Defined.

(** ** Medical records *)

(** X15: [add_medical_record] files the record under the patient id of the
    call: with a patient under [patient_id] and a record object, it returns,
    indexes the record under its [record_id] and appends it to the patient's
    history, so [get_medical_records] returns the old history followed by the
    record.  The [patient_id] field of the record is not looked at, and the
    record objects are as they were. *)
Theorem add_medical_record_files_the_record s patient_id pl p record r :
  users s !! patient_id = Some pl →
  user_objs s !! pl = Some (APatient p) →
  record_objs s !! record = Some r →
  ∃ s',
    add_medical_record patient_id record s = Some (s', Return tt)
    ∧ medical_records s' !! MedicalRecord.record_id r = Some record
    ∧ get_medical_records patient_id s'
      = Some (s', Return (Patient.medical_history p ++ [record]))
    ∧ record_objs s' = record_objs s
    ∧ users s' = users s
    ∧ (∀ l, l ≠ pl → user_objs s' !! l = user_objs s !! l).
Proof.
  intros Hpl Hp Hr. eexists. split.
  { unfold add_medical_record. rewrite bind_eq, get_patient_eq, Hpl, Hp.
    unfold_calls. rewrite Hr. simpl. rewrite Hp. reflexivity. }
  simpl. split_and!; try done.
  - apply lookup_insert_eq.
  - rewrite get_medical_records_eq. simpl. by rewrite Hpl, lookup_insert_eq.
  - intros l ?. by rewrite lookup_insert_ne.
Qed.

Lemma add_medical_record_files_the_record_witness :
  ∃ s',
    add_medical_record "p1" 0 demo_misfiled = Some (s', Return tt)
    ∧ medical_records s' !! "r1" = Some 0
    ∧ get_medical_records "p1" s' = Some (s', Return ([] ++ [0]))
    ∧ record_objs s' = record_objs demo_misfiled
    ∧ users s' = users demo_misfiled
    ∧ (∀ l, l ≠ 0 → user_objs s' !! l = user_objs demo_misfiled !! l).
Proof.
  apply (add_medical_record_files_the_record demo_misfiled "p1" 0
           (Patient.mk (User.mk "p1" "P1" "p1@example.org"
                          (sha256_hexdigest "secret")) [] [] [] ∅)
           0
           (MedicalRecord.mk "r1" "someone-else" "d1" 0 "flu" "rest" [] "")).
  - vm_compute. reflexivity.
  - vm_compute. reflexivity.
  - vm_compute. reflexivity.
Defined.

(** ** Prescriptions *)

Lemma extend_all_app h1 h2 acc s :
  extend_all (h1 ++ h2) acc s = (extend_all h1 acc ≫= extend_all h2) s.
Proof.
  revert acc. induction h1 as [|l h1 IH]; intros acc; [done|].
  simpl. rewrite !bind_eq. unfold deref.
  destruct (record_objs s !! l) as [r|]; [|done]. apply IH.
Qed.

(** The loop reads the record objects and writes nothing. *)
Lemma extend_all_reads h acc s s1 o :
  extend_all h acc s = Some (s1, o) → s1 = s ∧ ∃ ps, o = Return ps.
Proof.
  revert acc. induction h as [|l h IH]; intros acc; simpl.
  { intros [= <- <-]. eauto. }
  rewrite bind_eq. unfold deref.
  destruct (record_objs s !! l) as [r|]; [|done]. apply IH.
Qed.

Lemma extend_all_agree h acc s s' ps :
  (∀ l, l ∈ h → record_objs s' !! l = record_objs s !! l) →
  extend_all h acc s = Some (s, Return ps) →
  extend_all h acc s' = Some (s', Return ps).
Proof.
  revert acc. induction h as [|l h IH]; intros acc Hsame; simpl.
  { by intros [= <-]. }
  rewrite !bind_eq. unfold deref.
  rewrite Hsame by (apply elem_of_cons; by left).
  destruct (record_objs s !! l) as [r|]; [|done].
  apply IH. intros l0 ?. apply Hsame. apply elem_of_cons. by right.
Qed.

Lemma get_prescriptions_eq patient_id s pl p :
  users s !! patient_id = Some pl →
  user_objs s !! pl = Some (APatient p) →
  get_prescriptions patient_id s = extend_all (Patient.medical_history p) [] s
  ∧ view_prescriptions pl s = extend_all (Patient.medical_history p) [] s.
Proof.
  intros Hpl Hp. split.
  - unfold get_prescriptions. by rewrite bind_eq, get_patient_eq, Hpl, Hp.
  - unfold view_prescriptions.
    by rewrite (bind_Some _ _ _ _ _ (deref_Some _ _ _ _ Hp)).
Qed.

(** X16: [add_prescription] attaches the prescription to the latest record
    of the patient.  With a non-empty history whose last record does not
    occur earlier in it, the call returns, indexes the prescription under its
    id and appends it to the prescriptions of that record only; the list that
    [get_prescriptions] and [Patient.view_prescriptions] return afterwards is
    the list returned before, followed by the prescription. *)
Theorem add_prescription_attaches
    s patient_id pl p prescription pr earlier latest ps :
  users s !! patient_id = Some pl →
  user_objs s !! pl = Some (APatient p) →
  prescription_objs s !! prescription = Some pr →
  Patient.medical_history p = earlier ++ [latest] →
  latest ∉ earlier →
  get_prescriptions patient_id s = Some (s, Return ps) →
  ∃ s' r,
    add_prescription patient_id prescription s = Some (s', Return tt)
    ∧ prescriptions s' !! Prescription.prescription_id pr = Some prescription
    ∧ record_objs s !! latest = Some r
    ∧ record_objs s'
      = <[latest:=MedicalRecord.set_prescriptions r
                    (MedicalRecord.prescriptions r ++ [prescription])]>
          (record_objs s)
    ∧ get_prescriptions patient_id s'
      = Some (s', Return (ps ++ [prescription]))
    ∧ view_prescriptions pl s' = Some (s', Return (ps ++ [prescription])).
Proof.
  intros Hpl Hp Hpr Hhist Hnot Hget.
  destruct (get_prescriptions_eq _ _ _ _ Hpl Hp) as [Hg _].
  rewrite Hg, Hhist, extend_all_app, bind_eq in Hget.
  destruct (extend_all earlier [] s) as [[s1 [ps0|e]]|] eqn:Hearlier;
    try done.
  apply extend_all_reads in Hearlier as Hs1. destruct Hs1 as [-> _].
  simpl in Hget. rewrite bind_eq in Hget. unfold deref in Hget.
  destruct (record_objs s !! latest) as [r|] eqn:Hr; [|done].
  simpl in Hget. injection Hget as <-.
  set (r' := MedicalRecord.set_prescriptions r
               (MedicalRecord.prescriptions r ++ [prescription])).
  set (s' := set_stdout
               (λ out, out ++ [[Lit "Prescription '";
                                Str (Prescription.prescription_id pr);
                                Lit "' added for patient '";
                                Str (User.name (Patient.base p));
                                Lit "'."; Lit nl]])
               (set_record_objs <[latest:=r']>
                  (set_prescriptions
                     <[Prescription.prescription_id pr:=prescription]> s))).
  assert (extend_all (Patient.medical_history p) [] s'
          = Some (s', Return ((ps0 ++ MedicalRecord.prescriptions r)
                              ++ [prescription]))) as Hafter.
  { rewrite Hhist, extend_all_app, bind_eq.
    rewrite (extend_all_agree earlier [] s s' ps0); [|
      intros l Hl; simpl; rewrite lookup_insert_ne; [done|congruence] | done].
    simpl. rewrite bind_eq. unfold deref. simpl.
    rewrite lookup_insert_eq. simpl. by rewrite app_assoc. }
  exists s', r. split.
  { unfold add_prescription. rewrite bind_eq, get_patient_eq, Hpl, Hp.
    unfold_calls. rewrite Hpr. simpl. rewrite Hhist, last_snoc. simpl.
    rewrite Hr. reflexivity. }
  destruct (get_prescriptions_eq patient_id s' pl p) as [Hg' Hv']; [done..|].
  split_and!; try done.
  - simpl. apply lookup_insert_eq.
  - by rewrite Hg'.
  - by rewrite Hv'.
Qed.

Lemma add_prescription_attaches_witness :
  ∃ s' r,
    add_prescription "p1" 0 demo_treated_prescribed = Some (s', Return tt)
    ∧ prescriptions s' !! "rx1" = Some 0
    ∧ record_objs demo_treated_prescribed !! 0 = Some r
    ∧ record_objs s'
      = <[0:=MedicalRecord.set_prescriptions r
               (MedicalRecord.prescriptions r ++ [0])]>
          (record_objs demo_treated_prescribed)
    ∧ get_prescriptions "p1" s' = Some (s', Return ([] ++ [0]))
    ∧ view_prescriptions 0 s' = Some (s', Return ([] ++ [0])).
Proof.
  apply (add_prescription_attaches demo_treated_prescribed "p1" 0
           (Patient.mk (User.mk "p1" "P1" "p1@example.org"
                          (sha256_hexdigest "secret")) [0] [] [] ∅)
           0
           (Prescription.mk "rx1" "p1" "d1" [] 0 "twice a day")
           [] 0 []).
  - vm_compute. reflexivity.
  - vm_compute. reflexivity.
  - vm_compute. reflexivity.
  - reflexivity.
  - apply not_elem_of_nil.
  - vm_compute. reflexivity.
Defined.

(** ** Creating a billing and paying it *)

Lemma leb_refl (x : float) :
  PrimFloat.is_nan x = false → PrimFloat.leb x x = true.
Proof.
  rewrite is_nan_false, leb_spec. unfold SFleb. intros H.
  by rewrite SFcompare_refl.
Qed.

(** X17: [create_billing] for a patient, when the clock is such that the
    date thirty days later is still a [datetime], returns a new billing
    object: "Unpaid", with the amount as given and that date as due date,
    found under its id and last in the list [get_billing_info] returns; and
    when the amount is positive, [process_payment] of that very amount at any
    later time returns and leaves the billing "Paid" with nothing due.  When
    the date thirty days later is past [datetime.max], the call raises
    [OverflowError] and leaves the store alone. *)
Theorem create_billing_then_pay
    s patient_id pl p amount description bid uuid4 now now' :
  users s !! patient_id = Some pl →
  user_objs s !! pl = Some (APatient p) →
  ((datetime_min ≤ now + timedelta_days 30 ≤ datetime_max)%Z →
   ∃ s1 b,
     create_billing patient_id amount description bid uuid4 now s
     = Some (s1, Return b)
     ∧ billing_objs s !! b = None
     ∧ billings s1 !! id_or_uuid bid uuid4 = Some b
     ∧ billing_objs s1 !! b
       = Some (Billing.mk (id_or_uuid bid uuid4) patient_id amount
                 (now + timedelta_days 30) "Unpaid" description)
     ∧ get_billing_info patient_id s1
       = Some (s1, Return (Patient.billing_info p ++ [b]))
     ∧ (PrimFloat.ltb 0 amount = true →
        ∃ s2,
          process_payment (id_or_uuid bid uuid4) amount now' s1
          = Some (s2, Return tt)
          ∧ billing_objs s2 !! b
            = Some (Billing.mk (id_or_uuid bid uuid4) patient_id 0
                      (now + timedelta_days 30) "Paid" description)))
  ∧ (¬ (datetime_min ≤ now + timedelta_days 30 ≤ datetime_max)%Z →
     create_billing patient_id amount description bid uuid4 now s
     = Some (s, Raise (OverflowError "date value out of range"))).
Proof.
  intros Hpl Hp. split; last first.
  { intros Hout. unfold create_billing.
    rewrite bind_eq, get_patient_eq, Hpl, Hp.
    unfold Billing.init, datetime_add. by rewrite decide_False. }
  intros Hin.
  set (b := fresh (dom (billing_objs s))).
  set (bill := Billing.mk (id_or_uuid bid uuid4) patient_id amount
                 (now + timedelta_days 30) "Unpaid" description).
  assert (Billing.init patient_id amount description bid uuid4 now = inr bill)
    as Hinit.
  { unfold Billing.init, datetime_add. by rewrite decide_True. }
  set (s1 := set_stdout
               (λ out, out ++ [[Lit "Billing '"; Str (id_or_uuid bid uuid4);
                                Lit "' created for patient '";
                                Str (User.name (Patient.base p));
                                Lit "'. Amount Due: "; Float amount; Lit nl]])
               (set_user_objs
                  <[pl:=APatient (Patient.set_billing_info p
                                    (Patient.billing_info p ++ [b]))]>
                  (set_billings <[id_or_uuid bid uuid4:=b]>
                     (set_billing_objs <[b:=bill]> s)))).
  assert (billing_objs s1 !! b = Some bill) as Hb.
  { simpl. apply lookup_insert_eq. }
  assert (billings s1 !! id_or_uuid bid uuid4 = Some b) as Hidx.
  { simpl. apply lookup_insert_eq. }
  exists s1, b. split.
  { unfold create_billing. rewrite bind_eq, get_patient_eq, Hpl, Hp, Hinit.
    unfold_calls. simpl. rewrite lookup_insert_eq. simpl. by rewrite Hp. }
  split; [apply fresh_lookup_None|].
  split; [done|]. split; [done|]. split.
  { unfold get_billing_info. rewrite bind_eq, get_patient_eq. simpl.
    by rewrite Hpl, lookup_insert_eq. }
  intros Hpos.
  destruct (ltb_not_nan _ _ Hpos) as [_ Hnan].
  assert (apply_payment b amount now' s1
          = Some (set_billing_objs
                    <[b:=Billing.set_amount_due (Billing.set_status bill "Paid")
                           0]> s1, Return tt)) as Hrun.
  { unfold apply_payment. rewrite (bind_Some _ _ _ _ _ (deref_Some _ _ _ _ Hb)).
    unfold Billing.apply_payment.
    change (Billing.amount_due bill) with amount.
    by rewrite (ltb_leb_false _ _ Hpos), (leb_refl _ Hnan). }
  eexists. split.
  - unfold process_payment.
    erewrite bind_Some by (unfold gets; reflexivity). simpl.
    rewrite lookup_insert_eq.
    rewrite (bind_Some _ _ _ _ _ Hrun).
    erewrite (bind_Some (deref _ _)); [reflexivity|].
    apply deref_Some. simpl. apply lookup_insert_eq.
  - simpl. by rewrite lookup_insert_eq.
Qed.

Lemma create_billing_then_pay_witness :
  (∃ s1 b s2,
     create_billing "p1" 100 "visit" (Some "b1") "uuid-b" 0 demo
     = Some (s1, Return b)
     ∧ billing_objs s1 !! b
       = Some (Billing.mk "b1" "p1" 100 (0 + timedelta_days 30) "Unpaid" "visit")
     ∧ process_payment "b1" 100 5 s1 = Some (s2, Return tt)
     ∧ billing_objs s2 !! b
       = Some (Billing.mk "b1" "p1" 0 (0 + timedelta_days 30) "Paid" "visit"))
  ∧ create_billing "p1" 100 "visit" (Some "b1") "uuid-b" datetime_max demo
    = Some (demo, Raise (OverflowError "date value out of range")).
Proof.
  pose (p := Patient.mk (User.mk "p1" "P1" "p1@example.org"
                           (sha256_hexdigest "secret")) [] [] [] ∅).
  assert (users demo !! "p1" = Some 0) as Hpl by (vm_compute; reflexivity).
  assert (user_objs demo !! 0 = Some (APatient p)) as Hp
    by (vm_compute; reflexivity).
  split.
  - destruct (create_billing_then_pay demo "p1" 0 p 100%float "visit"
                (Some "b1") "uuid-b" 0%Z 5%Z Hpl Hp) as [Hin _].
    destruct Hin as (s1 & b & Hrun & _ & _ & Hb & _ & Hpay).
    { unfold datetime_min, datetime_max, timedelta_days. lia. }
    destruct (Hpay eq_refl) as (s2 & Hpaid & Hb2).
    by exists s1, b, s2.
  - destruct (create_billing_then_pay demo "p1" 0 p 100%float "visit"
                (Some "b1") "uuid-b" datetime_max 5%Z Hpl Hp) as [_ Hout].
    apply Hout. unfold datetime_min, datetime_max, timedelta_days. lia.
Defined.

(** ** Who may read the records *)

(** X18: a patient is refused the records of every id but the patient's own,
    whether or not that id is registered, and obtains the own history under
    the own id; an administrator obtains the history of every registered
    patient.  Neither call writes the store. *)
Theorem access_of_patients_and_administrators :
  (∀ s requester q patient_id,
      user_objs s !! requester = Some (APatient q) →
      User.user_id (Patient.base q) ≠ patient_id →
      access_medical_records requester patient_id s
      = Some (s, Raise (AuthorizationError
                          "Patients can only access their own medical records.")))
  ∧ (∀ s requester q,
      user_objs s !! requester = Some (APatient q) →
      users s !! User.user_id (Patient.base q) = Some requester →
      access_medical_records requester (User.user_id (Patient.base q)) s
      = Some (s, Return (Patient.medical_history q)))
  ∧ (∀ s requester a patient_id pl p,
      user_objs s !! requester = Some (AnAdministrator a) →
      users s !! patient_id = Some pl →
      user_objs s !! pl = Some (APatient p) →
      access_medical_records requester patient_id s
      = Some (s, Return (Patient.medical_history p))).
Proof.
  split_and!.
  - intros s requester q patient_id Hq Hne.
    rewrite (access_medical_records_eq _ _ _ _ Hq).
    by rewrite decide_False.
  - intros s requester q Hq Hidx.
    rewrite (access_medical_records_eq _ _ _ _ Hq).
    rewrite decide_True by done.
    by rewrite get_medical_records_eq, Hidx, Hq.
  - intros s requester a patient_id pl p Ha Hpl Hp.
    rewrite (access_medical_records_eq _ _ _ _ Ha).
    by rewrite get_medical_records_eq, Hpl, Hp.
Qed.

Lemma access_of_patients_and_administrators_witness :
  access_medical_records 0 "someone-else" demo_administered
  = Some (demo_administered,
          Raise (AuthorizationError
                   "Patients can only access their own medical records."))
  ∧ access_medical_records 0 "p1" demo_administered
    = Some (demo_administered, Return [0])
  ∧ access_medical_records 2 "p1" demo_administered
    = Some (demo_administered, Return [0]).
Proof.
  destruct access_of_patients_and_administrators as (Hother & Hown & Hadmin).
  pose (q := Patient.mk (User.mk "p1" "P1" "p1@example.org"
                           (sha256_hexdigest "secret")) [0] [] [] ∅).
  assert (user_objs demo_administered !! 0 = Some (APatient q)) as Hq
    by (vm_compute; reflexivity).
  split_and!.
  - by apply (Hother demo_administered 0 q "someone-else" Hq).
  - apply (Hown demo_administered 0 q Hq). vm_compute. reflexivity.
  - apply (Hadmin demo_administered 2
             (Administrator.mk (User.mk "a1" "A1" "a1@example.org"
                                  (sha256_hexdigest "root"))) "p1" 0 q).
    + vm_compute. reflexivity.
    + vm_compute. reflexivity.
    + exact Hq.
Defined.

(** ** Logging in *)

Lemma authenticate_user_eq email password s :
  authenticate_user email password s =
  match users_by_email s !! email with
  | None => Some (s, Raise (AuthenticationError "Invalid email or password."))
  | Some user =>
      match user_objs s !! user with
      | None => None
      | Some u =>
          if verify_password u password
          then Some (set_stdout (λ out, out ++ [logged_in_line u]) s, Return user)
          else Some (s, Raise (AuthenticationError "Invalid email or password."))
      end
  end.
Proof.
  unfold authenticate_user. unfold_calls.
  destruct (users_by_email s !! email) as [user|]; [|done]. simpl.
  destruct (user_objs s !! user) as [u|]; [|done]. simpl.
  by destruct (verify_password u password).
Qed.

(** X19: a user object that holds the digest of a password can log in once
    it is registered.  After [register_user] has returned, [authenticate_user]
    with the user's e-mail address and that password returns the same object
    and prints one line; with a password of another digest it raises
    [AuthenticationError] and leaves the store alone; and after [remove_user]
    with the user's id the right password is refused as well. *)
Theorem registered_user_can_log_in s s1 user u password :
  user_objs s !! user = Some u →
  User.password (user_base u) = hash_password password →
  register_user user s = Some (s1, Return tt) →
  authenticate_user (User.email (user_base u)) password s1
  = Some (set_stdout (λ out, out ++ [logged_in_line u]) s1, Return user)
  ∧ (∀ other, hash_password other ≠ hash_password password →
       authenticate_user (User.email (user_base u)) other s1
       = Some (s1, Raise (AuthenticationError "Invalid email or password.")))
  ∧ ∃ s2,
      remove_user (User.user_id (user_base u)) s1 = Some (s2, Return tt)
      ∧ authenticate_user (User.email (user_base u)) password s2
        = Some (s2, Raise (AuthenticationError "Invalid email or password.")).
Proof.
  intros Hu Hpw Hreg.
  rewrite (register_user_eq _ _ _ Hu) in Hreg.
  case_decide; [done|]. injection Hreg as <-.
  split_and!.
  - rewrite authenticate_user_eq. simpl. rewrite lookup_insert_eq, Hu.
    unfold verify_password. by rewrite bool_decide_eq_true_2.
  - intros other Hother.
    rewrite authenticate_user_eq. simpl. rewrite lookup_insert_eq, Hu.
    unfold verify_password. rewrite bool_decide_eq_false_2; [done|congruence].
  - eexists. split.
    + rewrite remove_user_eq. simpl. rewrite lookup_insert_eq, Hu.
      rewrite decide_True; [reflexivity|].
      rewrite lookup_insert_eq. by eexists.
    + rewrite authenticate_user_eq. simpl. by rewrite lookup_delete_eq.
Qed.

Lemma registered_user_can_log_in_witness :
  ∃ s1 u,
    register_user 2 demo_newcomer = Some (s1, Return tt)
    ∧ authenticate_user "p2@example.org" "secret2" s1
      = Some (set_stdout (λ out, out ++ [logged_in_line u]) s1, Return 2)
    ∧ (∀ other, hash_password other ≠ hash_password "secret2" →
         authenticate_user "p2@example.org" other s1
         = Some (s1, Raise (AuthenticationError "Invalid email or password.")))
    ∧ ∃ s2,
        remove_user "uuid-p2" s1 = Some (s2, Return tt)
        ∧ authenticate_user "p2@example.org" "secret2" s2
          = Some (s2, Raise (AuthenticationError "Invalid email or password.")).
Proof.
  pose (u := APatient (Patient.mk (User.mk "uuid-p2" "P2" "p2@example.org"
                                     (sha256_hexdigest "secret2")) [] [] [] ∅)).
  assert (user_objs demo_newcomer !! 2 = Some u) as Hu
    by (vm_compute; reflexivity).
  assert (register_user 2 demo_newcomer
          = Some (set_stdout (λ out, out ++ [registered_line u])
                    (set_users_by_email <["p2@example.org":=2]>
                       (set_users <["uuid-p2":=2]> demo_newcomer)), Return tt))
    as Hreg by (vm_compute; reflexivity).
  eexists _, u. split; [exact Hreg|].
  exact (registered_user_can_log_in demo_newcomer _ 2 u "secret2" Hu eq_refl
           Hreg).
Defined.

(** ** The requests a doctor sees *)

Lemma scheduled_of_spec appts s :
  Forall (λ l, is_Some (appointment_objs s !! l)) appts →
  ∃ reqs,
    scheduled_of appts s = Some (s, Return reqs)
    ∧ reqs `sublist_of` appts
    ∧ ∀ l, l ∈ reqs ↔
        l ∈ appts ∧ ∃ a, appointment_objs s !! l = Some a
                         ∧ Appointment.status a = "Scheduled".
Proof.
  induction 1 as [|l appts [a Ha] _ (reqs & IH & Hsub & Hin)].
  { exists []. split; [done|]. split; [done|]. intros l. split.
    - by intros ?%elem_of_nil.
    - by intros [?%elem_of_nil _]. }
  simpl. rewrite (bind_Some _ _ _ _ _ (deref_Some _ _ _ _ Ha)).
  rewrite (bind_Some _ _ _ _ _ IH).
  destruct (decide (Appointment.status a = "Scheduled")) as [Hst|Hst].
  - exists (l :: reqs). split; [done|]. split; [by apply sublist_skip|].
    intros l0. rewrite !elem_of_cons, Hin. split.
    + intros [->|[? ?]]; [|by auto]. split; [by left|by exists a].
    + intros [[->|?] ?]; [by left|by right].
  - exists reqs. split; [done|]. split; [by apply sublist_cons|].
    intros l0. rewrite elem_of_cons, Hin. split.
    + intros [? ?]. split; [by right|done].
    + intros [[->|?] (a0 & Ha0 & Hst0)]; [|split; [done|by exists a0]].
      congruence.
Qed.

(** X20: [Doctor.view_appointment_requests] returns, in the order of the
    doctor's list and without writing anything, exactly the appointments of
    the list whose status is "Scheduled". *)
Theorem view_appointment_requests_lists_the_scheduled s self d :
  user_objs s !! self = Some (ADoctor d) →
  Forall (λ l, is_Some (appointment_objs s !! l)) (Doctor.appointments d) →
  ∃ reqs,
    view_appointment_requests self s = Some (s, Return reqs)
    ∧ reqs `sublist_of` Doctor.appointments d
    ∧ ∀ l, l ∈ reqs ↔
        l ∈ Doctor.appointments d
        ∧ ∃ a, appointment_objs s !! l = Some a
               ∧ Appointment.status a = "Scheduled".
Proof.
  intros Hd Hclosed.
  destruct (scheduled_of_spec _ _ Hclosed) as (reqs & Hrun & Hsub & Hin).
  exists reqs. split; [|done].
  unfold view_appointment_requests.
  by rewrite (bind_Some _ _ _ _ _ (deref_Some _ _ _ _ Hd)).
Qed.

Lemma view_appointment_requests_lists_the_scheduled_witness :
  ∃ reqs,
    view_appointment_requests 1 demo_booked = Some (demo_booked, Return reqs)
    ∧ reqs `sublist_of` [0]
    ∧ ∀ l, l ∈ reqs ↔
        l ∈ [0]
        ∧ ∃ a, appointment_objs demo_booked !! l = Some a
               ∧ Appointment.status a = "Scheduled".
Proof.
  apply (view_appointment_requests_lists_the_scheduled demo_booked 1
           (Doctor.mk (User.mk "d1" "D1" "d1@example.org"
                         (sha256_hexdigest "secret"))
              "Cardiology" [0] ({["p1"]} ∪ ∅) ∅)).
  - vm_compute. reflexivity.
  - apply Forall_singleton. eexists. vm_compute. reflexivity.
Defined.

(** X21: a confirmed appointment leaves the requests.  When
    [confirm_appointment] finds a "Scheduled" appointment under the id, it
    returns, and [view_appointment_requests] then lists what it listed before
    without that appointment. *)
Theorem confirmed_appointment_leaves_the_requests s self d id l a reqs :
  user_objs s !! self = Some (ADoctor d) →
  Forall (λ l, is_Some (appointment_objs s !! l)) (Doctor.appointments d) →
  first_with_id s (Doctor.appointments d) id l a →
  Appointment.status a = "Scheduled" →
  view_appointment_requests self s = Some (s, Return reqs) →
  ∃ s' reqs',
    confirm_appointment self id s = Some (s', Return tt)
    ∧ view_appointment_requests self s' = Some (s', Return reqs')
    ∧ l ∈ reqs
    ∧ ∀ l0, l0 ∈ reqs' ↔ l0 ∈ reqs ∧ l0 ≠ l.
Proof.
  intros Hd Hclosed Hfirst Hst Hview.
  destruct (scheduled_of_spec _ _ Hclosed) as (reqs0 & Hrun & _ & Hin).
  unfold view_appointment_requests in Hview.
  rewrite (bind_Some _ _ _ _ _ (deref_Some _ _ _ _ Hd)), Hrun in Hview.
  injection Hview as <-.
  set (s' := set_stdout (λ out, out ++ [confirmed_line id])
               (set_appointment_objs
                  <[l:=Appointment.update_status a "Confirmed"]> s)).
  assert (Forall (λ l0, is_Some (appointment_objs s' !! l0))
            (Doctor.appointments d)) as Hclosed'.
  { eapply Forall_impl; [exact Hclosed|]. intros l0 [a0 Ha0]. simpl.
    destruct (decide (l0 = l)) as [->|];
      [rewrite lookup_insert_eq|rewrite lookup_insert_ne by done]; by eexists. }
  destruct (scheduled_of_spec _ _ Hclosed') as (reqs' & Hrun' & _ & Hin').
  pose proof Hfirst as (pre & post & Hsplit & Hpre & Ha & Hid).
  exists s', reqs'. split_and!.
  - unfold confirm_appointment.
    rewrite (bind_Some _ _ _ _ _ (deref_Some _ _ _ _ Hd)).
    rewrite bind_eq, (confirm_loop_first s _ id l a Hfirst).
    by rewrite decide_True.
  - unfold view_appointment_requests.
    by erewrite bind_Some by (apply deref_Some; exact Hd).
  - apply Hin. split; [|by exists a].
    rewrite Hsplit, elem_of_app, elem_of_cons. by right; left.
  - intros l0. rewrite Hin', Hin. simpl. split.
    + intros (Hl0 & a0 & Ha0 & Hst0).
      destruct (decide (l0 = l)) as [->|Hne].
      * rewrite lookup_insert_eq in Ha0. by simplify_eq.
      * rewrite lookup_insert_ne in Ha0 by done. eauto.
    + intros [(Hl0 & a0 & Ha0 & Hst0) Hne]. split; [done|].
      exists a0. by rewrite lookup_insert_ne.
Qed.

Lemma confirmed_appointment_leaves_the_requests_witness :
  ∃ s' reqs',
    confirm_appointment 1 "uuid-a1" demo_booked = Some (s', Return tt)
    ∧ view_appointment_requests 1 s' = Some (s', Return reqs')
    ∧ 0 ∈ [0]
    ∧ ∀ l0, l0 ∈ reqs' ↔ l0 ∈ [0] ∧ l0 ≠ 0.
Proof.
  apply (confirmed_appointment_leaves_the_requests demo_booked 1
           (Doctor.mk (User.mk "d1" "D1" "d1@example.org"
                         (sha256_hexdigest "secret"))
              "Cardiology" [0] ({["p1"]} ∪ ∅) ∅)
           "uuid-a1" 0
           (Appointment.mk "uuid-a1" "p1" "d1" t_10h "Scheduled" "")).
  - vm_compute. reflexivity.
  - apply Forall_singleton. eexists. vm_compute. reflexivity.
  - exists [], []. split_and!; [done|constructor| |done].
    vm_compute. reflexivity.
  - reflexivity.
  - vm_compute. reflexivity.
Defined.

(** ** Changing the address of a registered user *)

Lemma update_profile_eq self name email s u :
  user_objs s !! self = Some u →
  update_profile self name email s
  = Some (set_user_objs
            <[self:=set_base u (User.mk (User.user_id (user_base u)) name email
                                  (User.password (user_base u)))]> s,
          Return tt).
Proof.
  intros Hu. unfold update_profile.
  by rewrite (bind_Some _ _ _ _ _ (deref_Some _ _ _ _ Hu)).
Qed.

Lemma user_base_set_base u b : user_base (set_base u b) = b.
Proof. by destruct u. Qed.

(** X22: [update_profile] writes the object and not the index.  After a
    registered user's address is changed to one that is not indexed, the
    indexes are as they were: [authenticate_user] still accepts the old
    address with the user's password and refuses the new one, and
    [remove_user] raises [KeyError] with the new address and removes
    nothing. *)
Theorem update_profile_leaves_the_index_behind
    s id l u name new_email password :
  users s !! id = Some l →
  user_objs s !! l = Some u →
  users_by_email s !! User.email (user_base u) = Some l →
  users_by_email s !! new_email = None →
  User.password (user_base u) = hash_password password →
  ∃ s1 u1,
    update_profile l name new_email s = Some (s1, Return tt)
    ∧ user_objs s1 !! l = Some u1
    ∧ User.email (user_base u1) = new_email
    ∧ users s1 = users s
    ∧ users_by_email s1 = users_by_email s
    ∧ authenticate_user (User.email (user_base u)) password s1
      = Some (set_stdout (λ out, out ++ [logged_in_line u1]) s1, Return l)
    ∧ authenticate_user new_email password s1
      = Some (s1, Raise (AuthenticationError "Invalid email or password."))
    ∧ remove_user id s1 = Some (s1, Raise (KeyError new_email)).
Proof.
  intros Hid Hu Hold Hnew Hpw.
  eexists _, _. split; [by apply update_profile_eq|].
  split; [simpl; apply lookup_insert_eq|].
  rewrite user_base_set_base. simpl. split_and!; try done.
  - rewrite authenticate_user_eq. simpl. rewrite Hold, lookup_insert_eq.
    unfold verify_password. rewrite user_base_set_base. simpl.
    by rewrite bool_decide_eq_true_2.
  - rewrite authenticate_user_eq. simpl. by rewrite Hnew.
  - rewrite remove_user_eq. simpl. rewrite Hid, lookup_insert_eq.
    rewrite user_base_set_base. simpl.
    rewrite decide_False; [done|]. rewrite Hnew. by intros [? ?].
Qed.

Lemma update_profile_leaves_the_index_behind_witness :
  ∃ s1 u1,
    update_profile 0 "P1" "new@example.org" demo = Some (s1, Return tt)
    ∧ user_objs s1 !! 0 = Some u1
    ∧ User.email (user_base u1) = "new@example.org"
    ∧ users s1 = users demo
    ∧ users_by_email s1 = users_by_email demo
    ∧ authenticate_user "p1@example.org" "secret" s1
      = Some (set_stdout (λ out, out ++ [logged_in_line u1]) s1, Return 0)
    ∧ authenticate_user "new@example.org" "secret" s1
      = Some (s1, Raise (AuthenticationError "Invalid email or password."))
    ∧ remove_user "p1" s1 = Some (s1, Raise (KeyError "new@example.org")).
Proof.
  apply (update_profile_leaves_the_index_behind demo "p1" 0
           (APatient (Patient.mk (User.mk "p1" "P1" "p1@example.org"
                                    (sha256_hexdigest "secret")) [] [] [] ∅))
           "P1" "new@example.org" "secret").
  - vm_compute. reflexivity.
  - vm_compute. reflexivity.
  - vm_compute. reflexivity.
  - vm_compute. reflexivity.
  - reflexivity.
Defined.

(** X23: when the new address is the one another user is registered under,
    [remove_user] of the renamed user returns and deletes the other user's
    entry of the address index: the other user is still found under its id
    but can no longer log in, and the removed user still can, under the old
    address. *)
Theorem update_profile_then_remove_unlists_another
    s id l u name id2 l2 u2 password password2 :
  users s !! id = Some l →
  user_objs s !! l = Some u →
  users_by_email s !! User.email (user_base u) = Some l →
  users s !! id2 = Some l2 →
  user_objs s !! l2 = Some u2 →
  users_by_email s !! User.email (user_base u2) = Some l2 →
  l2 ≠ l →
  User.password (user_base u) = hash_password password →
  ∃ s1 s2,
    update_profile l name (User.email (user_base u2)) s = Some (s1, Return tt)
    ∧ remove_user id s1 = Some (s2, Return tt)
    ∧ users s2 !! id = None
    ∧ users s2 !! id2 = Some l2
    ∧ authenticate_user (User.email (user_base u2)) password2 s2
      = Some (s2, Raise (AuthenticationError "Invalid email or password."))
    ∧ ∃ s3, authenticate_user (User.email (user_base u)) password s2
            = Some (s3, Return l).
Proof.
  intros Hid Hu Hold Hid2 Hu2 Hby2 Hne Hpw.
  assert (id2 ≠ id) by congruence.
  assert (User.email (user_base u) ≠ User.email (user_base u2)) by congruence.
  eexists _, _. split; [by apply update_profile_eq|].
  split.
  { rewrite remove_user_eq. simpl. rewrite Hid, lookup_insert_eq.
    rewrite user_base_set_base. simpl.
    rewrite decide_True; [reflexivity|]. by eexists. }
  simpl. split_and!.
  - apply lookup_delete_eq.
  - by rewrite lookup_delete_ne.
  - rewrite authenticate_user_eq. simpl. by rewrite lookup_delete_eq.
  - eexists. rewrite authenticate_user_eq. simpl.
    rewrite lookup_delete_ne, Hold, lookup_insert_eq by done.
    unfold verify_password. rewrite user_base_set_base. simpl.
    by rewrite bool_decide_eq_true_2.
Qed.

Lemma update_profile_then_remove_unlists_another_witness :
  ∃ s1 s2,
    update_profile 1 "D1" "d2@example.org" demo_two_doctors
    = Some (s1, Return tt)
    ∧ remove_user "d1" s1 = Some (s2, Return tt)
    ∧ users s2 !! "d1" = None
    ∧ users s2 !! "d2" = Some 2
    ∧ authenticate_user "d2@example.org" "other" s2
      = Some (s2, Raise (AuthenticationError "Invalid email or password."))
    ∧ ∃ s3, authenticate_user "d1@example.org" "secret" s2
            = Some (s3, Return 1).
Proof.
  apply (update_profile_then_remove_unlists_another demo_two_doctors "d1" 1
           (ADoctor (Doctor.mk (User.mk "d1" "D1" "d1@example.org"
                                  (sha256_hexdigest "secret"))
                       "Cardiology" [] ∅ ∅))
           "D1" "d2" 2
           (ADoctor (Doctor.mk (User.mk "d2" "D2" "d2@example.org"
                                  (sha256_hexdigest "other"))
                       "Surgery" [] ∅ ∅))
           "secret" "other").
  - vm_compute. reflexivity.
  - vm_compute. reflexivity.
  - vm_compute. reflexivity.
  - vm_compute. reflexivity.
  - vm_compute. reflexivity.
  - vm_compute. reflexivity.
  - done.
  - reflexivity.
Defined.

(** ** Ids are not checked *)

(** X24: [register_user] checks the address and not the id.  Registering a
    second object that carries the id of a registered user returns and takes
    the id over: the id resolves to the new object, no id resolves to the old
    one any more, the old one is still found under its address, and
    [remove_user] with the id removes the new object's entries and leaves the
    old address entry behind. *)
Theorem register_user_takes_the_id_over s id l1 u1 l2 u2 :
  users s !! id = Some l1 →
  (∀ id', users s !! id' = Some l1 → id' = id) →
  user_objs s !! l1 = Some u1 →
  users_by_email s !! User.email (user_base u1) = Some l1 →
  user_objs s !! l2 = Some u2 →
  User.user_id (user_base u2) = id →
  users_by_email s !! User.email (user_base u2) = None →
  l2 ≠ l1 →
  ∃ s1 s2,
    register_user l2 s = Some (s1, Return tt)
    ∧ users s1 !! id = Some l2
    ∧ (∀ id', users s1 !! id' ≠ Some l1)
    ∧ users_by_email s1 !! User.email (user_base u1) = Some l1
    ∧ remove_user id s1 = Some (s2, Return tt)
    ∧ users s2 !! id = None
    ∧ users_by_email s2 !! User.email (user_base u1) = Some l1
    ∧ users_by_email s2 !! User.email (user_base u2) = None.
Proof.
  intros Hid Honly Hu1 Hby1 Hu2 <- Hby2 Hne.
  assert (User.email (user_base u2) ≠ User.email (user_base u1)) by congruence.
  eexists _, _. split.
  { rewrite (register_user_eq _ _ _ Hu2), decide_False; [reflexivity|].
    rewrite Hby2. by intros [? ?]. }
  simpl. split_and!.
  - apply lookup_insert_eq.
  - intros id'. destruct (decide (id' = User.user_id (user_base u2))) as [->|].
    + rewrite lookup_insert_eq. congruence.
    + rewrite lookup_insert_ne by done. intros Hid'. by apply Honly in Hid'.
  - by rewrite lookup_insert_ne.
  - rewrite remove_user_eq. simpl. rewrite lookup_insert_eq, Hu2.
    rewrite decide_True; [reflexivity|]. rewrite lookup_insert_eq. by eexists.
  - simpl. apply lookup_delete_eq.
  - simpl. by rewrite lookup_delete_ne, lookup_insert_ne.
  - simpl. apply lookup_delete_eq.
Qed.

Lemma register_user_takes_the_id_over_witness :
  ∃ s1 s2,
    register_user 2 demo_namesake = Some (s1, Return tt)
    ∧ users s1 !! "p1" = Some 2
    ∧ (∀ id', users s1 !! id' ≠ Some 0)
    ∧ users_by_email s1 !! "p1@example.org" = Some 0
    ∧ remove_user "p1" s1 = Some (s2, Return tt)
    ∧ users s2 !! "p1" = None
    ∧ users_by_email s2 !! "p1@example.org" = Some 0
    ∧ users_by_email s2 !! "p2@example.org" = None.
Proof.
  apply (register_user_takes_the_id_over demo_namesake "p1" 0
           (APatient (Patient.mk (User.mk "p1" "P1" "p1@example.org"
                                    (sha256_hexdigest "secret")) [] [] [] ∅))
           2
           (APatient (Patient.mk (User.mk "p1" "P2" "p2@example.org"
                                    (sha256_hexdigest "secret2")) [] [] [] ∅))).
  - vm_compute. reflexivity.
  - intros id' Hid'.
    assert (users demo_namesake = <["d1":=1]> (<["p1":=0]> ∅)) as Hus
      by (vm_compute; reflexivity).
    rewrite Hus in Hid'.
    destruct (decide (id' = "d1")) as [->|];
      [by rewrite lookup_insert_eq in Hid'|].
    rewrite lookup_insert_ne in Hid' by done.
    destruct (decide (id' = "p1")) as [->|]; [done|].
    by rewrite lookup_insert_ne, lookup_empty in Hid'.
  - vm_compute. reflexivity.
  - vm_compute. reflexivity.
  - vm_compute. reflexivity.
  - reflexivity.
  - vm_compute. reflexivity.
  - done.
Defined.

(** X25: [schedule_appointment] does not check the appointment id either.
    A second booking that comes to carry the id of an earlier one returns and
    takes the index entry over, so [cancel_appointment] with the id cancels
    the second appointment and the first one stays "Scheduled", out of reach
    of the index. *)
Theorem schedule_appointment_takes_the_id_over
    s s1 a1 patient_id doctor_id t1 aid uuid4 dl d t2 patient_id' aid' uuid4' :
  schedule_appointment patient_id doctor_id t1 aid uuid4 s
  = Some (s1, Return a1) →
  id_or_uuid aid' uuid4' = id_or_uuid aid uuid4 →
  users s !! doctor_id = Some dl →
  user_objs s !! dl = Some (ADoctor d) →
  Forall (free_at s t2) (Doctor.appointments d) →
  t2 ≠ t1 →
  is_patient s patient_id' →
  ∃ s2 a2 s3,
    schedule_appointment patient_id' doctor_id t2 aid' uuid4' s1
    = Some (s2, Return a2)
    ∧ a2 ≠ a1
    ∧ appointments s2 !! id_or_uuid aid uuid4 = Some a2
    ∧ cancel_appointment (id_or_uuid aid uuid4) s2 = Some (s3, Return tt)
    ∧ appointments s3 !! id_or_uuid aid uuid4 = Some a2
    ∧ appointment_objs s3 !! a2
      = Some (Appointment.mk (id_or_uuid aid uuid4) patient_id' doctor_id t2
                "Cancelled" "")
    ∧ appointment_objs s3 !! a1
      = Some (Appointment.mk (id_or_uuid aid uuid4) patient_id doctor_id t1
                "Scheduled" "").
Proof.
  intros H Hsame Hdl Hd Hfree' Hne (pl' & p' & Hpl' & Hp').
  assert (exec (ScheduleAppointment patient_id doctor_id t1 aid uuid4) s
          = Some (s1, None)) as Hex.
  { simpl. unfold discard. by rewrite H. }
  apply exec_users_evolve in Hex.
  destruct (Hex _ _ Hp') as ([p1|?|?] & Hp1 & _ & Hg); try done. clear Hg Hex.
  apply schedule_appointment_Return in H
    as (pl & p & dl0 & d0 & Hpl & Hp & Hdl0 & Hd0 & Hfree & -> & Hus & Hidx
        & Hobjs & Huo & _).
  assert (dl0 = dl) as -> by congruence.
  assert (d0 = d) as -> by congruence.
  set (a1 := fresh (dom (appointment_objs s))) in *.
  assert (appointment_objs s !! a1 = None) as Hfresh by apply fresh_lookup_None.
  set (d1 := Doctor.mk (Doctor.base d) (Doctor.specialization d)
               (Doctor.appointments d ++ [a1])
               ({[patient_id]} ∪ Doctor.patients d) (Doctor.schedule d)).
  assert (user_objs s1 !! dl = Some (ADoctor d1)) as Hd1.
  { rewrite Huo. apply lookup_insert_eq. }
  assert (Forall (free_at s1 t2) (Doctor.appointments d1)) as Hscan.
  { eapply (Forall_free_at_kept s s1 t2 t2 a1); try done.
    - intros l0 ?. by rewrite Hobjs, lookup_insert_ne.
    - eexists. rewrite Hobjs, lookup_insert_eq. split; [done|].
      intros [? _]. by apply Hne. }
  set (a2 := fresh (dom (appointment_objs s1))).
  assert (a2 ≠ a1) as Hne2.
  { intros Heq. pose proof (is_fresh (dom (appointment_objs s1))) as Hnot.
    fold a2 in Hnot. rewrite Heq, Hobjs in Hnot. apply Hnot. set_solver. }
  eexists _, a2, _. split.
  { eapply schedule_appointment_free; [by rewrite Hus|exact Hp1|by rewrite Hus
                                      |exact Hd1|exact Hscan]. }
  split; [done|]. simpl. rewrite Hsame.
  split; [apply lookup_insert_eq|]. split.
  { rewrite cancel_appointment_eq. simpl. fold a2.
    rewrite Hsame, !lookup_insert_eq. reflexivity. }
  simpl. fold a2. split_and!.
  - rewrite Hsame. apply lookup_insert_eq.
  - unfold Appointment.init. by rewrite lookup_insert_eq, Hsame.
  - rewrite !lookup_insert_ne by done. rewrite Hobjs. apply lookup_insert_eq.
Qed.

Lemma schedule_appointment_takes_the_id_over_witness :
  ∃ s2 a2 s3,
    schedule_appointment "p1" "d1" (t_10h + 1) (Some "uuid-a1") "uuid-a2"
      demo_booked
    = Some (s2, Return a2)
    ∧ a2 ≠ 0
    ∧ appointments s2 !! "uuid-a1" = Some a2
    ∧ cancel_appointment "uuid-a1" s2 = Some (s3, Return tt)
    ∧ appointments s3 !! "uuid-a1" = Some a2
    ∧ appointment_objs s3 !! a2
      = Some (Appointment.mk "uuid-a1" "p1" "d1" (t_10h + 1) "Cancelled" "")
    ∧ appointment_objs s3 !! 0
      = Some (Appointment.mk "uuid-a1" "p1" "d1" t_10h "Scheduled" "").
Proof.
  apply (schedule_appointment_takes_the_id_over demo demo_booked 0 "p1" "d1"
           t_10h None "uuid-a1" 1
           (Doctor.mk (User.mk "d1" "D1" "d1@example.org"
                         (sha256_hexdigest "secret")) "Cardiology" [] ∅ ∅)
           (t_10h + 1)%Z "p1" (Some "uuid-a1") "uuid-a2").
  - vm_compute. reflexivity.
  - reflexivity.
  - vm_compute. reflexivity.
  - vm_compute. reflexivity.
  - constructor.
  - done.
  - eexists 0, _. split; vm_compute; reflexivity.
Defined.

(** ** Operations on a patient need a patient *)

(** X26: when the id resolves to no patient object, because it is not
    indexed or because a doctor or an administrator is registered under it,
    each of the six operations that take a patient id raises
    [RecordNotFoundError] "Patient not found." and leaves the store alone:
    nothing is indexed, created or printed. *)
Theorem patient_operations_need_a_patient
    s id record prescription amount description bid uuid4 now :
  (∀ l, users s !! id = Some l → is_Some (user_objs s !! l)) →
  ¬ is_patient s id →
  let refused {A} (m : M A) :=
    m s = Some (s, Raise (RecordNotFoundError "Patient not found.")) in
  refused (add_medical_record id record)
  ∧ refused (get_medical_records id)
  ∧ refused (add_prescription id prescription)
  ∧ refused (get_prescriptions id)
  ∧ refused (create_billing id amount description bid uuid4 now)
  ∧ refused (get_billing_info id).
Proof.
  intros Hobj Hnot refused.
  assert (get_patient id s = Some (s, Return None)) as Hget.
  { rewrite get_patient_eq. destruct (users s !! id) as [l|] eqn:Hl; [|done].
    destruct (Hobj l eq_refl) as [u Hu]. rewrite Hu.
    destruct u as [p| |]; try done. exfalso. apply Hnot. by exists l, p. }
  unfold refused, add_medical_record, get_medical_records, add_prescription,
    get_prescriptions, create_billing, get_billing_info.
  rewrite !bind_eq, Hget. by split_and!.
Qed.

Lemma patient_operations_need_a_patient_witness :
  add_medical_record "d1" 0 demo_treated
  = Some (demo_treated, Raise (RecordNotFoundError "Patient not found."))
  ∧ get_medical_records "d1" demo_treated
    = Some (demo_treated, Raise (RecordNotFoundError "Patient not found."))
  ∧ add_prescription "d1" 0 demo_treated
    = Some (demo_treated, Raise (RecordNotFoundError "Patient not found."))
  ∧ get_prescriptions "d1" demo_treated
    = Some (demo_treated, Raise (RecordNotFoundError "Patient not found."))
  ∧ create_billing "d1" 100 "visit" None "uuid-b" 0 demo_treated
    = Some (demo_treated, Raise (RecordNotFoundError "Patient not found."))
  ∧ get_billing_info "d1" demo_treated
    = Some (demo_treated, Raise (RecordNotFoundError "Patient not found.")).
Proof.
  apply (patient_operations_need_a_patient demo_treated "d1" 0 0 100%float
           "visit" None "uuid-b" 0%Z).
  - intros l Hl. assert (l = 1) as -> by (vm_compute in Hl; congruence).
    eexists. vm_compute. reflexivity.
  - intros (l & p & Hl & Hp).
    assert (l = 1) as -> by (vm_compute in Hl; congruence).
    vm_compute in Hp. congruence.
Defined.
